(** * BI-dashboard: ingestion, enrichment, batch state machine and reporting

    A shallow embedding of the Django application under [app/core]:
    the string operations the categorizer relies on, the tables of
    [models.py], the categorization and enrichment services, the Celery
    tasks of [tasks.py], the ingestion serializer and view, the summary
    aggregation and the date-range validator, followed by the properties
    proved about them.

    Conventions of the embedding.
    - A Python [str] is a [string]; every character is read as the code
      point of the same number (0..255), and [lower], [strip] act on it
      as Python does on those code points.
    - A table is the list of its rows in insertion order; the primary key
      of a row is its position.  [Batch.batch_id] (a database-generated
      UUID) and the implicit [Transaction.id] are these positions.
    - Decimal amounts with two decimal places are integers counted in
      hundredths; timestamps are integers (microseconds where the unit
      matters); a calendar date stored in a row is a day number.
    - [auto_now] timestamps ([updated_at]) and log lines are not stored.
    - Code that talks to the database, the cache or the task queue is a
      function of an environment (which operations raise) and a world
      (database, cache, queue), returning a result or an exception
      together with the new world.  [transaction.atomic] restores the
      database part of the world when its body raises. *)

From Stdlib Require Import ZArith Ascii String List Bool Lia Sorted Permutation.
From stdpp Require Import base list strings.
From stdpp Require Import gmap.

Local Open Scope string_scope.

(** ** Sorting *)

(** A stable sort by an integer key, smallest first: [sorted(l, key=key)]
    and SQL's [ORDER BY key] over rows taken in table order. *)
Fixpoint insert_by {A : Type} (key : A -> Z) (x : A) (l : list A) : list A :=
  match l with
  | [] => [x]
  | y :: l' =>
      if (key y <? key x)%Z then y :: insert_by key x l' else x :: l
  end.

Definition stable_sort_by {A : Type} (key : A -> Z) (l : list A) : list A :=
  foldr (insert_by key) [] l.

(** ** Python strings *)

Module Py.

(** [str.isspace] on one character. *)
Definition isspace (c : ascii) : bool :=
  let n := nat_of_ascii c in
  ((9 <=? n)%nat && (n <=? 13)%nat)
  || ((28 <=? n)%nat && (n <=? 32)%nat)
  || (n =? 133)%nat || (n =? 160)%nat.

Definition lower_char (c : ascii) : ascii :=
  let n := nat_of_ascii c in
  if ((65 <=? n)%nat && (n <=? 90)%nat)
     || ((192 <=? n)%nat && (n <=? 222)%nat && negb (n =? 215)%nat)
  then ascii_of_nat (n + 32)
  else c.

(** [s.lower()] *)
Fixpoint lower (s : string) : string :=
  match s with
  | EmptyString => EmptyString
  | String c s' => String (lower_char c) (lower s')
  end.

Fixpoint lstrip (s : string) : string :=
  match s with
  | EmptyString => EmptyString
  | String c s' => if isspace c then lstrip s' else s
  end.

Fixpoint rstrip (s : string) : string :=
  match s with
  | EmptyString => EmptyString
  | String c s' =>
      match rstrip s' with
      | EmptyString => if isspace c then EmptyString else String c EmptyString
      | r => String c r
      end
  end.

(** [s.strip()] *)
Definition strip (s : string) : string := rstrip (lstrip s).

(** [len(s)] *)
Definition len (s : string) : nat := String.length s.

(** [sub in s] *)
Fixpoint contains (sub s : string) : bool :=
  String.prefix sub s
  || match s with
     | EmptyString => false
     | String _ s' => contains sub s'
     end.

(** Truth value of an [Optional[str]]. *)
Definition truthy (o : option string) : bool :=
  match o with
  | Some s => negb (String.eqb s "")
  | None => false
  end.

(** [a or b] on [Optional[str]] operands. *)
Definition or (a b : option string) : option string :=
  if truthy a then a else b.

(** A [dict] with string keys, in insertion order: assigning to a key
    already present replaces the value and keeps the key's position. *)
Fixpoint dict_set {V : Type} (k : string) (v : V) (d : list (string * V))
  : list (string * V) :=
  match d with
  | [] => [(k, v)]
  | (k', v') :: d' =>
      if String.eqb k' k then (k, v) :: d' else (k', v') :: dict_set k v d'
  end.

(** [l.sort(key=len, reverse=True)]: stable, longest first. *)
Definition sort_by_len_desc (l : list string) : list string :=
  stable_sort_by (fun s => (- Z.of_nat (len s))%Z) l.

End Py.

(** ** models.py *)

Inductive Status := PENDING | COMPLETED | FAILED | PROCESSING.

Global Instance Status_eq_dec : EqDecision Status.
Proof. solve_decision. Defined.

Module Account.
Record t := mk {
  account_id : string;
  name : string;
  type : string;
  subtype : option string;
  mask : option string
}.
End Account.

Module Batch.
(** [batch_id] is the position of the row in the table. *)
Record t := mk {
  request_id : option string;
  total_transactions : Z;
  status : Status;
  created_at : Z
}.

Definition set_status (s : Status) (b : t) : t :=
  mk (request_id b) (total_transactions b) s (created_at b).
End Batch.

Module Transaction.
Record t := mk {
  transaction_id : string;
  account_id : string;
  batch : option nat;
  amount : Z;
  currency : string;
  date : Z;
  authorized_date : option Z;
  merchant_name : option string;
  description : string;
  payment_channel : option string;
  pending : bool;
  category : option string;
  ingestion_status : Status
}.

(** The two fields the batch processor writes. *)
Definition set_enrichment (c : option string) (s : Status) (x : t) : t :=
  mk (transaction_id x) (account_id x) (batch x) (amount x) (currency x)
     (date x) (authorized_date x) (merchant_name x) (description x)
     (payment_channel x) (pending x) c s.
End Transaction.

Module Category.
(** A category together with the [pattern] column of its
    [CategoryPattern] rows, as [category.patterns.all()] yields them. *)
Record t := mk {
  name : string;
  patterns : list string
}.
End Category.

(** ** The world: database, cache, task queue; and what may raise *)

(** The snapshot kept under the cache key [transaction_category_patterns]:
    a dict from category name to its patterns. *)
Definition Snapshot := list (string * list string).

Record Database := mkDatabase {
  accounts : list Account.t;
  batches : list Batch.t;
  transactions : list Transaction.t;
  (** [Category.objects.all()], in the order of [Meta.ordering]. *)
  categories : list Category.t
}.

Record World := mkWorld {
  db : Database;
  cache : option Snapshot;
  (** batch ids handed to [process_batch_async.delay] *)
  queue : list nat
}.

Definition with_db (d : Database) (w : World) : World :=
  mkWorld d (cache w) (queue w).

Definition with_cache (c : option Snapshot) (w : World) : World :=
  mkWorld (db w) c (queue w).

Definition with_batches (bs : list Batch.t) (d : Database) : Database :=
  mkDatabase (accounts d) bs (transactions d) (categories d).

Definition with_transactions (ts : list Transaction.t) (d : Database) : Database :=
  mkDatabase (accounts d) (batches d) ts (categories d).

Definition with_accounts (acs : list Account.t) (d : Database) : Database :=
  mkDatabase acs (batches d) (transactions d) (categories d).

(** Calls into the cache backend, the database and the broker that fail
    when the service behind them does. *)
Inductive Op :=
| CacheGet | CacheSet | CategoryQuery | TransactionBulkUpdate
| AccountBulkCreate | BatchCreate | TransactionBulkCreate | TaskDelay.

(** The environment tells which operations raise. *)
Definition Env := Op -> bool.

Definition healthy : Env := fun _ => false.

(** [OperationalError]: the service behind an operation is down;
    [ProgrammingError]: the database refuses a statement;
    [DataError]: a value does not fit its column. *)
Inductive Exception :=
| DoesNotExist
| OperationalError (op : Op)
| ProgrammingError
| DataError.

Inductive Result (A : Type) :=
| Return (a : A)
| Raise (e : Exception).
Arguments Return {A} a.
Arguments Raise {A} e.

(** Computations over the world that may raise. *)
Definition M (A : Type) : Type := Env -> World -> Result A * World.

Definition ret {A} (a : A) : M A := fun _ w => (Return a, w).

Definition bind {A B} (m : M A) (f : A -> M B) : M B :=
  fun env w =>
    match m env w with
    | (Return a, w') => f a env w'
    | (Raise e, w') => (Raise e, w')
    end.

Definition raise {A} (e : Exception) : M A := fun _ w => (Raise e, w).

Notation "x <- m ;; k" := (bind m (fun x => k))
  (at level 100, m at next level, right associativity).
Notation "m ;;; k" := (bind m (fun _ => k))
  (at level 100, right associativity).

(** [try: m except Exception as e: h e] *)
Definition try_except {A} (m : M A) (h : Exception -> M A) : M A :=
  fun env w =>
    match m env w with
    | (Raise e, w') => h e env w'
    | r => r
    end.

(** [@transaction.atomic]: commit when the body returns, roll the database
    back when it raises.  The cache and the queue are not transactional. *)
Definition atomic {A} (m : M A) : M A :=
  fun env w =>
    match m env w with
    | (Raise e, w') => (Raise e, with_db (db w) w')
    | r => r
    end.

(** The operation [op] raises when the environment says so. *)
Definition fault (op : Op) : M unit :=
  fun env w => if env op then (Raise (OperationalError op), w) else (Return tt, w).

Definition get_world : M World := fun _ w => (Return w, w).
Definition put_world (w : World) : M unit := fun _ _ => (Return tt, w).

(** [for x in xs: body], threading an accumulator. *)
Fixpoint for_each {A S : Type} (xs : list A) (body : S -> A -> M S) (s : S) : M S :=
  match xs with
  | [] => ret s
  | x :: xs' => s' <- body s x ;; for_each xs' body s'
  end.

(** ** services/categorization.py *)

Module DatabaseCategorizer.

Definition MIN_LENGTH : nat := 3.

(** The body of the loop over categories in [_load_patterns]. *)
Definition add_category (patterns : Snapshot) (category : Category.t) : Snapshot :=
  let category_patterns :=
    map (fun p => Py.strip (Py.lower p))
        (List.filter (fun p => (MIN_LENGTH <=? Py.len (Py.strip p))%nat)
                     (Category.patterns category)) in
  Py.dict_set (Py.lower (Category.name category))
              (Py.sort_by_len_desc category_patterns) patterns.

Definition build_patterns (cats : list Category.t) : Snapshot :=
  fold_left add_category cats [].

Definition _load_patterns : M Snapshot :=
  fault CacheGet ;;;
  w <- get_world ;;
  match cache w with
  | Some patterns => ret patterns
  | None =>
      fault CategoryQuery ;;;
      let patterns := build_patterns (categories (db w)) in
      fault CacheSet ;;;
      put_world (with_cache (Some patterns) w) ;;;
      ret patterns
  end.

(** [cache.delete(CACHE_KEY)] *)
Definition refresh_cache : M unit :=
  w <- get_world ;; put_world (with_cache None w).

(** The inner loop of [categorize]: does some pattern of the category
    match?  [pattern in text or text in pattern]. *)
Fixpoint match_patterns (text : string) (category_patterns : list string) : bool :=
  match category_patterns with
  | [] => false
  | pattern :: rest =>
      if Py.contains pattern text || Py.contains text pattern
      then true
      else match_patterns text rest
  end.

(** The outer loop: [for category_name, category_patterns in patterns.items()],
    returning at the first match, ["other"] when the loops finish. *)
Fixpoint match_categories (text : string) (patterns : Snapshot) : string :=
  match patterns with
  | [] => "other"
  | (category_name, category_patterns) :: rest =>
      if match_patterns text category_patterns
      then category_name
      else match_categories text rest
  end.

Definition categorize (transaction_text : string) : M string :=
  if String.eqb transaction_text "" then ret "other"
  else
    let text := Py.strip (Py.lower transaction_text) in
    if (Py.len text <? MIN_LENGTH)%nat then ret "other"
    else
      patterns <- _load_patterns ;;
      ret (match_categories text patterns).

End DatabaseCategorizer.

(** The abstract interface [TransactionCategorizer]. *)
Record TransactionCategorizer := mkCategorizer {
  categorize : string -> M string
}.

Definition DatabaseCategorizer_new : TransactionCategorizer :=
  mkCategorizer DatabaseCategorizer.categorize.

(** ** services/enrichment.py *)

Module TransactionEnrichmentService.

Definition enrich_transaction (categorizer : TransactionCategorizer)
    (merchant_name description : option string) : M string :=
  let text_to_categorize :=
    default "" (Py.or (Py.or merchant_name description) (Some "")) in
  if String.eqb (Py.strip text_to_categorize) "" then ret "other"
  else
    category <- categorize categorizer text_to_categorize ;;
    ret category.

End TransactionEnrichmentService.

(** ** tasks.py *)

(** The rows of a table paired with their primary keys. *)
Definition with_pk {A : Type} (rows : list A) : list (nat * A) :=
  imap (fun i x => (i, x)) rows.

(** [Batch.objects.select_for_update().get(batch_id=batch_id)] *)
Definition Batch_get (batch_id : nat) : M Batch.t :=
  w <- get_world ;;
  match batches (db w) !! batch_id with
  | Some batch => ret batch
  | None => raise DoesNotExist
  end.

(** [UPDATE core_batch SET status = s WHERE batch_id = batch_id] *)
Definition mark_batch (batch_id : nat) (s : Status) (w : World) : World :=
  with_db (with_batches (alter (Batch.set_status s) batch_id (batches (db w)))
                        (db w)) w.

(** [batch.status = s; batch.save(update_fields=['status', 'updated_at'])] *)
Definition Batch_save_status (batch_id : nat) (s : Status) : M unit :=
  w <- get_world ;;
  put_world (mark_batch batch_id s w).

(** [Transaction.objects.filter(batch=batch, ingestion_status=Status.PENDING)] *)
Definition Transaction_filter_pending (batch_id : nat) : M (list (nat * Transaction.t)) :=
  w <- get_world ;;
  ret (List.filter
         (fun r => bool_decide (Transaction.batch r.2 = Some batch_id)
                   && bool_decide (Transaction.ingestion_status r.2 = PENDING))
         (with_pk (transactions (db w)))).

(** One row of [bulk_update]: the listed fields of the object are written
    to the row with its primary key. *)
Definition write_enrichment (table : list Transaction.t) (obj : nat * Transaction.t)
  : list Transaction.t :=
  alter (Transaction.set_enrichment (Transaction.category obj.2)
                                    (Transaction.ingestion_status obj.2))
        obj.1 table.

(** [Transaction.objects.bulk_update(objs, ['category', 'ingestion_status',
    'updated_at'], batch_size=1000)].  With no objects Django issues no
    query; otherwise the update runs as one atomic write. *)
Definition Transaction_bulk_update (objs : list (nat * Transaction.t)) : M unit :=
  match objs with
  | [] => ret tt
  | _ =>
      fault TransactionBulkUpdate ;;;
      w <- get_world ;;
      put_world
        (with_db (with_transactions
                    (fold_left write_enrichment objs (transactions (db w)))
                    (db w)) w)
  end.

(** The body of [for txn in transactions] in [process_single_batch]. *)
Definition enrich_and_collect (categorizer : TransactionCategorizer)
    (transactions_to_update : list (nat * Transaction.t))
    (txn : nat * Transaction.t) : M (list (nat * Transaction.t)) :=
  category <- TransactionEnrichmentService.enrich_transaction categorizer
                (Transaction.merchant_name txn.2)
                (Some (Transaction.description txn.2)) ;;
  ret (transactions_to_update
         ++ [(txn.1, Transaction.set_enrichment (Some category) COMPLETED txn.2)])%list.

(** The [try] block of [process_single_batch]. *)
Definition enrich_batch (batch_id : nat) : M unit :=
  let categorizer := DatabaseCategorizer_new in
  transactions <- Transaction_filter_pending batch_id ;;
  transactions_to_update <-
    for_each transactions (enrich_and_collect categorizer) [] ;;
  Transaction_bulk_update transactions_to_update ;;;
  Batch_save_status batch_id COMPLETED.

(** The function under its [@transaction.atomic] decorator. *)
Definition process_single_batch_body (batch_id : nat) : M unit :=
  batch <- Batch_get batch_id ;;
  if bool_decide (Batch.status batch = PROCESSING)
     || bool_decide (Batch.status batch = COMPLETED)
  then ret tt
  else
    Batch_save_status batch_id PROCESSING ;;;
    try_except
      (enrich_batch batch_id)
      (fun e => Batch_save_status batch_id FAILED ;;; raise e).

Definition process_single_batch (batch_id : nat) : M unit :=
  atomic (process_single_batch_body batch_id).

(** The dict returned by [process_batch_async]. *)
Inductive AsyncOutcome :=
| Success (batch_id : nat)
| Failure (batch_id : nat) (error : Exception).

Definition process_batch_async (batch_id : nat) : M AsyncOutcome :=
  try_except
    (process_single_batch batch_id ;;; ret (Success batch_id))
    (fun e => ret (Failure batch_id e)).

(** [order_by('created_at')]: oldest first; rows created at the same
    instant stay in table order. *)
Definition order_by_created_at (l : list (nat * Batch.t)) : list (nat * Batch.t) :=
  stable_sort_by (fun r => Batch.created_at r.2) l.

(** [Batch.objects.filter(status=Status.PENDING).order_by('created_at')] *)
Definition pending_batches (d : Database) : list (nat * Batch.t) :=
  order_by_created_at
    (List.filter (fun r => bool_decide (Batch.status r.2 = PENDING))
                 (with_pk (batches d))).

(** The dict returned by [process_pending_batches]. *)
Record Counts := mkCounts { processed : Z; failed : Z }.

(** The body of [for batch in pending_batches]. *)
Definition sweep_one (counts : Counts) (batch : nat * Batch.t) : M Counts :=
  try_except
    (process_single_batch batch.1 ;;;
     ret (mkCounts (processed counts + 1) (failed counts)))
    (fun e =>
       Batch_save_status batch.1 FAILED ;;;
       ret (mkCounts (processed counts) (failed counts + 1))).

Definition process_pending_batches : M Counts :=
  w <- get_world ;;
  let pending := pending_batches (db w) in
  match pending with
  | [] => ret (mkCounts 0 0)
  | _ => for_each pending sweep_one (mkCounts 0 0)
  end.

(** ** serializers.py: the ingestion payload *)

(** A field of the request body before validation: missing, JSON null, a
    value the field's parser rejects, or a value of the field's type. *)
Inductive Raw (A : Type) :=
| Absent
| Null
| Malformed
| Value (a : A).
Arguments Absent {A}.
Arguments Null {A}.
Arguments Malformed {A}.
Arguments Value {A} a.

Module RawAccount.
Record t := mk {
  account_id : Raw string;
  name : Raw string;
  type : Raw string;
  subtype : Raw string;
  mask : Raw string
}.
End RawAccount.

Module RawTransaction.
Record t := mk {
  transaction_id : Raw string;
  account_id : Raw string;
  amount : Raw Z;
  iso_currency_code : Raw string;
  date : Raw Z;
  authorized_date : Raw Z;
  name : Raw string;
  merchant_name : Raw string;
  payment_channel : Raw string;
  pending : Raw bool
}.
End RawTransaction.

Module RawRequest.
Record t := mk {
  accounts : Raw (list RawAccount.t);
  transactions : Raw (list RawTransaction.t);
  total_transactions : Raw Z;
  request_id : Raw string
}.
End RawRequest.

(** Validated data.  A key that may be missing from the validated dict is
    read with [.get], which yields [None] both when the key is missing
    and when its value is null. *)
Module AccountData.
Record t := mk {
  account_id : string;
  name : string;
  type : string;
  subtype : option string;
  mask : option string
}.
End AccountData.

Module TransactionData.
Record t := mk {
  transaction_id : string;
  account_id : string;
  amount : Z;
  iso_currency_code : string;
  date : Z;
  authorized_date : option Z;
  name : string;
  merchant_name : option string;
  payment_channel : option string;
  pending : bool
}.
End TransactionData.

Module ValidatedData.
Record t := mk {
  accounts : list AccountData.t;
  transactions : list TransactionData.t;
  total_transactions : Z;
  request_id : option string
}.
End ValidatedData.

(** Field validators; [None] stands for a validation error. *)

(** The validator every [CharField] carries: no null character. *)
Definition has_null_character (s : string) : bool :=
  existsb (Ascii.eqb Ascii.zero) (list_ascii_of_string s).

(** [CharField(max_length=n)]: required, not null, whitespace trimmed,
    not blank, at most [n] characters, no null character. *)
Definition CharField (max_length : nat) (v : Raw string) : option string :=
  match v with
  | Value s =>
      let s := Py.strip s in
      if String.eqb s "" then None
      else if (max_length <? Py.len s)%nat then None
      else if has_null_character s then None
      else Some s
  | _ => None
  end.

(** [CharField(max_length=n, required=False, allow_null=True, allow_blank=True)] *)
Definition OptionalCharField (max_length : nat) (v : Raw string)
  : option (option string) :=
  match v with
  | Absent | Null => Some None
  | Malformed => None
  | Value s =>
      let s := Py.strip s in
      if (max_length <? Py.len s)%nat then None
      else if has_null_character s then None
      else Some (Some s)
  end.

(** [DecimalField(max_digits=19, decimal_places=2)], in hundredths. *)
Definition DecimalField (max_digits : nat) (v : Raw Z) : option Z :=
  match v with
  | Value z => if (Z.abs z <? 10 ^ Z.of_nat max_digits)%Z then Some z else None
  | _ => None
  end.

(** [DateTimeField()] and [IntegerField()] *)
Definition RequiredField {A : Type} (v : Raw A) : option A :=
  match v with
  | Value a => Some a
  | _ => None
  end.

(** [FlexibleDateField(required=False, allow_null=True)] *)
Definition FlexibleDateField (v : Raw Z) : option (option Z) :=
  match v with
  | Absent | Null => Some None
  | Malformed => None
  | Value d => Some (Some d)
  end.

(** [BooleanField(default=False)] *)
Definition BooleanField (v : Raw bool) : option bool :=
  match v with
  | Absent => Some false
  | Value b => Some b
  | _ => None
  end.

Definition AccountSerializer (a : RawAccount.t) : option AccountData.t :=
  account_id ← CharField 255 (RawAccount.account_id a);
  name ← CharField 255 (RawAccount.name a);
  type ← CharField 100 (RawAccount.type a);
  subtype ← OptionalCharField 100 (RawAccount.subtype a);
  mask ← OptionalCharField 10 (RawAccount.mask a);
  Some (AccountData.mk account_id name type subtype mask).

Definition TransactionSerializer (x : RawTransaction.t) : option TransactionData.t :=
  transaction_id ← CharField 255 (RawTransaction.transaction_id x);
  account_id ← CharField 255 (RawTransaction.account_id x);
  amount ← DecimalField 19 (RawTransaction.amount x);
  iso_currency_code ← CharField 3 (RawTransaction.iso_currency_code x);
  date ← RequiredField (RawTransaction.date x);
  authorized_date ← FlexibleDateField (RawTransaction.authorized_date x);
  name ← CharField 255 (RawTransaction.name x);
  merchant_name ← OptionalCharField 255 (RawTransaction.merchant_name x);
  payment_channel ← OptionalCharField 50 (RawTransaction.payment_channel x);
  pending ← BooleanField (RawTransaction.pending x);
  Some (TransactionData.mk transaction_id account_id amount iso_currency_code
          date authorized_date name merchant_name payment_channel pending).

(** A nested serializer with [many=True]. *)
Definition ListSerializer {A B : Type} (child : A -> option B) (v : Raw (list A))
  : option (list B) :=
  match v with
  | Value l => mapM child l
  | _ => None
  end.

Module BatchIngestionRequestSerializer.

(** [serializer.is_valid()], with the validated data when it holds. *)
Definition is_valid (data : RawRequest.t) : option ValidatedData.t :=
  accounts ← ListSerializer AccountSerializer (RawRequest.accounts data);
  transactions ← ListSerializer TransactionSerializer (RawRequest.transactions data);
  total_transactions ← RequiredField (RawRequest.total_transactions data);
  request_id ← OptionalCharField 255 (RawRequest.request_id data);
  Some (ValidatedData.mk accounts transactions total_transactions request_id).

(** One object of [Account.objects.bulk_create(..., update_conflicts=True,
    update_fields=['name', 'type', 'subtype', 'mask'],
    unique_fields=['account_id'])]. *)
Fixpoint upsert_account (a : Account.t) (table : list Account.t) : list Account.t :=
  match table with
  | [] => [a]
  | row :: table' =>
      if String.eqb (Account.account_id row) (Account.account_id a)
      then a :: table'
      else row :: upsert_account a table'
  end.

(** [batch_size]: the objects of a bulk operation go to the database
    [batch_size] at a time, one statement for each slice. *)
Fixpoint slices_upto {A : Type} (fuel batch_size : nat) (objs : list A)
  : list (list A) :=
  match fuel, objs with
  | S fuel', _ :: _ =>
      take batch_size objs :: slices_upto fuel' batch_size (drop batch_size objs)
  | _, _ => []
  end.

Definition slices {A : Type} (batch_size : nat) (objs : list A) : list (list A) :=
  slices_upto (length objs) batch_size objs.

(** PostgreSQL refuses an [INSERT ... ON CONFLICT DO UPDATE] that
    proposes the same key twice. *)
Definition statement_accepted (batch : list Account.t) : bool :=
  bool_decide (NoDup (map Account.account_id batch)).

(** [Account.objects.bulk_create(account_objects, update_conflicts=True,
    ..., batch_size=500)].  A refused statement raises; [bulk_create]
    runs in a transaction of its own, so none of its writes is kept
    then. *)
Definition Account_bulk_create (objs : list Account.t) : M unit :=
  match objs with
  | [] => ret tt
  | _ =>
      fault AccountBulkCreate ;;;
      if forallb statement_accepted (slices 500 objs)
      then
        w <- get_world ;;
        put_world
          (with_db (with_accounts
                      (fold_left (fun table a => upsert_account a table) objs
                                 (accounts (db w)))
                      (db w)) w)
      else raise ProgrammingError
  end.

(** The range of the [integer] column behind an [IntegerField]. *)
Definition integer_in_range (n : Z) : bool :=
  ((-2147483648 <=? n) && (n <=? 2147483647))%Z.

(** [Batch.objects.create(total_transactions=..., request_id=...)]: the
    status takes its default, the row goes to the end of the table; the
    database refuses a total outside the range of its column. *)
Definition Batch_create (total_transactions : Z) (request_id : option string)
    (now : Z) : M (nat * Batch.t) :=
  fault BatchCreate ;;;
  if integer_in_range total_transactions
  then
    w <- get_world ;;
    let batch := Batch.mk request_id total_transactions PENDING now in
    let batch_id := length (batches (db w)) in
    put_world
      (with_db (with_batches (batches (db w) ++ [batch]) (db w)) w) ;;;
    ret (batch_id, batch)
  else raise DataError.

(** One object of [Transaction.objects.bulk_create(..., ignore_conflicts=True)]:
    a row whose [transaction_id] is taken is not inserted. *)
Definition insert_or_ignore (table : list Transaction.t) (x : Transaction.t)
  : list Transaction.t :=
  if existsb (fun row => String.eqb (Transaction.transaction_id row)
                                    (Transaction.transaction_id x)) table
  then table
  else table ++ [x].

Definition Transaction_bulk_create (objs : list Transaction.t) : M unit :=
  match objs with
  | [] => ret tt
  | _ =>
      fault TransactionBulkCreate ;;;
      w <- get_world ;;
      put_world
        (with_db (with_transactions
                    (fold_left insert_or_ignore objs (transactions (db w)))
                    (db w)) w)
  end.

Definition account_object (account_data : AccountData.t) : Account.t :=
  Account.mk (AccountData.account_id account_data)
             (AccountData.name account_data)
             (AccountData.type account_data)
             (AccountData.subtype account_data)
             (AccountData.mask account_data).

Definition transaction_object (batch_id : nat) (transaction_data : TransactionData.t)
  : Transaction.t :=
  Transaction.mk (TransactionData.transaction_id transaction_data)
                 (TransactionData.account_id transaction_data)
                 (Some batch_id)
                 (TransactionData.amount transaction_data)
                 (TransactionData.iso_currency_code transaction_data)
                 (TransactionData.date transaction_data)
                 (TransactionData.authorized_date transaction_data)
                 (TransactionData.merchant_name transaction_data)
                 (TransactionData.name transaction_data)
                 (TransactionData.payment_channel transaction_data)
                 (TransactionData.pending transaction_data)
                 None
                 PENDING.

(** The function under its [@transaction.atomic] decorator. *)
Definition create_body (validated_data : ValidatedData.t) (now : Z)
  : M (nat * Batch.t) :=
  let account_objects :=
    map account_object (ValidatedData.accounts validated_data) in
  Account_bulk_create account_objects ;;;
  batch <- Batch_create (ValidatedData.total_transactions validated_data)
                        (ValidatedData.request_id validated_data) now ;;
  let transaction_objects :=
    map (transaction_object batch.1) (ValidatedData.transactions validated_data) in
  Transaction_bulk_create transaction_objects ;;;
  ret batch.

Definition create (validated_data : ValidatedData.t) (now : Z) : M (nat * Batch.t) :=
  atomic (create_body validated_data now).

End BatchIngestionRequestSerializer.

(** ** views.py: the ingestion endpoint *)

Inductive IngestionResponse :=
| HTTP_202_ACCEPTED (batch_id : nat) (total_transactions : Z)
| HTTP_400_BAD_REQUEST
| HTTP_500_INTERNAL_SERVER_ERROR.

Module BatchIngestionView.

(** [process_batch_async.delay(batch_id)] *)
Definition delay (batch_id : nat) : M unit :=
  fault TaskDelay ;;;
  w <- get_world ;;
  put_world (mkWorld (db w) (cache w) (queue w ++ [batch_id])).

(** [now] is the clock reading that [auto_now_add] stores. *)
Definition post (data : RawRequest.t) (now : Z) : M IngestionResponse :=
  match BatchIngestionRequestSerializer.is_valid data with
  | None => ret HTTP_400_BAD_REQUEST
  | Some validated_data =>
      try_except
        (batch <- BatchIngestionRequestSerializer.create validated_data now ;;
         delay batch.1 ;;;
         ret (HTTP_202_ACCEPTED batch.1 (Batch.total_transactions batch.2)))
        (fun e => ret HTTP_500_INTERNAL_SERVER_ERROR)
  end.

End BatchIngestionView.

(** ** utils.py: date-range validation *)

Module Utils.

(** [datetime.date] *)
Record date := mkdate { year : Z; month : Z; day : Z }.

Definition is_leap (y : Z) : bool :=
  ((y mod 4 =? 0) && (negb (y mod 100 =? 0) || (y mod 400 =? 0)))%Z.

Definition days_in_month (y m : Z) : Z :=
  if (m =? 2)%Z then (if is_leap y then 29 else 28)%Z
  else if ((m =? 4) || (m =? 6) || (m =? 9) || (m =? 11))%Z then 30%Z
  else 31%Z.

Definition days_before_year (y : Z) : Z :=
  let p := (y - 1)%Z in (p * 365 + p / 4 - p / 100 + p / 400)%Z.

Fixpoint days_before_month_aux (y : Z) (m : nat) : Z :=
  match m with
  | O => 0%Z
  | S m' => (days_before_month_aux y m' + days_in_month y (Z.of_nat m))%Z
  end.

Definition days_before_month (y m : Z) : Z :=
  days_before_month_aux y (Z.to_nat (m - 1)).

(** [d.toordinal()]: 0001-01-01 is day 1. *)
Definition toordinal (d : date) : Z :=
  (days_before_year (year d) + days_before_month (year d) (month d) + day d)%Z.

(** [date(y, m, d)] raises [ValueError] outside these bounds. *)
Definition valid_date (d : date) : bool :=
  ((1 <=? year d) && (year d <=? 9999)
   && (1 <=? month d) && (month d <=? 12)
   && (1 <=? day d) && (day d <=? days_in_month (year d) (month d)))%Z.

(** [a < b] on dates compares year, month and day in this order. *)
Definition date_lt (a b : date) : bool :=
  ((year a <? year b)
   || ((year a =? year b)
       && ((month a <? month b)
           || ((month a =? month b) && (day a <? day b)))))%Z.

(** [(b - a).days] *)
Definition days_between (a b : date) : Z := (toordinal b - toordinal a)%Z.

Definition digit (c : ascii) : option Z :=
  let n := nat_of_ascii c in
  if (48 <=? n)%nat && (n <=? 57)%nat then Some (Z.of_nat (n - 48)) else None.

Definition digit_in (lo hi : Z) (c : ascii) : option Z :=
  match digit c with
  | Some v => if ((lo <=? v) && (v <=? hi))%Z then Some v else None
  | None => None
  end.

(** The directive [%m] is the regular expression [1[0-2]|0[1-9]|[1-9]]:
    the ways it can match a prefix of [s], in the order the alternatives
    are tried, each with its value and the rest of the string. *)
Definition match_month (s : string) : list (Z * string) :=
  match s with
  | String a (String b r) =>
      (match digit_in 1 1 a, digit_in 0 2 b with
       | Some _, Some v => [((10 + v)%Z, r)]
       | _, _ => []
       end)
      ++ (match digit_in 0 0 a, digit_in 1 9 b with
          | Some _, Some v => [(v, r)]
          | _, _ => []
          end)
      ++ (match digit_in 1 9 a with
          | Some v => [(v, String b r)]
          | None => []
          end)
  | String a EmptyString =>
      match digit_in 1 9 a with
      | Some v => [(v, EmptyString)]
      | None => []
      end
  | EmptyString => []
  end%list.

(** The directive [%d] is [3[0-1]|[1-2]\d|0[1-9]|[1-9]| [1-9]]; it ends
    the format, so the first alternative that matches is taken. *)
Definition match_day (s : string) : option (Z * string) :=
  match s with
  | String a (String b r) =>
      match digit_in 3 3 a, digit_in 0 1 b with
      | Some _, Some v => Some ((30 + v)%Z, r)
      | _, _ =>
          match digit_in 1 2 a, digit b with
          | Some u, Some v => Some ((10 * u + v)%Z, r)
          | _, _ =>
              match digit_in 0 0 a, digit_in 1 9 b with
              | Some _, Some v => Some (v, r)
              | _, _ =>
                  match digit_in 1 9 a with
                  | Some v => Some (v, String b r)
                  | None =>
                      if Ascii.eqb a " "
                      then match digit_in 1 9 b with
                           | Some v => Some (v, r)
                           | None => None
                           end
                      else None
                  end
              end
          end
      end
  | String a EmptyString =>
      match digit_in 1 9 a with
      | Some v => Some (v, EmptyString)
      | None => None
      end
  | EmptyString => None
  end.

(** After the month: the literal [-] and the day, for the first month
    alternative that lets the whole pattern match. *)
Fixpoint match_month_day (candidates : list (Z * string)) : option (Z * Z * string) :=
  match candidates with
  | [] => None
  | (m, String "-" r) :: rest =>
      match match_day r with
      | Some (d, r') => Some (m, d, r')
      | None => match_month_day rest
      end
  | _ :: rest => match_month_day rest
  end.

(** [datetime.strptime(s, '%Y-%m-%d').date()]; [None] is [ValueError]. *)
Definition strptime (s : string) : option date :=
  match s with
  | String y1 (String y2 (String y3 (String y4 (String "-" r)))) =>
      match digit y1, digit y2, digit y3, digit y4 with
      | Some a, Some b, Some c, Some d =>
          match match_month_day (match_month r) with
          | Some (m, dd, EmptyString) =>
              let res := mkdate (1000 * a + 100 * b + 10 * c + d)%Z m dd in
              if valid_date res then Some res else None
          | _ => None
          end
      | _, _, _, _ => None
      end
  | _ => None
  end.

Inductive ValidationError :=
| InvalidStartDateFormat
| InvalidEndDateFormat
| EndBeforeStart
| RangeExceeded (date_diff : Z).

Inductive Validated (A : Type) :=
| Valid (a : A)
| Invalid (e : ValidationError).
Arguments Valid {A} a.
Arguments Invalid {A} e.

Definition validate_date_range (start_date_str end_date_str : string)
  : Validated (date * date) :=
  match strptime start_date_str with
  | None => Invalid InvalidStartDateFormat
  | Some start_date =>
      match strptime end_date_str with
      | None => Invalid InvalidEndDateFormat
      | Some end_date =>
          if date_lt end_date start_date then Invalid EndBeforeStart
          else
            let date_diff := days_between start_date end_date in
            if (365 <? date_diff)%Z then Invalid (RangeExceeded date_diff)
            else Valid (start_date, end_date)
      end
  end.

End Utils.

(** ** serializers.py and views.py: the account summary *)

Module TopCategorySerializer.

(** Division rounded to the nearest integer, ties to even, as [round] on
    a [Decimal] does. *)
Definition round_half_even (n d : Z) : Z :=
  let q := (n / d)%Z in
  let r := (n mod d)%Z in
  if (2 * r <? d)%Z then q
  else if (d <? 2 * r)%Z then (q + 1)%Z
  else if Z.even q then q else (q + 1)%Z.

(** [round((category_spend / abs(total_spend)) * 100, 2)], returned in
    hundredths of a percent; [total_spend] is the signed sum placed in the
    serializer context, [obj_total_spend] the entry's own amount. *)
Definition get_percentage_of_spend (context_total_spend obj_total_spend : Z) : Z :=
  if (context_total_spend =? 0)%Z then 0%Z
  else
    let category_spend := Z.abs obj_total_spend in
    round_half_even (category_spend * 10000) (Z.abs context_total_spend).

End TopCategorySerializer.

Module AccountSummaryAPIView.

Definition MICROSECONDS_PER_DAY : Z := 86400000000%Z.

(** [datetime.combine(d, time.min)] and [datetime.combine(d, time.max)],
    in microseconds. *)
Definition combine_min (d : Utils.date) : Z :=
  (Utils.toordinal d * MICROSECONDS_PER_DAY)%Z.

Definition combine_max (d : Utils.date) : Z :=
  (Utils.toordinal d * MICROSECONDS_PER_DAY + (MICROSECONDS_PER_DAY - 1))%Z.

(** [Transaction.objects.filter(account_id=..., date__gte=..., date__lte=...)] *)
Definition transactions_qs (table : list Transaction.t) (account_id : string)
    (start_date end_date : Utils.date) : list Transaction.t :=
  List.filter
    (fun x => String.eqb (Transaction.account_id x) account_id
              && (combine_min start_date <=? Transaction.date x)%Z
              && (Transaction.date x <=? combine_max end_date)%Z)
    table.

(** SQL [SUM]: null over no rows. *)
Definition Sum (values : list Z) : option Z :=
  match values with
  | [] => None
  | _ => Some (fold_left Z.add values 0%Z)
  end.

(** [Case(When(amount__lt=0, then='amount'), default=0)] *)
Definition case_spend (x : Transaction.t) : Z :=
  if (Transaction.amount x <? 0)%Z then Transaction.amount x else 0%Z.

(** [Case(When(amount__gte=0, then='amount'), default=0)] *)
Definition case_income (x : Transaction.t) : Z :=
  if (0 <=? Transaction.amount x)%Z then Transaction.amount x else 0%Z.

(** [value or Decimal('0.00')] *)
Definition or_zero (value : option Z) : Z :=
  match value with
  | Some z => if (z =? 0)%Z then 0%Z else z
  | None => 0%Z
  end.

Record Metrics := mkMetrics {
  total_transactions : Z;
  total_spend : Z;
  total_income : Z;
  net : Z
}.

(** The signed spend sum that goes to the serializer context. *)
Definition signed_total_spend (qs : list Transaction.t) : Z :=
  or_zero (Sum (map case_spend qs)).

Definition metrics (qs : list Transaction.t) : Metrics :=
  let total_transactions := Z.of_nat (length qs) in
  let total_spend := signed_total_spend qs in
  let total_income := or_zero (Sum (map case_income qs)) in
  let net := (total_income + total_spend)%Z in
  mkMetrics total_transactions (Z.abs total_spend) total_income net.

(** A row of [values('category').annotate(total_spend=Sum('amount'),
    transaction_count=Count('id'))]. *)
Record CategoryRow := mkCategoryRow {
  row_category : option string;
  row_total_spend : Z;
  row_transaction_count : Z
}.

Definition in_group (key : option string) (x : Transaction.t) : bool :=
  bool_decide (Transaction.category x = key).

(** [GROUP BY category]: one row per distinct value, null included. *)
Definition group_by_category (rows : list Transaction.t) : list CategoryRow :=
  map (fun key =>
         let members := List.filter (in_group key) rows in
         mkCategoryRow key
           (fold_left Z.add (map Transaction.amount members) 0%Z)
           (Z.of_nat (length members)))
      (remove_dups (map Transaction.category rows)).

(** [order_by('total_spend')]: ascending, so the most negative sum first. *)
Definition order_by_total_spend (l : list CategoryRow) : list CategoryRow :=
  stable_sort_by row_total_spend l.

Definition top_categories_data (qs : list Transaction.t) : list CategoryRow :=
  take 3
    (order_by_total_spend
       (group_by_category
          (List.filter (fun x => (Transaction.amount x <? 0)%Z) qs))).

Record TopCategory := mkTopCategory {
  category : string;
  category_total_spend : Z;
  transaction_count : Z;
  percentage_of_spend : Z
}.

(** [cat['category'] or 'Uncategorized'] *)
Definition category_label (c : option string) : string :=
  if Py.truthy c then default "" c else "Uncategorized".

(** One entry of [top_categories], with the percentage the serializer
    adds from its context. *)
Definition top_category (context_total_spend : Z) (cat : CategoryRow) : TopCategory :=
  let total_spend := Z.abs (row_total_spend cat) in
  mkTopCategory (category_label (row_category cat))
                total_spend
                (row_transaction_count cat)
                (TopCategorySerializer.get_percentage_of_spend
                   context_total_spend total_spend).

Definition top_categories (qs : list Transaction.t) : list TopCategory :=
  map (top_category (signed_total_spend qs)) (top_categories_data qs).

Record Summary := mkSummary {
  summary_metrics : Metrics;
  summary_top_categories : list TopCategory
}.

(** The metrics and top categories of the response built by [get] for a
    request that passed validation and missed the cache.  The view then
    passes them through the response serializer, whose decimal fields
    hold twelve digits; within that range the percentage computed here,
    an exact quotient rounded once, is the one [Decimal] arithmetic
    gives. *)
Definition get (table : list Transaction.t) (account_id : string)
    (start_date end_date : Utils.date) : Summary :=
  let qs := transactions_qs table account_id start_date end_date in
  mkSummary (metrics qs) (top_categories qs).

End AccountSummaryAPIView.

(** ** Reference definitions, written from the specification *)

(** Bidirectional containment: the pattern occurs in the text or the text
    occurs in the pattern. *)
Definition pattern_matches (text pattern : string) : bool :=
  Py.contains pattern text || Py.contains text pattern.

(** The name of the first category of the snapshot owning a matching
    pattern, ["other"] when there is none. *)
Definition first_matching_category (text : string) (snapshot : Snapshot) : string :=
  match List.find (fun entry => existsb (pattern_matches text) entry.2) snapshot with
  | Some entry => entry.1
  | None => "other"
  end.


(** The snapshot entry of one category: lowercased name, patterns
    lowercased, trimmed, at least three characters long, longest first. *)
Definition snapshot_entry (c : Category.t) : string * list string :=
  (Py.lower (Category.name c),
   Py.sort_by_len_desc
     (map (fun p => Py.strip (Py.lower p))
          (List.filter (fun p => (3 <=? Py.len (Py.strip p))%nat)
                       (Category.patterns c)))).

Definition is_blank (s : string) : bool := String.eqb (Py.strip s) "".

(** The snapshot a categorization sees: the cached one, or the one built
    from the database when the cache is empty. *)
Definition effective_snapshot (w : World) : Snapshot :=
  match cache w with
  | Some patterns => patterns
  | None => DatabaseCategorizer.build_patterns (categories (db w))
  end.

(** Categorization against a given snapshot. *)
Definition categorize_with (patterns : Snapshot) (transaction_text : string) : string :=
  let text := Py.strip (Py.lower transaction_text) in
  if (Py.len text <? 3)%nat then "other"
  else first_matching_category text patterns.

(** Enrichment against a given snapshot: the merchant name when there is
    one, else the description; ["other"] for a blank text. *)
Definition enrich_with (patterns : Snapshot) (merchant_name description : option string)
  : string :=
  let text :=
    if Py.truthy merchant_name then default "" merchant_name
    else if Py.truthy description then default "" description
    else "" in
  if is_blank text then "other" else categorize_with patterns text.

(** Step 4 of single-batch processing on one transaction. *)
Definition enriched (patterns : Snapshot) (x : Transaction.t) : Transaction.t :=
  Transaction.set_enrichment
    (Some (enrich_with patterns (Transaction.merchant_name x)
                       (Some (Transaction.description x))))
    COMPLETED x.

(** Step 3: the transactions of the batch still pending. *)
Definition selected (batch_id : nat) (x : Transaction.t) : bool :=
  bool_decide (Transaction.batch x = Some batch_id)
  && bool_decide (Transaction.ingestion_status x = PENDING).

Definition status_of (w : World) (batch_id : nat) : option Status :=
  Batch.status <$> batches (db w) !! batch_id.

(** [w'] differs from [w] at most by a cache filled with the snapshot in
    effect. *)
Definition quiet (w w' : World) : Prop :=
  db w' = db w /\ queue w' = queue w
  /\ effective_snapshot w' = effective_snapshot w.

(** How many of the batches [keys] have status [s] in [w]. *)
Definition count_status (s : Status) (w : World) (keys : list nat) : Z :=
  Z.of_nat (length (List.filter (fun k => bool_decide (status_of w k = Some s)) keys)).

Definition oldest_first (l : list (nat * Batch.t)) : Prop :=
  StronglySorted (fun a b => (Batch.created_at a.2 <= Batch.created_at b.2)%Z) l.

(** A required field that is missing, null or malformed. *)
Definition unusable {A : Type} (v : Raw A) : Prop :=
  match v with
  | Value _ => False
  | _ => True
  end.

Definition account_lacks_required (a : RawAccount.t) : Prop :=
  unusable (RawAccount.account_id a) \/ unusable (RawAccount.name a)
  \/ unusable (RawAccount.type a).

Definition transaction_lacks_required (x : RawTransaction.t) : Prop :=
  unusable (RawTransaction.transaction_id x)
  \/ unusable (RawTransaction.account_id x)
  \/ unusable (RawTransaction.amount x)
  \/ unusable (RawTransaction.iso_currency_code x)
  \/ unusable (RawTransaction.date x)
  \/ unusable (RawTransaction.name x).

(** A payload with a malformed or missing required field, at the top
    level or in one of its accounts or transactions. *)
Definition lacks_required (data : RawRequest.t) : Prop :=
  unusable (RawRequest.accounts data)
  \/ unusable (RawRequest.transactions data)
  \/ unusable (RawRequest.total_transactions data)
  \/ (exists l a, RawRequest.accounts data = Value l /\ In a l
                   /\ account_lacks_required a)
  \/ (exists l x, RawRequest.transactions data = Value l /\ In x l
                   /\ transaction_lacks_required x).

(** A payload with a malformed optional field. *)
Definition malformed_optional (data : RawRequest.t) : Prop :=
  RawRequest.request_id data = Malformed
  \/ (exists l a, RawRequest.accounts data = Value l /\ In a l
                   /\ (RawAccount.subtype a = Malformed
                       \/ RawAccount.mask a = Malformed))
  \/ (exists l x, RawRequest.transactions data = Value l /\ In x l
                   /\ (RawTransaction.authorized_date x = Malformed
                       \/ RawTransaction.merchant_name x = Malformed
                       \/ RawTransaction.payment_channel x = Malformed
                       \/ RawTransaction.pending x = Malformed)).

(** The step of the atomic write at which the environment makes
    [create] fail, if any. *)
Definition write_step_fails (env : Env) (validated_data : ValidatedData.t) : Prop :=
  (env AccountBulkCreate = true /\ ValidatedData.accounts validated_data <> [])
  \/ env BatchCreate = true
  \/ (env TransactionBulkCreate = true
      /\ ValidatedData.transactions validated_data <> []).

(** The number of rows carrying a [transaction_id]. *)
Definition rows_with_id (transaction_id : string) (table : list Transaction.t) : nat :=
  length (List.filter
            (fun row => String.eqb (Transaction.transaction_id row) transaction_id)
            table).

Definition sum_Z (l : list Z) : Z := foldr Z.add 0%Z l.

(** The sum of the amounts strictly below zero, with its sign. *)
Definition spend_sum (qs : list Transaction.t) : Z :=
  sum_Z (List.filter (fun a => (a <? 0)%Z) (map Transaction.amount qs)).

(** The sum of the amounts at or above zero. *)
Definition income_sum (qs : list Transaction.t) : Z :=
  sum_Z (List.filter (fun a => (0 <=? a)%Z) (map Transaction.amount qs)).

(** The expenses of one category (null counts as a category of its own). *)
Definition category_expenses (key : option string) (qs : list Transaction.t)
  : list Transaction.t :=
  List.filter (fun x => (Transaction.amount x <? 0)%Z
                        && bool_decide (Transaction.category x = key)) qs.


(** ** Sample data *)

(** The categories of the repository's ingestion test, an empty cache. *)
Definition uber_world : World :=
  mkWorld
    (mkDatabase [] [] []
       [Category.mk "food" ["restaurant"; "starbucks"];
        Category.mk "transport" ["uber"; "lyft"]])
    None [].

(** A batch of one pending transaction, waiting to be processed. *)
Definition uber_transaction : Transaction.t :=
  Transaction.mk "txn_002" "acc_123" (Some 0%nat) (-1575) "USD" 0 None
                 (Some "Uber") "Uber Trip" (Some "online") false None PENDING.

Definition pending_world : World :=
  mkWorld
    (mkDatabase []
       [Batch.mk (Some "req_test_001") 1 PENDING 0]
       [uber_transaction]
       [Category.mk "food" ["restaurant"; "starbucks"];
        Category.mk "transport" ["uber"; "lyft"]])
    None [].

(** The cache backend is unreachable; everything else works. *)
Definition cache_down : Env :=
  fun op => match op with CacheGet => true | _ => false end.

(** The same batch once completed, and once left failed by a sweep. *)
Definition completed_world : World :=
  mkWorld
    (mkDatabase []
       [Batch.mk (Some "req_test_001") 1 COMPLETED 0]
       [Transaction.set_enrichment (Some "transport") COMPLETED uber_transaction]
       (categories (db pending_world)))
    None [].

Definition failed_world : World :=
  mkWorld
    (mkDatabase []
       [Batch.mk (Some "req_test_001") 1 FAILED 0]
       [uber_transaction]
       (categories (db pending_world)))
    None [].

(** Three batches for a sweep: an empty pending one, a completed one, and
    a pending one created earlier that holds a transaction. *)
Definition sweep_world : World :=
  mkWorld
    (mkDatabase []
       [Batch.mk (Some "req_b") 0 PENDING 20;
        Batch.mk (Some "req_c") 1 COMPLETED 5;
        Batch.mk (Some "req_a") 1 PENDING 10]
       [Transaction.mk "txn_002" "acc_123" (Some 2%nat) (-1575) "USD" 0 None
          (Some "Uber") "Uber Trip" (Some "online") false None PENDING]
       (categories (db pending_world)))
    None [].

(** The payload of the repository's ingestion test, already parsed field
    by field, then the same payload without the account type, and a
    database that refuses to create the batch row. *)
Definition sample_account : RawAccount.t :=
  RawAccount.mk (Value "acc_123") (Value "Chase Checking") (Value "depository")
                (Value "checking") (Value "1234").

Definition sample_transaction (transaction_id merchant : string) : RawTransaction.t :=
  RawTransaction.mk (Value transaction_id) (Value "acc_123") (Value (-1575)%Z)
                    (Value "USD") (Value 0%Z) Absent (Value "Uber Trip")
                    (Value merchant) (Value "online") (Value false).

Definition sample_request : RawRequest.t :=
  RawRequest.mk (Value [sample_account])
                (Value [sample_transaction "txn_001" "Starbucks";
                        sample_transaction "txn_002" "Lyft"])
                (Value 2%Z) (Value "req_test_001").

Definition invalid_request : RawRequest.t :=
  RawRequest.mk
    (Value [RawAccount.mk (Value "acc_123") (Value "Chase Checking") Absent
                          Absent Absent])
    (Value [sample_transaction "txn_001" "Starbucks"])
    (Value 1%Z) Absent.

Definition batch_create_down : Env :=
  fun op => match op with BatchCreate => true | _ => false end.

(** The timestamp of an hour of a day. *)
Definition on_day (y m d hour : Z) : Z :=
  (Utils.toordinal (Utils.mkdate y m d) * AccountSummaryAPIView.MICROSECONDS_PER_DAY
   + hour * 3600000000)%Z.

Definition summary_row (transaction_id : string) (amount : Z) (date : Z)
    (category : string) (status : Status) : Transaction.t :=
  Transaction.mk transaction_id "acc_summary_test" (Some 0%nat) amount "USD" date
                 None (Some "Store") "purchase" None false (Some category) status.

(** The transactions of the repository's summary test: nine in January
    2024 and one in February. *)
Definition summary_table : list Transaction.t :=
  [summary_row "txn_summary_001" (-2500) (on_day 2024 1 5 10) "food" COMPLETED;
   summary_row "txn_summary_002" (-1500) (on_day 2024 1 10 12) "food" COMPLETED;
   summary_row "txn_summary_003" (-2000) (on_day 2024 1 15 14) "food" COMPLETED;
   summary_row "txn_summary_004" (-3000) (on_day 2024 1 8 9) "transport" COMPLETED;
   summary_row "txn_summary_005" (-1500) (on_day 2024 1 20 18) "transport" COMPLETED;
   summary_row "txn_summary_006" (-10000) (on_day 2024 1 12 16) "shopping" COMPLETED;
   summary_row "txn_summary_007" 250000 (on_day 2024 1 1 8) "income" COMPLETED;
   summary_row "txn_summary_008" (-5000) (on_day 2024 1 25 11) "shopping" PENDING;
   summary_row "txn_summary_009" (-2500) (on_day 2024 1 28 15) "other" FAILED;
   summary_row "txn_summary_010" (-99999) (on_day 2024 2 15 10) "other" COMPLETED].

(** ** Further sample data *)

(** The pattern cache works but the bulk update is refused. *)
Definition bulk_update_down : Env :=
  fun op => match op with TransactionBulkUpdate => true | _ => false end.

(** The broker is unreachable; everything else works. *)
Definition broker_down : Env :=
  fun op => match op with TaskDelay => true | _ => false end.

(** The validated form of the test payload, and a world that already
    holds the account under an older name. *)
Definition sample_validated : ValidatedData.t :=
  ValidatedData.mk
    [AccountData.mk "acc_123" "Chase Checking" "depository"
                    (Some "checking") (Some "1234")]
    [TransactionData.mk "txn_001" "acc_123" (-2550) "USD" 0 None
                        "Starbucks Coffee" (Some "Starbucks") (Some "in store") false;
     TransactionData.mk "txn_002" "acc_123" (-1575) "USD" 0 None
                        "Uber Trip" (Some "Uber") (Some "online") false]
    2 (Some "req_test_001").

Definition renamed_account_world : World :=
  mkWorld
    (mkDatabase [Account.mk "acc_123" "Old Name" "depository" None None]
                [] [] (categories (db pending_world)))
    None [].

(** ** Further reference definitions *)

(** [Account.objects.filter(account_id=...).first()] *)
Definition Account_get (account_id : string) (table : list Account.t)
  : option Account.t :=
  List.find (fun row => String.eqb (Account.account_id row) account_id) table.

(** [Transaction.objects.filter(transaction_id=...).first()] *)
Definition Transaction_get (transaction_id : string) (table : list Transaction.t)
  : option Transaction.t :=
  List.find (fun row => String.eqb (Transaction.transaction_id row) transaction_id)
            table.

(** The database after the three writes of [create] for the validated
    data, the batch row being stamped with [now]. *)
Definition ingested (validated_data : ValidatedData.t) (now : Z) (d : Database)
  : Database :=
  mkDatabase
    (fold_left (fun table a => BatchIngestionRequestSerializer.upsert_account a table)
               (map BatchIngestionRequestSerializer.account_object
                    (ValidatedData.accounts validated_data))
               (accounts d))
    (batches d ++ [Batch.mk (ValidatedData.request_id validated_data)
                            (ValidatedData.total_transactions validated_data)
                            PENDING now])
    (fold_left BatchIngestionRequestSerializer.insert_or_ignore
               (map (BatchIngestionRequestSerializer.transaction_object
                       (length (batches d)))
                    (ValidatedData.transactions validated_data))
               (transactions d))
    (categories d).

(** A string as a [CharField] hands it on: trimmed, and within its
    maximal length. *)
Definition trimmed_within (max_length : nat) (s : string) : Prop :=
  Py.strip s = s /\ (Py.len s <= max_length)%nat.

(** ** The processing status of the summary (views.py) *)

(** [transactions_qs.values('ingestion_status').annotate(count=Count('id'))]:
    one row per status present, with the number of its transactions. *)
Definition status_breakdown_data (qs : list Transaction.t) : list (Status * Z) :=
  map (fun code =>
         (code,
          Z.of_nat (length (List.filter
                              (fun x => bool_decide (Transaction.ingestion_status x = code))
                              qs))))
      (remove_dups (map Transaction.ingestion_status qs)).

Definition status_map (code : Status) : string :=
  match code with
  | PENDING => "pending"
  | PROCESSING => "processing"
  | COMPLETED => "completed"
  | FAILED => "failed"
  end.

(** The dict [processing_status], with its four keys. *)
Module StatusBreakdown.
Record t := mk {
  pending : Z;
  processing : Z;
  completed : Z;
  failed : Z
}.

(** [if status_name in processing_status:
        processing_status[status_name] = count] *)
Definition set (status_name : string) (count : Z) (d : t) : t :=
  if String.eqb status_name "pending"
  then mk count (processing d) (completed d) (failed d)
  else if String.eqb status_name "processing"
  then mk (pending d) count (completed d) (failed d)
  else if String.eqb status_name "completed"
  then mk (pending d) (processing d) count (failed d)
  else if String.eqb status_name "failed"
  then mk (pending d) (processing d) (completed d) count
  else d.

(** The value under the name of a status code. *)
Definition get (code : Status) (d : t) : Z :=
  match code with
  | PENDING => pending d
  | PROCESSING => processing d
  | COMPLETED => completed d
  | FAILED => failed d
  end.
End StatusBreakdown.

Definition processing_status (qs : list Transaction.t) : StatusBreakdown.t :=
  fold_left (fun d item => StatusBreakdown.set (status_map item.1) item.2 d)
            (status_breakdown_data qs)
            (StatusBreakdown.mk 0 0 0 0).

(** The number of rows of a query set in one status. *)
Definition with_status (code : Status) (qs : list Transaction.t) : Z :=
  Z.of_nat (length (List.filter
                      (fun x => bool_decide (Transaction.ingestion_status x = code)) qs)).

(** ** The summary endpoint as a whole (views.py, utils.py) *)

(** [validate_account]: [false] stands for [Http404]. *)
Definition validate_account (table : list Transaction.t) (account_id : string) : bool :=
  existsb (fun x => String.eqb (Transaction.account_id x) account_id) table.

(** [CharField()] of a response serializer: the value is trimmed; a
    blank value or one holding a null character is an error. *)
Definition ResponseCharField (s : string) : option string :=
  let value := Py.strip s in
  if String.eqb value "" then None
  else if existsb (Ascii.eqb Ascii.zero) (list_ascii_of_string value) then None
  else Some value.

(** [MetricsSerializer]: three [DecimalField(max_digits=12, decimal_places=2)]. *)
Definition MetricsSerializer (m : AccountSummaryAPIView.Metrics)
  : option AccountSummaryAPIView.Metrics :=
  total_spend ← DecimalField 12 (Value (AccountSummaryAPIView.total_spend m));
  total_income ← DecimalField 12 (Value (AccountSummaryAPIView.total_income m));
  net ← DecimalField 12 (Value (AccountSummaryAPIView.net m));
  Some (AccountSummaryAPIView.mkMetrics
          (AccountSummaryAPIView.total_transactions m) total_spend total_income net).

(** [TopCategorySerializer] on one entry of [top_categories]: the fields
    are validated, then the percentage is computed from the validated
    amount and the serializer context. *)
Definition TopCategorySerializer_data (context_total_spend : Z)
    (cat : AccountSummaryAPIView.TopCategory)
  : option AccountSummaryAPIView.TopCategory :=
  category ← ResponseCharField (AccountSummaryAPIView.category cat);
  total_spend ← DecimalField 12 (Value (AccountSummaryAPIView.category_total_spend cat));
  Some (AccountSummaryAPIView.mkTopCategory
          category total_spend
          (AccountSummaryAPIView.transaction_count cat)
          (TopCategorySerializer.get_percentage_of_spend
             context_total_spend total_spend)).

Module ResponseData.
Record t := mk {
  account_id : string;
  date_range : Utils.date * Utils.date;
  metrics : AccountSummaryAPIView.Metrics;
  top_categories : list AccountSummaryAPIView.TopCategory;
  processing_status : StatusBreakdown.t
}.
End ResponseData.

(** [AccountSummarySerializer(data=response_data, context=...)]:
    [is_valid] followed by [.data]; [None] is a validation error. *)
Definition AccountSummarySerializer (context_total_spend : Z)
    (response_data : ResponseData.t) : option ResponseData.t :=
  account_id ← ResponseCharField (ResponseData.account_id response_data);
  metrics ← MetricsSerializer (ResponseData.metrics response_data);
  top_categories ← mapM (TopCategorySerializer_data context_total_spend)
                        (ResponseData.top_categories response_data);
  Some (ResponseData.mk account_id (ResponseData.date_range response_data)
          metrics top_categories (ResponseData.processing_status response_data)).

(** [request.query_params.get('start_date')] and [...get('end_date')] *)
Record QueryParams := mkQueryParams {
  start_date : option string;
  end_date : option string
}.

Inductive ErrorDetail :=
| MissingStartDate
| MissingEndDate
| DateRangeError (e : Utils.ValidationError)
| SerializerErrors.

Module SummaryResponse.
Inductive t :=
| HTTP_200_OK (data : ResponseData.t)
| HTTP_400_BAD_REQUEST (detail : ErrorDetail)
| HTTP_404_NOT_FOUND
| HTTP_500_INTERNAL_SERVER_ERROR.
End SummaryResponse.

(** What the handler asks of the cache and the database; an operation
    that fails raises, and the handler answers 500. *)
Inductive SummaryOp := SummaryCacheGet | TransactionQuery | SummaryCacheSet.

Definition SummaryEnv := SummaryOp -> bool.

Definition summary_healthy : SummaryEnv := fun _ => false.

(** The entries of the cache that have not expired. *)
Definition SummaryCache := gmap string ResponseData.t.

Definition cache_key (account_id start_date_str end_date_str : string) : string :=
  "account_summary:" ++ account_id ++ ":" ++ start_date_str ++ ":" ++ end_date_str.

(** The response data built by the handler before serialization. *)
Definition response_data (table : list Transaction.t) (account_id : string)
    (start_date end_date : Utils.date) : ResponseData.t :=
  let qs := AccountSummaryAPIView.transactions_qs table account_id start_date end_date in
  ResponseData.mk account_id (start_date, end_date)
    (AccountSummaryAPIView.metrics qs)
    (AccountSummaryAPIView.top_categories qs)
    (processing_status qs).

(** [AccountSummaryAPIView.get] from the request to the response,
    together with the cache it leaves. *)
Definition AccountSummaryAPIView_get (env : SummaryEnv) (table : list Transaction.t)
    (query_params : QueryParams) (account_id : string) (cache : SummaryCache)
  : SummaryResponse.t * SummaryCache :=
  if negb (Py.truthy (start_date query_params))
  then (SummaryResponse.HTTP_400_BAD_REQUEST MissingStartDate, cache)
  else if negb (Py.truthy (end_date query_params))
  then (SummaryResponse.HTTP_400_BAD_REQUEST MissingEndDate, cache)
  else
    let start_date_str := default "" (start_date query_params) in
    let end_date_str := default "" (end_date query_params) in
    match Utils.validate_date_range start_date_str end_date_str with
    | Utils.Invalid e => (SummaryResponse.HTTP_400_BAD_REQUEST (DateRangeError e), cache)
    | Utils.Valid (start_date, end_date) =>
        let cache_key := cache_key account_id start_date_str end_date_str in
        if env SummaryCacheGet then (SummaryResponse.HTTP_500_INTERNAL_SERVER_ERROR, cache)
        else
          match cache !! cache_key with
          | Some cached_result => (SummaryResponse.HTTP_200_OK cached_result, cache)
          | None =>
              if env TransactionQuery then (SummaryResponse.HTTP_500_INTERNAL_SERVER_ERROR, cache)
              else if negb (validate_account table account_id)
              then (SummaryResponse.HTTP_404_NOT_FOUND, cache)
              else
                let qs := AccountSummaryAPIView.transactions_qs
                            table account_id start_date end_date in
                match AccountSummarySerializer
                        (AccountSummaryAPIView.signed_total_spend qs)
                        (response_data table account_id start_date end_date) with
                | None => (SummaryResponse.HTTP_400_BAD_REQUEST SerializerErrors, cache)
                | Some data =>
                    if env SummaryCacheSet then (SummaryResponse.HTTP_500_INTERNAL_SERVER_ERROR, cache)
                    else (SummaryResponse.HTTP_200_OK data, <[cache_key := data]> cache)
                end
          end
    end.

(** ** admin.py and forms.py: the summary form *)

(** The decimal digit [v] as a character. *)
Definition digit_char (v : Z) : ascii := ascii_of_nat (48 + Z.to_nat v).

Definition two_digits (v : Z) : string :=
  String (digit_char (v / 10)) (String (digit_char (v mod 10)) EmptyString).

(** [d.strftime('%Y-%m-%d')] for a year from 1000 on, which every
    platform prints with its four digits. *)
Definition strftime (d : Utils.date) : string :=
  let y := Utils.year d in
  String (digit_char (y / 1000))
    (String (digit_char (y / 100 mod 10))
       (String (digit_char (y / 10 mod 10))
          (String (digit_char (y mod 10))
             (String "-"
                (two_digits (Utils.month d)
                 ++ String "-" (two_digits (Utils.day d))))))).

(** [ORDER BY] on a text column, in the order [le] of the database's
    collation. *)
Fixpoint insert_text (le : string -> string -> bool) (x : string) (l : list string)
  : list string :=
  match l with
  | [] => [x]
  | y :: l' => if le x y then x :: l else y :: insert_text le x l'
  end.

Definition order_by_text (le : string -> string -> bool) (l : list string)
  : list string :=
  foldr (insert_text le) [] l.

Module AccountSummaryForm.

(** [Transaction.objects.values_list('account_id', flat=True)
      .distinct().order_by('account_id')], each id as value and label. *)
Definition get_account_choices (le : string -> string -> bool)
    (table : list Transaction.t) : list (string * string) :=
  map (fun acc_id => (acc_id, acc_id))
      (order_by_text le (remove_dups (map Transaction.account_id table))).

Inductive FormError :=
| EndBeforeStart
| RangeExceeded (date_diff : Z).

(** [clean]: the cleaned dates are [None] when the field is missing or
    did not parse. *)
Definition clean (start_date end_date : option Utils.date)
  : FormError + (option Utils.date * option Utils.date) :=
  match start_date, end_date with
  | Some s, Some e =>
      if Utils.date_lt e s then inl EndBeforeStart
      else
        let date_diff := Utils.days_between s e in
        if (365 <? date_diff)%Z then inl (RangeExceeded date_diff)
        else inr (start_date, end_date)
  | _, _ => inr (start_date, end_date)
  end.

(** [is_valid]: the account is one of the choices (and not empty), both
    dates were parsed, and [clean] accepts them. *)
Definition is_valid (le : string -> string -> bool) (table : list Transaction.t)
    (account_id : string) (start_date end_date : option Utils.date) : bool :=
  negb (String.eqb account_id "")
  && existsb (fun choice => String.eqb choice.1 account_id)
             (get_account_choices le table)
  && match start_date, end_date with
     | Some _, Some _ =>
         match clean start_date end_date with
         | inr _ => true
         | inl _ => false
         end
     | _, _ => false
     end.

End AccountSummaryForm.

(** [account_summary_view] on a POST whose form is valid: the call of the
    API handler with the formatted dates. *)
Definition account_summary_view (env : SummaryEnv) (table : list Transaction.t)
    (account_id : string) (start_date end_date : Utils.date) (cache : SummaryCache)
  : SummaryResponse.t * SummaryCache :=
  AccountSummaryAPIView_get env table
    (mkQueryParams (Some (strftime start_date)) (Some (strftime end_date)))
    account_id cache.

(** The summary window of the repository's test, and the cache down. *)
Definition january : QueryParams :=
  mkQueryParams (Some "2024-01-01") (Some "2024-01-31").

Definition summary_cache_down : SummaryEnv :=
  fun op => match op with SummaryCacheGet => true | _ => false end.

Definition database_down : SummaryEnv :=
  fun op => match op with TransactionQuery => true | _ => false end.

(** A string without the separator of the cache key. *)
Fixpoint no_colon (s : string) : bool :=
  match s with
  | EmptyString => true
  | String c r => negb (Ascii.eqb c ":") && no_colon r
  end.

(** The three parts a cache key is built from. *)
Definition same_request (account_id start_date_str end_date_str
                         account_id' start_date_str' end_date_str' : string) : Prop :=
  account_id = account_id' /\ start_date_str = start_date_str'
  /\ end_date_str = end_date_str'.

(** One expense of ten thousand million, within the nineteen digits of
    the [amount] column. *)
Definition huge_table : list Transaction.t :=
  [summary_row "txn_huge" (-1000000000000) (on_day 2024 1 5 10) "shopping" COMPLETED].

(** ** Reference definitions for the amended claims *)



(** The format the endpoint documents, [YYYY-MM-DD]: four digits, a
    dash, two digits, a dash, two digits. *)
Definition is_digit (c : ascii) : bool :=
  let n := nat_of_ascii c in (48 <=? n)%nat && (n <=? 57)%nat.

Definition is_yyyy_mm_dd (s : string) : bool :=
  match list_ascii_of_string s with
  | [y1; y2; y3; y4; dash1; m1; m2; dash2; d1; d2] =>
      is_digit y1 && is_digit y2 && is_digit y3 && is_digit y4
      && Ascii.eqb dash1 "-" && is_digit m1 && is_digit m2
      && Ascii.eqb dash2 "-" && is_digit d1 && is_digit d2
  | _ => false
  end.

(** The ways of writing a date: the year with its four digits, then the
    month and the day in one of their forms, with dashes in between. *)
Definition one_digit (v : Z) : string := String (digit_char v) EmptyString.

Definition date_form (y : Z) (month_form day_form : string) : string :=
  String (digit_char (y / 1000))
    (String (digit_char (y / 100 mod 10))
       (String (digit_char (y / 10 mod 10))
          (String (digit_char (y mod 10))
             (String "-" (month_form ++ String "-" day_form))))).

(** A month with two digits, or with one when it has one. *)
Definition month_forms (m : Z) : list string :=
  if (m <? 10)%Z then [two_digits m; one_digit m] else [two_digits m].

(** A day with two digits, or, when it has one digit, with that digit
    alone or after a space. *)
Definition day_forms (d : Z) : list string :=
  if (d <? 10)%Z then [two_digits d; one_digit d; String " " (one_digit d)]
  else [two_digits d].

Definition accepted_forms (d : Utils.date) : list string :=
  flat_map (fun month_form =>
              map (date_form (Utils.year d) month_form) (day_forms (Utils.day d)))
           (month_forms (Utils.month d)).

(** No account id occurs twice among the accounts that go to the
    database in one statement. *)
Definition no_repeated_account (validated_data : ValidatedData.t) : Prop :=
  Forall (fun batch => NoDup (map Account.account_id batch))
         (BatchIngestionRequestSerializer.slices 500
            (map BatchIngestionRequestSerializer.account_object
                 (ValidatedData.accounts validated_data))).

(** The declared total fits the 32-bit column of the batch table. *)
Definition total_fits_column (validated_data : ValidatedData.t) : Prop :=
  (-2147483648 <= ValidatedData.total_transactions validated_data <= 2147483647)%Z.

(** The test payload with its account sent twice. *)
Definition repeated_account_request : RawRequest.t :=
  RawRequest.mk (Value [sample_account; sample_account])
                (Value [sample_transaction "txn_001" "Starbucks"])
                (Value 1%Z) (Value "req_test_002").

(** * Properties *)

(** ** Python strings *)






(** ** Sorting *)

Lemma insert_by_perm {A} (key : A -> Z) x l :
  Permutation (insert_by key x l) (x :: l).
Proof.
  induction l as [|y l IH]; simpl; [reflexivity|].
  destruct (key y <? key x)%Z; [|reflexivity].
  rewrite IH. apply perm_swap.
Qed.

Lemma stable_sort_by_perm {A} (key : A -> Z) l :
  Permutation (stable_sort_by key l) l.
Proof.
  induction l as [|x l IH]; simpl; [reflexivity|].
  rewrite insert_by_perm. now constructor.
Qed.

Lemma insert_by_sorted {A} (key : A -> Z) x l :
  StronglySorted (fun a b => (key a <= key b)%Z) l ->
  StronglySorted (fun a b => (key a <= key b)%Z) (insert_by key x l).
Proof.
  induction 1 as [|y l Hs IH Hy]; simpl.
  - repeat constructor.
  - destruct (Z.ltb_spec (key y) (key x)) as [Hlt|Hge].
    + constructor; [exact IH|].
      rewrite Forall_forall in *. intros z Hz.
      apply list_elem_of_In in Hz.
      apply (Permutation_in _ (insert_by_perm key x l)) in Hz.
      destruct Hz as [<-|Hz]; [lia | apply Hy; now apply list_elem_of_In].
    + constructor; [now constructor|].
      constructor; [exact Hge|].
      rewrite Forall_forall in *. intros z Hz. specialize (Hy z Hz). lia.
Qed.

Lemma stable_sort_by_sorted {A} (key : A -> Z) l :
  StronglySorted (fun a b => (key a <= key b)%Z) (stable_sort_by key l).
Proof.
  induction l as [|x l IH]; simpl; [constructor | now apply insert_by_sorted].
Qed.


Lemma sort_by_len_desc_perm l : Permutation (Py.sort_by_len_desc l) l.
Proof. apply stable_sort_by_perm. Qed.


(** ** Categorization *)

Lemma match_patterns_existsb text category_patterns :
  DatabaseCategorizer.match_patterns text category_patterns
  = existsb (pattern_matches text) category_patterns.
Proof.
  induction category_patterns as [|p rest IH]; simpl; [reflexivity|].
  unfold pattern_matches at 1.
  destruct (Py.contains p text || Py.contains text p); [reflexivity | exact IH].
Qed.

Lemma match_categories_first text patterns :
  DatabaseCategorizer.match_categories text patterns
  = first_matching_category text patterns.
Proof.
  unfold first_matching_category.
  induction patterns as [|[category_name category_patterns] rest IH]; simpl;
    [reflexivity|].
  rewrite match_patterns_existsb.
  destruct (existsb (pattern_matches text) category_patterns);
    [reflexivity | exact IH].
Qed.

Lemma add_category_entry patterns c :
  DatabaseCategorizer.add_category patterns c
  = Py.dict_set (snapshot_entry c).1 (snapshot_entry c).2 patterns.
Proof. reflexivity. Qed.

Lemma dict_set_fresh {V} k (v : V) d :
  k ∉ map fst d -> Py.dict_set k v d = (d ++ [(k, v)])%list.
Proof.
  induction d as [|[k' v'] d IH]; simpl; intros Hk; [reflexivity|].
  destruct (String.eqb_spec k' k) as [->|Hne].
  - exfalso. apply Hk. left.
  - rewrite IH; [reflexivity|]. intros Hin. apply Hk. now right.
Qed.


Lemma fold_add_category_distinct cats acc :
  NoDup (map fst acc ++ map (fun c => Py.lower (Category.name c)) cats) ->
  fold_left DatabaseCategorizer.add_category cats acc
  = (acc ++ map snapshot_entry cats)%list.
Proof.
  revert acc. induction cats as [|c cats IH]; intros acc Hnd; simpl.
  - now rewrite app_nil_r.
  - rewrite add_category_entry, dict_set_fresh.
    + rewrite IH.
      * now rewrite <- app_assoc.
      * rewrite map_app. simpl. rewrite <- app_assoc. exact Hnd.
    + apply NoDup_app in Hnd as (_ & Hdisj & _).
      intros Hin. apply (Hdisj _ Hin). left.
Qed.

Lemma build_patterns_distinct cats :
  NoDup (map (fun c => Py.lower (Category.name c)) cats) ->
  DatabaseCategorizer.build_patterns cats = map snapshot_entry cats.
Proof.
  intros Hnd. unfold DatabaseCategorizer.build_patterns.
  now rewrite fold_add_category_distinct.
Qed.



Lemma load_patterns_hit env w patterns :
  env CacheGet = false -> cache w = Some patterns ->
  DatabaseCategorizer._load_patterns env w = (Return patterns, w).
Proof.
  intros Hg Hc. unfold DatabaseCategorizer._load_patterns, bind, fault, get_world.
  rewrite Hg, Hc. reflexivity.
Qed.

Lemma load_patterns_miss env w :
  env CacheGet = false -> env CategoryQuery = false -> env CacheSet = false ->
  cache w = None ->
  DatabaseCategorizer._load_patterns env w
  = (Return (DatabaseCategorizer.build_patterns (categories (db w))),
     with_cache (Some (DatabaseCategorizer.build_patterns (categories (db w)))) w).
Proof.
  intros Hg Hq Hs Hc.
  unfold DatabaseCategorizer._load_patterns, bind, fault, get_world, put_world, ret.
  rewrite Hg, Hc, Hq, Hs. reflexivity.
Qed.

(** What [_load_patterns] does to the world: nothing to the database and
    the queue. *)
Lemma load_patterns_frame env w r w' :
  DatabaseCategorizer._load_patterns env w = (r, w') ->
  db w' = db w /\ queue w' = queue w.
Proof.
  unfold DatabaseCategorizer._load_patterns, bind, fault, get_world, put_world, ret.
  destruct (env CacheGet); [intros [= <- <-]; auto|].
  destruct (cache w); [intros [= <- <-]; auto|].
  destruct (env CategoryQuery); [intros [= <- <-]; auto|].
  destruct (env CacheSet); intros [= <- <-]; auto.
Qed.

Lemma categorize_frame text env w r w' :
  DatabaseCategorizer.categorize text env w = (r, w') ->
  db w' = db w /\ queue w' = queue w.
Proof.
  unfold DatabaseCategorizer.categorize.
  destruct (String.eqb text ""); [intros [= <- <-]; auto|].
  destruct (Py.len _ <? _)%nat; [intros [= <- <-]; auto|].
  unfold bind, ret.
  destruct (DatabaseCategorizer._load_patterns env w) as [[p|e] w1] eqn:Hl;
    intros [= <- <-]; eapply load_patterns_frame; eauto.
Qed.






(** ** Enrichment *)

(** The text [enrich_transaction] settles on: [merchant_name] when it is
    present and not the empty string, else [description] under the same
    condition, else the empty string. *)
Lemma text_to_categorize_choice merchant_name description :
  default "" (Py.or (Py.or merchant_name description) (Some ""))
  = if Py.truthy merchant_name then default "" merchant_name
    else if Py.truthy description then default "" description
    else "".
Proof.
  unfold Py.or.
  destruct (Py.truthy merchant_name) eqn:Hm.
  - now rewrite Hm.
  - now destruct (Py.truthy description).
Qed.

(** C2, as stated, fails: with a whitespace-only merchant name and the
    description "Uber Trip", [enrich_transaction] answers ["other"] and
    leaves the categorizer alone, while categorizing the description
    gives ["transport"]. *)
Lemma enrich_whitespace_merchant_is_other :
  is_blank "   " = true
  /\ is_blank "Uber Trip" = false
  /\ TransactionEnrichmentService.enrich_transaction DatabaseCategorizer_new
       (Some "   ") (Some "Uber Trip") healthy uber_world
     = (Return "other", uber_world)
  /\ (categorize DatabaseCategorizer_new "Uber Trip" healthy uber_world).1
     = Return "transport"
  /\ (TransactionEnrichmentService.enrich_transaction DatabaseCategorizer_new
        (Some "   ") (Some "Uber Trip") healthy uber_world).1
     <> (categorize DatabaseCategorizer_new "Uber Trip" healthy uber_world).1.
Proof. repeat split; try reflexivity. vm_compute. discriminate. Qed.

(** C2, amended: [enrich_transaction] takes [merchant_name] when it is
    present and not the empty string, otherwise [description]; when the
    text taken is blank (a whitespace-only merchant name included,
    whatever the description) or there is none, the answer is ["other"]
    and the categorizer is not invoked; otherwise the answer is that of
    the categorizer on the text taken. *)
Theorem enrich_transaction_choice :
  forall (categorizer : TransactionCategorizer)
         (merchant_name description : option string) (env : Env) (w : World),
    let run :=
      TransactionEnrichmentService.enrich_transaction
        categorizer merchant_name description env w in
    (forall m, merchant_name = Some m -> m <> "" -> is_blank m = false ->
               run = categorize categorizer m env w)
    /\ (forall m, merchant_name = Some m -> m <> "" -> is_blank m = true ->
                  run = (Return "other", w))
    /\ (forall d, Py.truthy merchant_name = false -> description = Some d ->
                  is_blank d = false ->
                  run = categorize categorizer d env w)
    /\ (Py.truthy merchant_name = false ->
        (description = None \/ exists d, description = Some d /\ is_blank d = true) ->
        run = (Return "other", w)).
Proof.
  intros categorizer merchant_name description env w run.
  assert (Hbind : forall x, (category <- categorize categorizer x ;; ret category) env w
                            = categorize categorizer x env w).
  { intros x. unfold bind, ret. now destruct (categorize categorizer x env w) as [[?|?] ?]. }
  unfold run, TransactionEnrichmentService.enrich_transaction.
  rewrite text_to_categorize_choice.
  repeat split.
  - intros m -> Hne Hb. simpl.
    destruct (String.eqb_spec m "") as [->|_]; [congruence|]. simpl.
    unfold is_blank in Hb. rewrite Hb. apply Hbind.
  - intros m -> Hne Hb. simpl.
    destruct (String.eqb_spec m "") as [->|_]; [congruence|]. simpl.
    unfold is_blank in Hb. now rewrite Hb.
  - intros d Hm -> Hb. rewrite Hm.
    assert (Htd : Py.truthy (Some d) = true).
    { simpl. destruct (String.eqb_spec d "") as [->|_]; [discriminate Hb | reflexivity]. }
    rewrite Htd. simpl. unfold is_blank in Hb. rewrite Hb. apply Hbind.
  - intros Hm Hd. rewrite Hm.
    destruct Hd as [->|(d & -> & Hb)]; [reflexivity|].
    destruct (Py.truthy (Some d)); [|reflexivity].
    simpl. unfold is_blank in Hb. now rewrite Hb.
Qed.

Lemma enrich_transaction_choice_witness :
  TransactionEnrichmentService.enrich_transaction DatabaseCategorizer_new
    (Some "") (Some "Uber Trip") healthy uber_world
  = categorize DatabaseCategorizer_new "Uber Trip" healthy uber_world.
Proof.
  destruct (enrich_transaction_choice DatabaseCategorizer_new
              (Some "") (Some "Uber Trip") healthy uber_world)
    as (_ & _ & Hdesc & _).
  apply (Hdesc "Uber Trip"); reflexivity.
Defined.

(** ** The monad *)

Lemma with_db_same w : with_db (db w) w = w.
Proof. now destruct w. Qed.

Lemma atomic_raise_rolls_back {A} (m : M A) env w e w' :
  atomic m env w = (Raise e, w') -> db w' = db w.
Proof.
  unfold atomic. destruct (m env w) as [[a|e0] w1]; [discriminate|].
  now intros [= _ <-].
Qed.

(** ** Single-batch processing *)

Lemma mark_batch_status k s w b :
  batches (db w) !! k = Some b ->
  batches (db (mark_batch k s w)) !! k = Some (Batch.set_status s b).
Proof.
  intros Hb. unfold mark_batch. simpl.
  rewrite list_lookup_alter. destruct (decide (k = k)); [|congruence].
  now rewrite Hb.
Qed.

Lemma mark_batch_other k s w j :
  j <> k -> batches (db (mark_batch k s w)) !! j = batches (db w) !! j.
Proof. intros Hne. unfold mark_batch. simpl. now apply list_lookup_alter_ne. Qed.

Lemma enrich_transaction_frame merchant_name description env w r w' :
  TransactionEnrichmentService.enrich_transaction DatabaseCategorizer_new
    merchant_name description env w = (r, w') ->
  db w' = db w /\ queue w' = queue w.
Proof.
  unfold TransactionEnrichmentService.enrich_transaction.
  destruct (String.eqb _ ""); [intros [= <- <-]; auto|].
  unfold bind, ret. simpl.
  destruct (DatabaseCategorizer.categorize _ env w) as [[c|e] w1] eqn:Hc;
    intros [= <- <-]; eapply categorize_frame; eauto.
Qed.

Lemma enrich_loop_frame txns acc env w r w' :
  for_each txns (enrich_and_collect DatabaseCategorizer_new) acc env w = (r, w') ->
  db w' = db w /\ queue w' = queue w.
Proof.
  revert acc w. induction txns as [|txn txns IH]; intros acc w; simpl.
  - intros [= <- <-]; auto.
  - unfold bind at 1. unfold enrich_and_collect at 1. unfold bind at 1.
    destruct (TransactionEnrichmentService.enrich_transaction _ _ _ env w)
      as [[c|e] w1] eqn:He.
    + apply enrich_transaction_frame in He as [Hd Hq].
      unfold ret at 1. intros H. apply IH in H as [Hd' Hq']. split; congruence.
    + apply enrich_transaction_frame in He as [Hd Hq]. intros [= <- <-]; auto.
Qed.

(** The three outcomes of [process_single_batch]. *)
Lemma process_single_batch_cases k env w :
  match batches (db w) !! k with
  | None => process_single_batch k env w = (Raise DoesNotExist, w)
  | Some b =>
      if bool_decide (Batch.status b = PROCESSING)
         || bool_decide (Batch.status b = COMPLETED)
      then process_single_batch k env w = (Return tt, w)
      else
        match enrich_batch k env (mark_batch k PROCESSING w) with
        | (Return _, w2) => process_single_batch k env w = (Return tt, w2)
        | (Raise e, w2) => process_single_batch k env w = (Raise e, with_db (db w) w2)
        end
  end.
Proof.
  cbv [process_single_batch atomic process_single_batch_body Batch_get bind
       get_world ret raise try_except Batch_save_status put_world].
  destruct (batches (db w) !! k) as [b|] eqn:Hb.
  - destruct (bool_decide (Batch.status b = PROCESSING)
              || bool_decide (Batch.status b = COMPLETED)); [reflexivity|].
    destruct (enrich_batch k env (mark_batch k PROCESSING w)) as [[[]|e] w2];
      reflexivity.
  - now rewrite with_db_same.
Qed.

Lemma process_single_batch_raise_rolls_back k env w e w' :
  process_single_batch k env w = (Raise e, w') -> db w' = db w.
Proof. apply atomic_raise_rolls_back. Qed.

(** The transactions table after [bulk_update]. *)
Lemma write_enrichment_other objs table i :
  i ∉ map fst objs -> fold_left write_enrichment objs table !! i = table !! i.
Proof.
  revert table. induction objs as [|o objs IH]; intros table Hi; simpl; [reflexivity|].
  rewrite IH.
  - unfold write_enrichment. apply list_lookup_alter_ne.
    intros Heq. apply Hi. rewrite <- Heq. left.
  - intros Hin. apply Hi. now right.
Qed.

Lemma write_enrichment_at objs table i o :
  NoDup (map fst objs) -> (i, o) ∈ objs ->
  fold_left write_enrichment objs table !! i
  = Transaction.set_enrichment (Transaction.category o)
      (Transaction.ingestion_status o) <$> table !! i.
Proof.
  revert table. induction objs as [|o0 objs IH]; intros table Hnd Hin.
  - inversion Hin.
  - simpl in Hnd. apply NoDup_cons in Hnd as [Hfresh Hnd]. simpl.
    apply elem_of_cons in Hin as [<-|Hin].
    + rewrite write_enrichment_other by exact Hfresh.
      unfold write_enrichment. simpl. rewrite list_lookup_alter.
      now destruct (decide (i = i)).
    + rewrite IH by assumption.
      unfold write_enrichment. rewrite list_lookup_alter_ne; [reflexivity|].
      intros Heq. apply Hfresh. rewrite Heq.
      change i with (fst (i, o)). now apply list_elem_of_fmap_2.
Qed.

Lemma with_pk_lookup {A} (l : list A) i x :
  (i, x) ∈ with_pk l <-> l !! i = Some x.
Proof.
  unfold with_pk. rewrite elem_of_lookup_imap. split.
  - intros (j & y & [= -> ->] & Hj). exact Hj.
  - intros H. eauto.
Qed.

Lemma with_pk_keys {A} (l : list A) : NoDup (map fst (with_pk l)).
Proof.
  unfold with_pk.
  assert (H : forall n, map fst (imap (fun i x => (n + i, x)) l) = seq n (length l)).
  { induction l as [|x l IH]; intros n; simpl; [reflexivity|].
    rewrite Nat.add_0_r. f_equal.
    rewrite <- IH. f_equal. apply imap_ext. intros i y _. simpl. f_equal. lia. }
  specialize (H 0). simpl in H. rewrite H. apply NoDup_ListNoDup, List.seq_NoDup.
Qed.

Lemma NoDup_map_filter {A B} (f : A -> B) (p : A -> bool) l :
  NoDup (map f l) -> NoDup (map f (List.filter p l)).
Proof.
  induction l as [|x l IH]; simpl; intros Hnd; [constructor|].
  apply NoDup_cons in Hnd as [Hx Hnd].
  destruct (p x); simpl; [|now apply IH].
  apply NoDup_cons. split; [|now apply IH].
  intros Hin. apply Hx.
  apply list_elem_of_fmap in Hin as (y & -> & Hy).
  apply list_elem_of_fmap_2. apply list_elem_of_In in Hy.
  apply filter_In in Hy as [Hy _]. now apply list_elem_of_In.
Qed.

(** When the cache and the category query work, categorization returns
    the answer computed on the snapshot in effect and changes at most the
    cache, to that same snapshot. *)

Lemma load_patterns_ok env w :
  env CacheGet = false -> env CategoryQuery = false -> env CacheSet = false ->
  exists w', DatabaseCategorizer._load_patterns env w
             = (Return (effective_snapshot w), w') /\ quiet w w'.
Proof.
  intros Hg Hq Hs. unfold effective_snapshot.
  destruct (cache w) as [patterns|] eqn:Hc.
  - exists w. rewrite (load_patterns_hit env w patterns Hg Hc).
    split; [reflexivity|]. unfold quiet, effective_snapshot. now rewrite Hc.
  - eexists. rewrite (load_patterns_miss env w Hg Hq Hs Hc).
    split; [reflexivity|]. unfold quiet, effective_snapshot. simpl.
    rewrite Hc. auto.
Qed.

Lemma categorize_ok env w text :
  env CacheGet = false -> env CategoryQuery = false -> env CacheSet = false ->
  text <> "" ->
  exists w', DatabaseCategorizer.categorize text env w
             = (Return (categorize_with (effective_snapshot w) text), w')
             /\ quiet w w'.
Proof.
  intros Hg Hq Hs Hne.
  unfold DatabaseCategorizer.categorize, categorize_with.
  destruct (String.eqb_spec text "") as [->|_]; [congruence|].
  change DatabaseCategorizer.MIN_LENGTH with 3.
  destruct (Py.len (Py.strip (Py.lower text)) <? 3)%nat.
  - exists w. split; [reflexivity|]. repeat split.
  - destruct (load_patterns_ok env w Hg Hq Hs) as (w' & Hl & Hquiet).
    exists w'. unfold bind, ret. rewrite Hl, match_categories_first. auto.
Qed.

Lemma enrich_transaction_ok env w merchant_name description :
  env CacheGet = false -> env CategoryQuery = false -> env CacheSet = false ->
  exists w', TransactionEnrichmentService.enrich_transaction DatabaseCategorizer_new
               merchant_name description env w
             = (Return (enrich_with (effective_snapshot w) merchant_name description), w')
             /\ quiet w w'.
Proof.
  intros Hg Hq Hs.
  unfold TransactionEnrichmentService.enrich_transaction, enrich_with.
  rewrite text_to_categorize_choice.
  set (text := if Py.truthy merchant_name then default "" merchant_name
               else if Py.truthy description then default "" description else "").
  unfold is_blank. destruct (String.eqb_spec (Py.strip text) "") as [Hb|Hb].
  - exists w. split; [reflexivity|]. repeat split.
  - assert (Hne : text <> "") by (intros ->; now apply Hb).
    destruct (categorize_ok env w text Hg Hq Hs Hne) as (w' & Hc & Hquiet).
    exists w'. unfold bind, ret. simpl. rewrite Hc. auto.
Qed.

Lemma enrich_loop_ok env txns acc w :
  env CacheGet = false -> env CategoryQuery = false -> env CacheSet = false ->
  exists w',
    for_each txns (enrich_and_collect DatabaseCategorizer_new) acc env w
    = (Return (acc ++ map (fun r => (r.1, enriched (effective_snapshot w) r.2)) txns)%list,
       w')
    /\ quiet w w'.
Proof.
  intros Hg Hq Hs. revert acc w.
  induction txns as [|txn txns IH]; intros acc w; simpl.
  - exists w. rewrite app_nil_r. split; [reflexivity|]. repeat split.
  - destruct (enrich_transaction_ok env w (Transaction.merchant_name txn.2)
                (Some (Transaction.description txn.2)) Hg Hq Hs)
      as (w1 & He & Hd1 & Hq1 & Hs1).
    destruct (IH (acc ++ [(txn.1, enriched (effective_snapshot w) txn.2)])%list w1)
      as (w' & Hloop & Hd2 & Hq2 & Hs2).
    exists w'. split.
    + unfold bind at 1. unfold enrich_and_collect at 1. unfold bind at 1.
      rewrite He. unfold ret at 1. fold (enriched (effective_snapshot w) txn.2).
      rewrite Hloop, Hs1, <- app_assoc. reflexivity.
    + repeat split; congruence.
Qed.

(** The transactions table after a batch has been enriched. *)
Lemma bulk_update_rows patterns k table :
  let objs := map (fun r => (r.1, enriched patterns r.2))
                  (List.filter (fun r => selected k r.2) (with_pk table)) in
  forall i x, table !! i = Some x ->
    fold_left write_enrichment objs table !! i
    = Some (if selected k x then enriched patterns x else x).
Proof.
  intros objs i x Hx.
  assert (Hkeys : map fst objs = map fst (List.filter (fun r => selected k r.2) (with_pk table))).
  { unfold objs. rewrite map_map. reflexivity. }
  destruct (selected k x) eqn:Hsel.
  - rewrite (write_enrichment_at objs table i (enriched patterns x)).
    + rewrite Hx. reflexivity.
    + rewrite Hkeys. apply NoDup_map_filter, with_pk_keys.
    + unfold objs.
      change (i, enriched patterns x)
        with ((fun r : nat * Transaction.t => (r.1, enriched patterns r.2)) (i, x)).
      apply list_elem_of_fmap_2. apply list_elem_of_In, filter_In. split.
      * apply list_elem_of_In, with_pk_lookup, Hx.
      * exact Hsel.
  - rewrite write_enrichment_other; [exact Hx|].
    rewrite Hkeys. intros Hin.
    apply list_elem_of_fmap in Hin as ([j y] & Hj & Hy). simpl in Hj. subst j.
    apply list_elem_of_In, filter_In in Hy as [Hy Hsel'].
    apply list_elem_of_In, with_pk_lookup in Hy. simpl in Hsel'. congruence.
Qed.

Lemma bulk_update_length objs table :
  length (fold_left write_enrichment objs table) = length table.
Proof.
  revert table. induction objs as [|o objs IH]; intros table; simpl; [reflexivity|].
  rewrite IH. unfold write_enrichment. apply length_alter.
Qed.

(** What the [try] block changes in the batches table, whenever it
    returns: the status of the batch, to [COMPLETED]. *)
Lemma enrich_batch_return_batches k env w w' :
  enrich_batch k env w = (Return tt, w') ->
  batches (db w') = alter (Batch.set_status COMPLETED) k (batches (db w)).
Proof.
  cbv [enrich_batch Transaction_filter_pending bind get_world ret].
  destruct (for_each _ _ _ env w) as [[objs|e] w1] eqn:Hloop; [|discriminate].
  apply enrich_loop_frame in Hloop as [Hd _].
  unfold Transaction_bulk_update.
  destruct objs as [|o objs].
  - cbv [ret Batch_save_status bind get_world put_world].
    intros [= <-]. simpl. now rewrite Hd.
  - cbv [fault bind get_world put_world Batch_save_status].
    destruct (env TransactionBulkUpdate); [discriminate|].
    intros [= <-]. simpl. now rewrite Hd.
Qed.

(** The [try] block on a world where nothing it relies on fails. *)
Lemma enrich_batch_ok k env w :
  env CacheGet = false -> env CategoryQuery = false -> env CacheSet = false ->
  env TransactionBulkUpdate = false ->
  exists w',
    enrich_batch k env w = (Return tt, w')
    /\ batches (db w') = alter (Batch.set_status COMPLETED) k (batches (db w))
    /\ (forall i x, transactions (db w) !! i = Some x ->
          transactions (db w') !! i
          = Some (if selected k x then enriched (effective_snapshot w) x else x))
    /\ length (transactions (db w')) = length (transactions (db w))
    /\ accounts (db w') = accounts (db w)
    /\ categories (db w') = categories (db w)
    /\ queue w' = queue w.
Proof.
  intros Hg Hq Hs Hu.
  destruct (enrich_loop_ok env
              (List.filter (fun r => selected k r.2) (with_pk (transactions (db w))))
              [] w Hg Hq Hs) as (w1 & Hloop & Hd & Hqu & _).
  simpl in Hloop.
  set (objs := map (fun r => (r.1, enriched (effective_snapshot w) r.2))
                   (List.filter (fun r => selected k r.2)
                      (with_pk (transactions (db w))))) in *.
  assert (Hrun : forall table,
            table = transactions (db w) ->
            exists w',
              enrich_batch k env w = (Return tt, w')
              /\ batches (db w') = alter (Batch.set_status COMPLETED) k (batches (db w))
              /\ transactions (db w') = fold_left write_enrichment objs table
              /\ accounts (db w') = accounts (db w)
              /\ categories (db w') = categories (db w)
              /\ queue w' = queue w).
  { intros table ->.
    cbv [enrich_batch Transaction_filter_pending bind get_world ret].
    fold (selected k). unfold selected in Hloop. unfold selected.
    rewrite Hloop. unfold Transaction_bulk_update.
    destruct objs as [|o objs'] eqn:Hobjs.
    - cbv [ret Batch_save_status bind get_world put_world].
      eexists. split; [reflexivity|]. simpl. rewrite Hd, Hqu. repeat split; reflexivity.
    - cbv [fault bind get_world put_world Batch_save_status]. rewrite Hu.
      eexists. split; [reflexivity|]. simpl. rewrite Hd, Hqu. repeat split; reflexivity. }
  destruct (Hrun _ eq_refl) as (w' & Hrun' & Hb & Ht & Ha & Hc & Hqq).
  exists w'. repeat split; try assumption.
  - intros i x Hx. rewrite Ht. now apply bulk_update_rows.
  - rewrite Ht. apply bulk_update_length.
Qed.

(** C4: on a batch whose status is [PROCESSING] or [COMPLETED],
    single-batch processing returns at once and leaves the world as it
    was: the batch's status and every transaction row are unchanged. *)
Theorem processing_or_completed_is_noop :
  forall (batch_id : nat) (env : Env) (w : World) (batch : Batch.t),
    batches (db w) !! batch_id = Some batch ->
    Batch.status batch = PROCESSING \/ Batch.status batch = COMPLETED ->
    process_single_batch batch_id env w = (Return tt, w)
    /\ process_batch_async batch_id env w = (Return (Success batch_id), w).
Proof.
  intros k env w b Hb Hst.
  assert (Hrun : process_single_batch k env w = (Return tt, w)).
  { pose proof (process_single_batch_cases k env w) as H. rewrite Hb in H.
    destruct Hst as [-> | ->] in H; exact H. }
  split; [exact Hrun|].
  cbv [process_batch_async try_except bind ret]. now rewrite Hrun.
Qed.

Lemma processing_or_completed_is_noop_witness :
  process_single_batch 0 healthy completed_world = (Return tt, completed_world)
  /\ process_batch_async 0 healthy completed_world
     = (Return (Success 0), completed_world).
Proof.
  apply (processing_or_completed_is_noop 0 healthy completed_world
           (Batch.mk (Some "req_test_001") 1 COMPLETED 0)).
  - reflexivity.
  - right. reflexivity.
Defined.

(** C1 (the code departs from it): when enrichment raises, the handler of
    [process_single_batch] writes [FAILED], but the exception then leaves
    the [transaction.atomic] block and the database is rolled back, the
    handler's write included.  After [process_single_batch] or
    [process_batch_async] the database is what it was before the run: the
    transactions keep their status and category, and the batch keeps its
    former status.  On a pending batch with an unreachable cache, the
    persisted status is [PENDING], not [FAILED]. *)
Theorem failed_status_is_rolled_back :
  (forall batch_id env w e w',
      process_single_batch batch_id env w = (Raise e, w') -> db w' = db w)
  /\ (forall batch_id env w e w',
         process_batch_async batch_id env w = (Return (Failure batch_id e), w') ->
         db w' = db w)
  /\ status_of pending_world 0 = Some PENDING
  /\ status_of (process_single_batch_body 0 cache_down pending_world).2 0
     = Some FAILED
  /\ process_single_batch 0 cache_down pending_world
     = (Raise (OperationalError CacheGet), pending_world)
  /\ process_batch_async 0 cache_down pending_world
     = (Return (Failure 0 (OperationalError CacheGet)), pending_world)
  /\ status_of (process_batch_async 0 cache_down pending_world).2 0
     = Some PENDING.
Proof.
  split; [|split].
  - intros k env w e w'. apply process_single_batch_raise_rolls_back.
  - intros k env w e w'. cbv [process_batch_async try_except bind ret].
    destruct (process_single_batch k env w) as [[[]|e0] w1] eqn:Hrun.
    + discriminate.
    + intros [= _ <-]. eapply process_single_batch_raise_rolls_back; eauto.
  - repeat split; reflexivity.
Qed.

(** C10: the guard of single-batch processing lets a [FAILED] batch
    through, so the run is not a no-op.  It marks the batch [PROCESSING]
    and enters the [try] block; when nothing fails it returns with the
    batch [COMPLETED] (the world has changed), and every transaction of
    the batch that was still pending now has the ingestion status
    [COMPLETED] and the category that enrichment gives to its merchant
    name or description, all its other fields as before; every other
    transaction is as it was. *)
Theorem failed_batch_is_reprocessed :
  forall (batch_id : nat) (env : Env) (w : World) (batch : Batch.t),
    batches (db w) !! batch_id = Some batch ->
    Batch.status batch = FAILED ->
    process_single_batch_body batch_id env w
    = try_except (enrich_batch batch_id)
        (fun e => Batch_save_status batch_id FAILED ;;; raise e)
        env (mark_batch batch_id PROCESSING w)
    /\ status_of (mark_batch batch_id PROCESSING w) batch_id = Some PROCESSING
    /\ (env CacheGet = false -> env CategoryQuery = false ->
        env CacheSet = false -> env TransactionBulkUpdate = false ->
        exists w',
          process_single_batch batch_id env w = (Return tt, w')
          /\ w' <> w
          /\ status_of w' batch_id = Some COMPLETED
          /\ (forall i x,
                transactions (db w) !! i = Some x ->
                transactions (db w') !! i
                = Some (if selected batch_id x
                        then enriched (effective_snapshot w) x
                        else x))
          /\ (forall i x,
                transactions (db w) !! i = Some x ->
                selected batch_id x = true ->
                exists x',
                  transactions (db w') !! i = Some x'
                  /\ Transaction.ingestion_status x' = COMPLETED
                  /\ Transaction.category x'
                     = Some (enrich_with (effective_snapshot w)
                               (Transaction.merchant_name x)
                               (Some (Transaction.description x)))
                  /\ Transaction.transaction_id x' = Transaction.transaction_id x
                  /\ Transaction.account_id x' = Transaction.account_id x
                  /\ Transaction.batch x' = Transaction.batch x
                  /\ Transaction.amount x' = Transaction.amount x
                  /\ Transaction.currency x' = Transaction.currency x
                  /\ Transaction.date x' = Transaction.date x
                  /\ Transaction.authorized_date x' = Transaction.authorized_date x
                  /\ Transaction.merchant_name x' = Transaction.merchant_name x
                  /\ Transaction.description x' = Transaction.description x
                  /\ Transaction.payment_channel x' = Transaction.payment_channel x
                  /\ Transaction.pending x' = Transaction.pending x)
          /\ (forall i x,
                transactions (db w) !! i = Some x ->
                selected batch_id x = false ->
                transactions (db w') !! i = Some x)).
Proof.
  intros k env w b Hb Hst. split; [|split].
  - cbv [process_single_batch_body Batch_get bind get_world ret raise
         Batch_save_status put_world].
    rewrite Hb, Hst. reflexivity.
  - unfold status_of. rewrite (mark_batch_status k PROCESSING w b Hb). reflexivity.
  - intros Hg Hq Hs Hu.
    destruct (enrich_batch_ok k env (mark_batch k PROCESSING w) Hg Hq Hs Hu)
      as (w' & Hrun & Hbs & Hts & _).
    assert (Hdone : status_of w' k = Some COMPLETED).
    { unfold status_of. rewrite Hbs, list_lookup_alter.
      destruct (decide (k = k)); [|congruence].
      rewrite (mark_batch_status k PROCESSING w b Hb). reflexivity. }
    exists w'. split; [|split; [|split; [|split; [|split]]]].
    + pose proof (process_single_batch_cases k env w) as H.
      rewrite Hb, Hst, Hrun in H. exact H.
    + intros ->. unfold status_of in Hdone. rewrite Hb in Hdone.
      simpl in Hdone. congruence.
    + exact Hdone.
    + intros i x Hx. apply (Hts i x). exact Hx.
    + intros i x Hx Hsel. exists (enriched (effective_snapshot w) x).
      split; [|repeat split].
      rewrite (Hts i x Hx), Hsel. reflexivity.
    + intros i x Hx Hsel. rewrite (Hts i x Hx), Hsel. reflexivity.
Qed.

Lemma failed_batch_is_reprocessed_witness :
  exists w',
    process_single_batch 0 healthy failed_world = (Return tt, w')
    /\ status_of w' 0 = Some COMPLETED
    /\ transactions (db w') !! 0%nat
       = Some (Transaction.mk "txn_002" "acc_123" (Some 0%nat) (-1575) "USD" 0 None
                 (Some "Uber") "Uber Trip" (Some "online") false
                 (Some "transport") COMPLETED).
Proof.
  destruct (failed_batch_is_reprocessed 0 healthy failed_world
              (Batch.mk (Some "req_test_001") 1 FAILED 0) eq_refl eq_refl)
    as (_ & _ & Hrun).
  destruct (Hrun eq_refl eq_refl eq_refl eq_refl)
    as (w' & Hw' & _ & Hstatus & Hrows & _).
  exists w'. split; [exact Hw'|]. split; [exact Hstatus|].
  exact (Hrows 0%nat uber_transaction eq_refl).
Defined.

(** ** The sweep *)

Lemma order_by_created_at_perm l : Permutation (order_by_created_at l) l.
Proof. apply stable_sort_by_perm. Qed.

Lemma order_by_created_at_sorted l : oldest_first (order_by_created_at l).
Proof. apply (stable_sort_by_sorted (fun r => Batch.created_at r.2)). Qed.

Lemma filter_with_pk_values {A} (p : A -> bool) (l : list A) :
  map snd (List.filter (fun r => p r.2) (with_pk l)) = List.filter p l.
Proof.
  unfold with_pk.
  assert (H : forall f : nat -> nat,
             map snd (List.filter (fun r => p r.2) (imap (fun i x => (f i, x)) l))
             = List.filter p l).
  { induction l as [|x l IH]; intros f; simpl; [reflexivity|].
    destruct (p x); simpl; [f_equal|]; apply (IH (fun i => f (S i))). }
  apply (H (fun i => i)).
Qed.

Lemma pending_batches_elem d k b :
  (k, b) ∈ pending_batches d
  <-> batches d !! k = Some b /\ Batch.status b = PENDING.
Proof.
  unfold pending_batches.
  rewrite (order_by_created_at_perm _).
  rewrite list_elem_of_In, filter_In, <- list_elem_of_In, with_pk_lookup.
  simpl. now rewrite bool_decide_eq_true.
Qed.

Lemma pending_batches_keys d : NoDup (map fst (pending_batches d)).
Proof.
  unfold pending_batches.
  rewrite (order_by_created_at_perm _).
  apply NoDup_map_filter, with_pk_keys.
Qed.

Lemma pending_batches_length d :
  length (pending_batches d)
  = length (List.filter (fun b => bool_decide (Batch.status b = PENDING)) (batches d)).
Proof.
  unfold pending_batches.
  rewrite (Permutation_length (order_by_created_at_perm _)).
  rewrite <- (filter_with_pk_values
                (fun b => bool_decide (Batch.status b = PENDING)) (batches d)).
  now rewrite length_map.
Qed.

(** A run that returns on a batch that was not yet completed or in
    progress leaves it [COMPLETED] and the other batches alone. *)
Lemma process_single_batch_return k env w b w' :
  batches (db w) !! k = Some b ->
  Batch.status b = PENDING \/ Batch.status b = FAILED ->
  process_single_batch k env w = (Return tt, w') ->
  status_of w' k = Some COMPLETED
  /\ (forall j, j <> k -> batches (db w') !! j = batches (db w) !! j).
Proof.
  intros Hb Hst Hrun.
  pose proof (process_single_batch_cases k env w) as H. rewrite Hb in H.
  assert (Hguard : bool_decide (Batch.status b = PROCESSING)
                   || bool_decide (Batch.status b = COMPLETED) = false)
    by (destruct Hst as [-> | ->]; reflexivity).
  rewrite Hguard in H.
  destruct (enrich_batch k env (mark_batch k PROCESSING w)) as [[[]|e] w2] eqn:He.
  - rewrite Hrun in H. injection H as <-.
    apply enrich_batch_return_batches in He.
    unfold status_of. rewrite He. split.
    + rewrite list_lookup_alter. destruct (decide (k = k)); [|congruence].
      rewrite (mark_batch_status k PROCESSING w b Hb). reflexivity.
    + intros j Hj. rewrite list_lookup_alter_ne by congruence.
      now apply mark_batch_other.
  - rewrite Hrun in H. discriminate.
Qed.

(** One turn of the sweep's loop. *)
Lemma sweep_one_unfold counts batch env w :
  sweep_one counts batch env w
  = match process_single_batch batch.1 env w with
    | (Return _, w1) =>
        (Return (mkCounts (processed counts + 1) (failed counts)), w1)
    | (Raise _, w1) =>
        (Return (mkCounts (processed counts) (failed counts + 1)),
         mark_batch batch.1 FAILED w1)
    end.
Proof.
  cbv [sweep_one try_except bind ret Batch_save_status get_world put_world].
  now destruct (process_single_batch batch.1 env w) as [[[]|e] w1].
Qed.

Lemma sweep_one_pending counts k b env w :
  batches (db w) !! k = Some b -> Batch.status b = PENDING ->
  exists counts' w',
    sweep_one counts (k, b) env w = (Return counts', w')
    /\ ((status_of w' k = Some COMPLETED
         /\ counts' = mkCounts (processed counts + 1) (failed counts))
        \/ (status_of w' k = Some FAILED
            /\ counts' = mkCounts (processed counts) (failed counts + 1)))
    /\ (forall j, j <> k -> batches (db w') !! j = batches (db w) !! j).
Proof.
  intros Hb Hst. rewrite sweep_one_unfold. simpl.
  destruct (process_single_batch k env w) as [[[]|e] w1] eqn:Hrun.
  - destruct (process_single_batch_return k env w b w1 Hb (or_introl Hst) Hrun)
      as [Hdone Hother].
    eexists _, _. split; [reflexivity|]. split; [left; auto | exact Hother].
  - apply process_single_batch_raise_rolls_back in Hrun.
    eexists _, _. split; [reflexivity|]. split.
    + right. split; [|reflexivity]. unfold status_of.
      erewrite mark_batch_status by (rewrite Hrun; exact Hb). reflexivity.
    + intros j Hj. rewrite mark_batch_other by exact Hj. now rewrite Hrun.
Qed.

Lemma count_status_cons s w k keys :
  count_status s w (k :: keys)
  = ((if bool_decide (status_of w k = Some s) then 1 else 0)
     + count_status s w keys)%Z.
Proof.
  unfold count_status. simpl.
  destruct (bool_decide (status_of w k = Some s)); simpl; lia.
Qed.

Lemma sweep_loop env l :
  forall counts w,
    NoDup (map fst l) ->
    (forall k b, (k, b) ∈ l ->
                 batches (db w) !! k = Some b /\ Batch.status b = PENDING) ->
    exists counts' w',
      for_each l sweep_one counts env w = (Return counts', w')
      /\ (processed counts' + failed counts'
          = processed counts + failed counts + Z.of_nat (length l))%Z
      /\ processed counts'
         = (processed counts + count_status COMPLETED w' (map fst l))%Z
      /\ failed counts'
         = (failed counts + count_status FAILED w' (map fst l))%Z
      /\ (forall k, k ∈ map fst l ->
                    status_of w' k = Some COMPLETED \/ status_of w' k = Some FAILED)
      /\ (forall j, j ∉ map fst l -> batches (db w') !! j = batches (db w) !! j).
Proof.
  induction l as [|[k b] l IH]; intros counts w Hnd Hpend.
  - exists counts, w. simpl. unfold count_status. simpl.
    repeat split; try lia; try reflexivity.
    intros k Hk. inversion Hk.
  - simpl in Hnd. apply NoDup_cons in Hnd as [Hfresh Hnd].
    destruct (Hpend k b) as [Hb Hst]; [left|].
    destruct (sweep_one_pending counts k b env w Hb Hst)
      as (c1 & w1 & Hone & Hk & Hother).
    destruct (IH c1 w1 Hnd) as (c' & w' & Hloop & Hsum & Hp & Hf & Hall & Hrest).
    { intros k' b' Hin.
      assert (k' <> k).
      { intros ->. apply Hfresh. change k with (fst (k, b')).
        now apply list_elem_of_fmap_2. }
      rewrite Hother by assumption. apply Hpend. now right. }
    assert (Hfinal : status_of w' k = status_of w1 k)
      by (unfold status_of; now rewrite Hrest).
    exists c', w'. split.
    { simpl. unfold bind at 1. rewrite Hone. exact Hloop. }
    simpl map. rewrite !count_status_cons, Hfinal.
    destruct Hk as [[Hdone ->] | [Hfail ->]]; simpl in *.
    + rewrite Hdone. simpl. repeat split; try lia.
      * intros k' Hk'. apply elem_of_cons in Hk' as [->|Hk'];
          [left; congruence | now apply Hall].
      * intros j Hj. rewrite Hrest, Hother; [reflexivity| |].
        -- intros ->. apply Hj. left.
        -- intros Hin. apply Hj. now right.
    + rewrite Hfail. simpl. repeat split; try lia.
      * intros k' Hk'. apply elem_of_cons in Hk' as [->|Hk'];
          [right; congruence | now apply Hall].
      * intros j Hj. rewrite Hrest, Hother; [reflexivity| |].
        -- intros ->. apply Hj. left.
        -- intros Hin. apply Hj. now right.
Qed.

(** C9: one sweep takes the batches that are [PENDING] when it starts,
    oldest first, and runs single-batch processing on each in turn; a run
    that raises is caught, that batch is saved as [FAILED] and the loop
    goes on.  The sweep itself returns; every batch that was pending ends
    [COMPLETED] (counted in [processed]) or [FAILED] (counted in
    [failed]), the other batches keep their rows, and the two counts add
    up to the number of batches that were pending at the start. *)
Theorem sweep_processes_every_pending_batch :
  forall (env : Env) (w : World),
    let pending := pending_batches (db w) in
    oldest_first pending
    /\ (forall k b, (k, b) ∈ pending
                    <-> batches (db w) !! k = Some b /\ Batch.status b = PENDING)
    /\ (forall counts batch w0,
          sweep_one counts batch env w0
          = match process_single_batch batch.1 env w0 with
            | (Return _, w1) =>
                (Return (mkCounts (processed counts + 1) (failed counts)), w1)
            | (Raise _, w1) =>
                (Return (mkCounts (processed counts) (failed counts + 1)),
                 mark_batch batch.1 FAILED w1)
            end)
    /\ exists counts w',
        process_pending_batches env w = (Return counts, w')
        /\ for_each pending sweep_one (mkCounts 0 0) env w = (Return counts, w')
        /\ (processed counts + failed counts
            = Z.of_nat (length (List.filter
                                  (fun b => bool_decide (Batch.status b = PENDING))
                                  (batches (db w)))))%Z
        /\ processed counts = count_status COMPLETED w' (map fst pending)
        /\ failed counts = count_status FAILED w' (map fst pending)
        /\ (forall k b, batches (db w) !! k = Some b ->
                        Batch.status b = PENDING ->
                        status_of w' k = Some COMPLETED
                        \/ status_of w' k = Some FAILED)
        /\ (forall k b, batches (db w) !! k = Some b ->
                        Batch.status b <> PENDING ->
                        batches (db w') !! k = Some b).
Proof.
  intros env w pending. split; [|split; [|split]].
  - apply order_by_created_at_sorted.
  - intros k b. apply pending_batches_elem.
  - intros. apply sweep_one_unfold.
  - destruct (sweep_loop env pending (mkCounts 0 0) w (pending_batches_keys (db w)))
      as (c' & w' & Hloop & Hsum & Hp & Hf & Hall & Hrest).
    { intros k b Hin. now apply pending_batches_elem. }
    exists c', w'. simpl in Hsum, Hp, Hf.
    split; [|split; [exact Hloop|]].
    { cbv [process_pending_batches bind get_world]. fold pending.
      destruct pending eqn:Hpe; [|exact Hloop].
      simpl in Hloop. exact Hloop. }
    repeat split.
    + rewrite Hsum. unfold pending. now rewrite pending_batches_length.
    + exact Hp.
    + exact Hf.
    + intros k b Hb Hst. apply Hall.
      change k with (fst (k, b)). apply list_elem_of_fmap_2.
      now apply pending_batches_elem.
    + intros k b Hb Hst. rewrite Hrest; [exact Hb|].
      intros Hin. apply list_elem_of_fmap in Hin as ([k' b'] & Hk & Hin).
      simpl in Hk. subst k'. apply pending_batches_elem in Hin as [Hb' Hst'].
      congruence.
Qed.

(** A sweep over three batches while the cache is unreachable: the older
    pending batch needs the patterns and fails, the newer one has no
    transaction and completes, the completed one is not visited. *)
Example sweep_with_cache_down :
  map fst (pending_batches (db sweep_world)) = [2; 0]
  /\ (process_pending_batches cache_down sweep_world).1 = Return (mkCounts 1 1)
  /\ map Batch.status
       (batches (db (process_pending_batches cache_down sweep_world).2))
     = [COMPLETED; COMPLETED; FAILED]
  /\ transactions (db (process_pending_batches cache_down sweep_world).2)
     = transactions (db sweep_world).
Proof. repeat split; reflexivity. Qed.

(** ** Ingestion *)

Lemma CharField_unusable n (v : Raw string) : unusable v -> CharField n v = None.
Proof. now destruct v. Qed.

Lemma DecimalField_unusable n (v : Raw Z) : unusable v -> DecimalField n v = None.
Proof. now destruct v. Qed.

Lemma RequiredField_unusable {A} (v : Raw A) : unusable v -> RequiredField v = None.
Proof. now destruct v. Qed.

Lemma ListSerializer_unusable {A B} (child : A -> option B) v :
  unusable v -> ListSerializer child v = None.
Proof. now destruct v. Qed.

Lemma ListSerializer_bad_item {A B} (child : A -> option B) l a :
  In a l -> child a = None -> ListSerializer child (Value l) = None.
Proof.
  intros Hin Ha. simpl. apply mapM_None_2, Exists_exists.
  exists a. split; [now apply list_elem_of_In | exact Ha].
Qed.

(** Walks down a chain of field validators until one is known to fail. *)
Ltac fields_fail :=
  repeat match goal with
         | |- (?o ≫= _) = None =>
             let E := fresh "E" in
             destruct o eqn:E; cbn [mbind option_bind]; [|reflexivity];
             try congruence
         end.

Lemma AccountSerializer_lacks_required a :
  account_lacks_required a -> AccountSerializer a = None.
Proof.
  unfold AccountSerializer.
  intros [H|[H|H]].
  - apply (CharField_unusable 255) in H. fields_fail.
  - apply (CharField_unusable 255) in H. fields_fail.
  - apply (CharField_unusable 100) in H. fields_fail.
Qed.

Lemma AccountSerializer_malformed_optional a :
  RawAccount.subtype a = Malformed \/ RawAccount.mask a = Malformed ->
  AccountSerializer a = None.
Proof.
  unfold AccountSerializer. intros [H|H]; rewrite H; fields_fail; discriminate.
Qed.

Lemma TransactionSerializer_lacks_required x :
  transaction_lacks_required x -> TransactionSerializer x = None.
Proof.
  unfold TransactionSerializer. intros [H|[H|[H|[H|[H|H]]]]].
  - apply (CharField_unusable 255) in H. fields_fail.
  - apply (CharField_unusable 255) in H. fields_fail.
  - apply (DecimalField_unusable 19) in H. fields_fail.
  - apply (CharField_unusable 3) in H. fields_fail.
  - apply RequiredField_unusable in H. fields_fail.
  - apply (CharField_unusable 255) in H. fields_fail.
Qed.

Lemma TransactionSerializer_malformed_optional x :
  RawTransaction.authorized_date x = Malformed
  \/ RawTransaction.merchant_name x = Malformed
  \/ RawTransaction.payment_channel x = Malformed
  \/ RawTransaction.pending x = Malformed ->
  TransactionSerializer x = None.
Proof.
  unfold TransactionSerializer.
  intros [H|[H|[H|H]]]; rewrite H; fields_fail; discriminate.
Qed.

Lemma is_valid_bad_accounts data l a :
  RawRequest.accounts data = Value l -> In a l -> AccountSerializer a = None ->
  BatchIngestionRequestSerializer.is_valid data = None.
Proof.
  intros Hl Hin Ha. unfold BatchIngestionRequestSerializer.is_valid.
  now rewrite Hl, (ListSerializer_bad_item _ l a Hin Ha).
Qed.

Lemma is_valid_bad_transactions data l x :
  RawRequest.transactions data = Value l -> In x l ->
  TransactionSerializer x = None ->
  BatchIngestionRequestSerializer.is_valid data = None.
Proof.
  intros Hl Hin Hx. unfold BatchIngestionRequestSerializer.is_valid.
  rewrite Hl, (ListSerializer_bad_item _ l x Hin Hx).
  now destruct (ListSerializer AccountSerializer _).
Qed.

Lemma is_valid_rejects data :
  lacks_required data \/ malformed_optional data ->
  BatchIngestionRequestSerializer.is_valid data = None.
Proof.
  intros [[H|[H|[H|[(l & a & Hl & Hin & Ha)|(l & x & Hl & Hin & Hx)]]]]
         |[H|[(l & a & Hl & Hin & Ha)|(l & x & Hl & Hin & Hx)]]].
  - unfold BatchIngestionRequestSerializer.is_valid.
    now rewrite (ListSerializer_unusable _ _ H).
  - unfold BatchIngestionRequestSerializer.is_valid.
    rewrite (ListSerializer_unusable _ _ H).
    now destruct (ListSerializer AccountSerializer _).
  - unfold BatchIngestionRequestSerializer.is_valid.
    rewrite (RequiredField_unusable _ H).
    now destruct (ListSerializer AccountSerializer _),
      (ListSerializer TransactionSerializer _).
  - eapply is_valid_bad_accounts; eauto using AccountSerializer_lacks_required.
  - eapply is_valid_bad_transactions; eauto using TransactionSerializer_lacks_required.
  - unfold BatchIngestionRequestSerializer.is_valid. rewrite H. simpl.
    now destruct (ListSerializer AccountSerializer _),
      (ListSerializer TransactionSerializer _), (RequiredField _).
  - eapply is_valid_bad_accounts; eauto using AccountSerializer_malformed_optional.
  - eapply is_valid_bad_transactions;
      eauto using TransactionSerializer_malformed_optional.
Qed.

Lemma create_raise_rolls_back validated_data now env w e w' :
  BatchIngestionRequestSerializer.create validated_data now env w = (Raise e, w') ->
  db w' = db w /\ queue w' = queue w.
Proof.
  intros H. split; [eapply atomic_raise_rolls_back; exact H|].
  revert H.
  cbv [BatchIngestionRequestSerializer.create atomic
       BatchIngestionRequestSerializer.create_body bind
       BatchIngestionRequestSerializer.Account_bulk_create
       BatchIngestionRequestSerializer.Batch_create
       BatchIngestionRequestSerializer.Transaction_bulk_create
       fault get_world put_world ret raise].
  destruct (map _ (ValidatedData.accounts validated_data));
    [|destruct (env AccountBulkCreate);
      [|destruct (forallb BatchIngestionRequestSerializer.statement_accepted _)]];
    try (intros [= <- <-]; reflexivity);
    (destruct (env BatchCreate); [intros [= <- <-]; reflexivity|]);
    (destruct (BatchIngestionRequestSerializer.integer_in_range _);
     [|intros [= <- <-]; reflexivity]);
    (destruct (map _ (ValidatedData.transactions validated_data));
     [|destruct (env TransactionBulkCreate)]);
    try discriminate; intros [= <- <-]; reflexivity.
Qed.

Lemma create_fails_when_step_fails validated_data now env w :
  write_step_fails env validated_data ->
  exists e w',
    BatchIngestionRequestSerializer.create validated_data now env w = (Raise e, w').
Proof.
  intros Hfail.
  cbv [BatchIngestionRequestSerializer.create atomic
       BatchIngestionRequestSerializer.create_body bind
       BatchIngestionRequestSerializer.Account_bulk_create
       BatchIngestionRequestSerializer.Batch_create
       BatchIngestionRequestSerializer.Transaction_bulk_create
       fault get_world put_world ret raise].
  destruct (ValidatedData.accounts validated_data) as [|a acs] eqn:Ha;
    destruct (ValidatedData.transactions validated_data) as [|x xs] eqn:Hx;
    destruct (env AccountBulkCreate) eqn:E1, (env BatchCreate) eqn:E2,
             (env TransactionBulkCreate) eqn:E3;
    cbn [map]; rewrite ?E1, ?E2, ?E3;
    try destruct (forallb BatchIngestionRequestSerializer.statement_accepted _);
    rewrite ?E1, ?E2, ?E3;
    try destruct (BatchIngestionRequestSerializer.integer_in_range _);
    rewrite ?E1, ?E2, ?E3;
    try (eexists _, _; reflexivity);
    exfalso; unfold write_step_fails in Hfail; rewrite ?Ha, ?Hx in Hfail;
    destruct Hfail as [[H1 H2]|[H|[H1 H2]]]; congruence.
Qed.

Lemma post_invalid data now env w :
  BatchIngestionRequestSerializer.is_valid data = None ->
  BatchIngestionView.post data now env w = (Return HTTP_400_BAD_REQUEST, w).
Proof. intros H. unfold BatchIngestionView.post. now rewrite H. Qed.

Lemma post_create_raises data validated_data now env w e w1 :
  BatchIngestionRequestSerializer.is_valid data = Some validated_data ->
  BatchIngestionRequestSerializer.create validated_data now env w = (Raise e, w1) ->
  BatchIngestionView.post data now env w
  = (Return HTTP_500_INTERNAL_SERVER_ERROR, w1).
Proof.
  intros Hv Hc. cbv [BatchIngestionView.post try_except bind ret].
  now rewrite Hv, Hc.
Qed.

(** C6: ingestion is all or nothing.  A payload with a malformed or
    missing required field (or a malformed optional one) does not
    validate; a payload that does not validate is answered with 400 and
    the world is left as it was.  When a step of the atomic write fails
    (account upsert, batch creation or transaction bulk insert),
    [create] raises, the request is answered with 500, and the database
    is what it was before the request: no account, batch or transaction
    of the payload remains, and nothing is queued. *)
Theorem ingestion_is_all_or_nothing :
  forall (data : RawRequest.t) (now : Z) (env : Env) (w : World),
    (lacks_required data \/ malformed_optional data ->
     BatchIngestionRequestSerializer.is_valid data = None)
    /\ (BatchIngestionRequestSerializer.is_valid data = None ->
        BatchIngestionView.post data now env w = (Return HTTP_400_BAD_REQUEST, w))
    /\ (forall validated_data,
          BatchIngestionRequestSerializer.is_valid data = Some validated_data ->
          write_step_fails env validated_data ->
          exists e w',
            BatchIngestionRequestSerializer.create validated_data now env w
            = (Raise e, w'))
    /\ (forall validated_data e w1,
          BatchIngestionRequestSerializer.is_valid data = Some validated_data ->
          BatchIngestionRequestSerializer.create validated_data now env w
          = (Raise e, w1) ->
          BatchIngestionView.post data now env w
          = (Return HTTP_500_INTERNAL_SERVER_ERROR, w1)
          /\ db w1 = db w /\ queue w1 = queue w).
Proof.
  intros data now env w. split; [|split; [|split]].
  - apply is_valid_rejects.
  - apply post_invalid.
  - intros v _ Hfail. now apply create_fails_when_step_fails.
  - intros v e w1 Hv Hc. split; [exact (post_create_raises data v now env w e w1 Hv Hc)|].
    eapply create_raise_rolls_back; eauto.
Qed.

Lemma ingestion_is_all_or_nothing_witness :
  BatchIngestionView.post invalid_request 100 healthy pending_world
  = (Return HTTP_400_BAD_REQUEST, pending_world)
  /\ exists w1,
      BatchIngestionView.post sample_request 100 batch_create_down pending_world
      = (Return HTTP_500_INTERNAL_SERVER_ERROR, w1)
      /\ db w1 = db pending_world /\ queue w1 = queue pending_world.
Proof.
  destruct (ingestion_is_all_or_nothing invalid_request 100 healthy pending_world)
    as (Hbad & H400 & _).
  split.
  - apply H400, Hbad. left. right. right. right. left.
    eexists _, _. split; [reflexivity|]. split; [left; reflexivity|].
    right. right. exact I.
  - destruct (ingestion_is_all_or_nothing sample_request 100 batch_create_down
                pending_world) as (_ & _ & Hfail & H500).
    destruct (BatchIngestionRequestSerializer.is_valid sample_request)
      as [v|] eqn:Hv; [|discriminate Hv].
    destruct (Hfail v eq_refl) as (e & w1 & Hc).
    { right. left. reflexivity. }
    exists w1. exact (H500 v e w1 eq_refl Hc).
Defined.

(** ** Re-ingestion *)

Lemma rows_with_id_app tid t1 t2 :
  rows_with_id tid (t1 ++ t2) = rows_with_id tid t1 + rows_with_id tid t2.
Proof. unfold rows_with_id. now rewrite List.filter_app, length_app. Qed.

Lemma rows_with_id_pos tid table :
  0 < rows_with_id tid table
  <-> existsb (fun row => String.eqb (Transaction.transaction_id row) tid) table = true.
Proof.
  unfold rows_with_id. induction table as [|row table IH]; simpl.
  - split; [lia | discriminate].
  - destruct (String.eqb (Transaction.transaction_id row) tid); simpl.
    + split; [reflexivity | lia].
    + exact IH.
Qed.

(** Inserting with [ignore_conflicts] keeps every row in place and adds
    no row under an id the table already has. *)
Lemma insert_or_ignore_keeps table x :
  (forall i row, table !! i = Some row ->
                 BatchIngestionRequestSerializer.insert_or_ignore table x !! i = Some row)
  /\ (forall tid, 0 < rows_with_id tid table ->
                  rows_with_id tid (BatchIngestionRequestSerializer.insert_or_ignore table x)
                  = rows_with_id tid table).
Proof.
  unfold BatchIngestionRequestSerializer.insert_or_ignore.
  destruct (existsb _ table) eqn:Hex; [auto|].
  split.
  - intros i row Hi. now apply lookup_app_l_Some.
  - intros tid Hpos. rewrite rows_with_id_app.
    unfold rows_with_id at 2. simpl.
    destruct (String.eqb_spec (Transaction.transaction_id x) tid) as [<-|_];
      [|simpl; lia].
    apply rows_with_id_pos in Hpos. congruence.
Qed.

Lemma bulk_insert_keeps objs table :
  (forall i row, table !! i = Some row ->
                 fold_left BatchIngestionRequestSerializer.insert_or_ignore objs table !! i
                 = Some row)
  /\ (forall tid, 0 < rows_with_id tid table ->
                  rows_with_id tid
                    (fold_left BatchIngestionRequestSerializer.insert_or_ignore objs table)
                  = rows_with_id tid table).
Proof.
  revert table. induction objs as [|x objs IH]; intros table; simpl; [auto|].
  destruct (insert_or_ignore_keeps table x) as [Hrow Hcount].
  destruct (IH (BatchIngestionRequestSerializer.insert_or_ignore table x))
    as [Hrows Hcounts].
  split.
  - intros i row Hi. apply Hrows, Hrow, Hi.
  - intros tid Hpos. rewrite Hcounts; [now apply Hcount|].
    rewrite Hcount; assumption.
Qed.

(** The unique constraint on [transaction_id] survives the bulk insert. *)
Lemma bulk_insert_unique objs table :
  NoDup (map Transaction.transaction_id table) ->
  NoDup (map Transaction.transaction_id
           (fold_left BatchIngestionRequestSerializer.insert_or_ignore objs table)).
Proof.
  revert table. induction objs as [|x objs IH]; intros table Hnd; simpl; [exact Hnd|].
  apply IH. unfold BatchIngestionRequestSerializer.insert_or_ignore.
  destruct (existsb _ table) eqn:Hex; [exact Hnd|].
  rewrite map_app. simpl. apply NoDup_app. split; [exact Hnd|]. split.
  - intros tid Hin Hin'. apply list_elem_of_singleton in Hin'. subst tid.
    apply list_elem_of_fmap in Hin as (row & Hid & Hrow).
    assert (existsb (fun row => String.eqb (Transaction.transaction_id row)
                                           (Transaction.transaction_id x)) table = true).
    { apply existsb_exists. exists row. split; [now apply list_elem_of_In|].
      rewrite <- Hid. apply String.eqb_refl. }
    congruence.
  - apply NoDup_singleton.
Qed.

(** The transactions table after [create], whatever its outcome. *)
Lemma create_transactions validated_data now env w r w' :
  BatchIngestionRequestSerializer.create validated_data now env w = (r, w') ->
  transactions (db w') = transactions (db w)
  \/ transactions (db w')
     = fold_left BatchIngestionRequestSerializer.insert_or_ignore
         (map (BatchIngestionRequestSerializer.transaction_object
                 (length (batches (db w))))
              (ValidatedData.transactions validated_data))
         (transactions (db w)).
Proof.
  cbv [BatchIngestionRequestSerializer.create atomic
       BatchIngestionRequestSerializer.create_body bind
       BatchIngestionRequestSerializer.Account_bulk_create
       BatchIngestionRequestSerializer.Batch_create
       BatchIngestionRequestSerializer.Transaction_bulk_create
       fault get_world put_world ret raise].
  destruct (map _ (ValidatedData.accounts validated_data));
    [|destruct (env AccountBulkCreate);
      [|destruct (forallb BatchIngestionRequestSerializer.statement_accepted _)]];
    try (intros [= <- <-]; left; reflexivity);
    (destruct (env BatchCreate); [intros [= <- <-]; left; reflexivity|]);
    (destruct (BatchIngestionRequestSerializer.integer_in_range _);
     [|intros [= <- <-]; left; reflexivity]);
    simpl;
    (destruct (map _ (ValidatedData.transactions validated_data)) eqn:Hx;
     [|destruct (env TransactionBulkCreate)]);
    intros [= <- <-]; simpl; auto.
Qed.

Lemma post_transactions data now env w r w' :
  BatchIngestionView.post data now env w = (r, w') ->
  transactions (db w') = transactions (db w)
  \/ exists batch_id objs,
      transactions (db w')
      = fold_left BatchIngestionRequestSerializer.insert_or_ignore
          (map (BatchIngestionRequestSerializer.transaction_object batch_id) objs)
          (transactions (db w)).
Proof.
  unfold BatchIngestionView.post.
  destruct (BatchIngestionRequestSerializer.is_valid data) as [v|];
    [|intros [= <- <-]; now left].
  cbv [try_except bind ret BatchIngestionView.delay fault get_world put_world].
  destruct (BatchIngestionRequestSerializer.create v now env w) as [[b|e] w1] eqn:Hc.
  - apply create_transactions in Hc.
    destruct (env TaskDelay); intros [= <- <-]; simpl;
      (destruct Hc as [Hc|Hc]; [now left | right; eauto]).
  - apply create_transactions in Hc.
    intros [= <- <-]. destruct Hc as [Hc|Hc]; [now left | right; eauto].
Qed.

(** Single-batch processing writes no transaction outside the pending
    ones of its batch, whatever its outcome. *)
Lemma enrich_loop_keys txns acc env w objs w' :
  for_each txns (enrich_and_collect DatabaseCategorizer_new) acc env w
  = (Return objs, w') ->
  map fst objs = (map fst acc ++ map fst txns)%list.
Proof.
  revert acc w. induction txns as [|txn txns IH]; intros acc w; simpl.
  - intros [= <- _]. now rewrite app_nil_r.
  - unfold bind at 1. unfold enrich_and_collect at 1. unfold bind at 1.
    destruct (TransactionEnrichmentService.enrich_transaction _ _ _ env w)
      as [[c|e] w1]; [|discriminate].
    unfold ret at 1. intros H. apply IH in H. rewrite H, map_app. simpl.
    now rewrite <- app_assoc.
Qed.

Lemma bulk_update_outcome objs env w r w' :
  Transaction_bulk_update objs env w = (r, w') ->
  w' = w
  \/ w' = with_db (with_transactions
                     (fold_left write_enrichment objs (transactions (db w)))
                     (db w)) w.
Proof.
  unfold Transaction_bulk_update. destruct objs as [|o objs].
  - intros [= _ <-]. now left.
  - cbv [fault bind get_world put_world].
    destruct (env TransactionBulkUpdate); intros [= _ <-]; [now left | now right].
Qed.

Lemma enrich_batch_other_rows k env w w' i x :
  enrich_batch k env w = (Return tt, w') ->
  transactions (db w) !! i = Some x -> selected k x = false ->
  transactions (db w') !! i = Some x.
Proof.
  cbv [enrich_batch Transaction_filter_pending bind get_world ret].
  destruct (for_each _ _ _ env w) as [[objs|e] w1] eqn:Hloop; [|discriminate].
  pose proof (enrich_loop_keys _ _ _ _ _ _ Hloop) as Hkeys. simpl in Hkeys.
  apply enrich_loop_frame in Hloop as [Hd _].
  intros Hrun Hx Hsel.
  assert (Hfresh : i ∉ map fst objs).
  { rewrite Hkeys. intros Hin.
    apply list_elem_of_fmap in Hin as ([j y] & Hj & Hy). simpl in Hj. subst j.
    apply list_elem_of_In, filter_In in Hy as [Hy Hsel'].
    apply list_elem_of_In, with_pk_lookup in Hy. simpl in Hsel'.
    rewrite Hx in Hy. injection Hy as <-.
    unfold selected in Hsel. rewrite Hsel in Hsel'. discriminate. }
  destruct (Transaction_bulk_update objs env w1) as [[[]|e] w2] eqn:Hup;
    [|discriminate].
  revert Hrun. cbv [Batch_save_status bind get_world put_world].
  intros [= <-]. cbn [db transactions with_db with_batches mark_batch].
  apply bulk_update_outcome in Hup as [-> | ->].
  - now rewrite Hd.
  - cbn [db transactions with_db with_transactions].
    rewrite write_enrichment_other by exact Hfresh. now rewrite Hd.
Qed.

Lemma process_single_batch_other_rows k env w r w' i x :
  process_single_batch k env w = (r, w') ->
  transactions (db w) !! i = Some x -> selected k x = false ->
  transactions (db w') !! i = Some x.
Proof.
  intros Hrun Hx Hsel.
  pose proof (process_single_batch_cases k env w) as H.
  destruct (batches (db w) !! k) as [b|];
    [|assert (w' = w) by congruence; subst; exact Hx].
  destruct (bool_decide (Batch.status b = PROCESSING)
            || bool_decide (Batch.status b = COMPLETED));
    [assert (w' = w) by congruence; subst; exact Hx|].
  destruct (enrich_batch k env (mark_batch k PROCESSING w)) as [[[]|e] w2] eqn:He.
  - assert (w' = w2) by congruence. subst.
    eapply enrich_batch_other_rows; eauto.
  - assert (w' = with_db (db w) w2) by congruence. subst. exact Hx.
Qed.

(** C5: ingesting a payload leaves every transaction already stored in
    its row with all its fields, the batch reference, the category and
    the ingestion status included, and creates no further row under a
    [transaction_id] that already exists, in particular when the payload
    contains a transaction with that id; the ids stay unique.  The
    processing of the new batch, which the request queues, does not touch
    a transaction of another batch either. *)
Theorem reingestion_skips_existing_transaction :
  forall (data : RawRequest.t) (now : Z) (env : Env) (w : World)
         (r : Result IngestionResponse) (w' : World),
    BatchIngestionView.post data now env w = (r, w') ->
    (forall i row, transactions (db w) !! i = Some row ->
                   transactions (db w') !! i = Some row)
    /\ (forall tid, 0 < rows_with_id tid (transactions (db w)) ->
                    rows_with_id tid (transactions (db w'))
                    = rows_with_id tid (transactions (db w)))
    /\ (NoDup (map Transaction.transaction_id (transactions (db w))) ->
        NoDup (map Transaction.transaction_id (transactions (db w'))))
    /\ (forall i row env2 r2 w2,
          transactions (db w) !! i = Some row ->
          Transaction.batch row <> Some (length (batches (db w))) ->
          process_batch_async (length (batches (db w))) env2 w' = (r2, w2) ->
          transactions (db w2) !! i = Some row).
Proof.
  intros data now env w r w' Hpost.
  assert (Hkeep : forall i row, transactions (db w) !! i = Some row ->
                                transactions (db w') !! i = Some row).
  { apply post_transactions in Hpost as [-> | (k & objs & ->)]; [auto|].
    apply bulk_insert_keeps. }
  split; [exact Hkeep|]. split; [|split].
  - apply post_transactions in Hpost as [-> | (k & objs & ->)]; [auto|].
    apply bulk_insert_keeps.
  - apply post_transactions in Hpost as [-> | (k & objs & ->)]; [auto|].
    apply bulk_insert_unique.
  - intros i row env2 r2 w2 Hrow Hbatch.
    cbv [process_batch_async try_except bind ret].
    destruct (process_single_batch _ env2 w') as [[[]|e] w3] eqn:Hrun;
      intros [= _ <-];
      (eapply process_single_batch_other_rows;
       [exact Hrun | now apply Hkeep |]);
      unfold selected; apply andb_false_iff; left;
      now apply bool_decide_eq_false.
Qed.

Lemma reingestion_skips_existing_transaction_witness :
  (BatchIngestionView.post sample_request 100 healthy pending_world).1
  = Return (HTTP_202_ACCEPTED 1 2)
  /\ transactions
       (db (BatchIngestionView.post sample_request 100 healthy pending_world).2) !! 0
     = Some uber_transaction
  /\ rows_with_id "txn_002"
       (transactions
          (db (BatchIngestionView.post sample_request 100 healthy pending_world).2))
     = 1.
Proof.
  destruct (BatchIngestionView.post sample_request 100 healthy pending_world)
    as [r w'] eqn:Hpost.
  destruct (reingestion_skips_existing_transaction
              sample_request 100 healthy pending_world r w' Hpost)
    as (Hrows & Hcounts & _ & _).
  split; [|split].
  - now injection Hpost as <- _.
  - apply (Hrows 0 uber_transaction). reflexivity.
  - simpl. rewrite (Hcounts "txn_002"); [reflexivity|]. vm_compute. lia.
Defined.

(** ** Dates *)

Lemma days_in_month_bounds y m :
  (28 <= Utils.days_in_month y m <= 31)%Z.
Proof.
  unfold Utils.days_in_month.
  destruct (m =? 2)%Z; [destruct (Utils.is_leap y); lia|].
  destruct ((m =? 4) || (m =? 6) || (m =? 9) || (m =? 11))%Z; lia.
Qed.

Lemma days_before_month_aux_mono y n k :
  (Utils.days_before_month_aux y n <= Utils.days_before_month_aux y (n + k))%Z.
Proof.
  induction k as [|k IH]; [rewrite Nat.add_0_r; lia|].
  rewrite Nat.add_succ_r. simpl.
  pose proof (days_in_month_bounds y (Z.of_nat (S (n + k)))). lia.
Qed.

Lemma days_before_month_next y m :
  (1 <= m)%Z ->
  (Utils.days_before_month y m + Utils.days_in_month y m
   = Utils.days_before_month y (m + 1))%Z.
Proof.
  intros Hm. unfold Utils.days_before_month.
  replace (Z.to_nat (m + 1 - 1)) with (S (Z.to_nat (m - 1))) by lia.
  simpl Utils.days_before_month_aux.
  replace (Z.of_nat (S (Z.to_nat (m - 1)))) with m by lia. reflexivity.
Qed.

Lemma days_before_month_mono y m1 m2 :
  (1 <= m1 <= m2)%Z ->
  (Utils.days_before_month y m1 <= Utils.days_before_month y m2)%Z.
Proof.
  intros H. unfold Utils.days_before_month.
  replace (Z.to_nat (m2 - 1)) with (Z.to_nat (m1 - 1) + Z.to_nat (m2 - m1)) by lia.
  apply days_before_month_aux_mono.
Qed.

Lemma days_in_year y :
  Utils.days_before_month y 13 = (if Utils.is_leap y then 366 else 365)%Z.
Proof.
  unfold Utils.days_before_month. change (Z.to_nat (13 - 1)) with 12.
  cbn [Utils.days_before_month_aux]. unfold Utils.days_in_month.
  destruct (Utils.is_leap y); reflexivity.
Qed.

Lemma days_before_year_next y :
  Utils.days_before_year (y + 1)
  = (Utils.days_before_year y + if Utils.is_leap y then 366 else 365)%Z.
Proof.
  unfold Utils.days_before_year, Utils.is_leap.
  replace (y + 1 - 1)%Z with y by lia.
  destruct (Z.eqb_spec (y mod 4) 0), (Z.eqb_spec (y mod 100) 0),
    (Z.eqb_spec (y mod 400) 0); simpl; Z.div_mod_to_equations; lia.
Qed.

Lemma days_before_year_mono y1 y2 :
  (y1 <= y2)%Z -> (Utils.days_before_year y1 <= Utils.days_before_year y2)%Z.
Proof.
  unfold Utils.days_before_year. intros H. Z.div_mod_to_equations. lia.
Qed.

Lemma valid_date_bounds d :
  Utils.valid_date d = true ->
  (1 <= Utils.year d <= 9999 /\ 1 <= Utils.month d <= 12
   /\ 1 <= Utils.day d <= Utils.days_in_month (Utils.year d) (Utils.month d))%Z.
Proof. unfold Utils.valid_date. lia. Qed.

(** Within its year a valid date falls after the days before its month
    and before the first day of the next month. *)
Lemma toordinal_within d :
  Utils.valid_date d = true ->
  (Utils.days_before_year (Utils.year d)
   + Utils.days_before_month (Utils.year d) (Utils.month d)
   < Utils.toordinal d
   <= Utils.days_before_year (Utils.year d)
      + Utils.days_before_month (Utils.year d) (Utils.month d + 1))%Z.
Proof.
  intros Hv. apply valid_date_bounds in Hv as (_ & Hm & Hd).
  unfold Utils.toordinal.
  rewrite <- (days_before_month_next (Utils.year d) (Utils.month d)) by lia. lia.
Qed.

Lemma date_lt_toordinal a b :
  Utils.valid_date a = true -> Utils.valid_date b = true ->
  Utils.date_lt a b = true -> (Utils.toordinal a < Utils.toordinal b)%Z.
Proof.
  intros Ha Hb Hlt.
  pose proof (toordinal_within a Ha) as [_ Hau].
  pose proof (toordinal_within b Hb) as [Hbl _].
  apply valid_date_bounds in Ha as (_ & Hma & _).
  apply valid_date_bounds in Hb as (_ & Hmb & _).
  unfold Utils.date_lt in Hlt.
  destruct (Z.ltb_spec (Utils.year a) (Utils.year b)) as [Hy|Hy].
  - pose proof (days_before_month_mono (Utils.year a) (Utils.month a + 1) 13).
    pose proof (days_in_year (Utils.year a)) as Hdy.
    pose proof (days_before_year_next (Utils.year a)) as Hnext.
    pose proof (days_before_year_mono (Utils.year a + 1) (Utils.year b)).
    pose proof (days_before_month_mono (Utils.year b) 1 (Utils.month b)) as H1.
    change (Utils.days_before_month (Utils.year b) 1) with 0%Z in H1.
    destruct (Utils.is_leap (Utils.year a)); lia.
  - simpl in Hlt. apply andb_true_iff in Hlt as [Hyy Hlt].
    apply Z.eqb_eq in Hyy. rewrite Hyy in *.
    destruct (Z.ltb_spec (Utils.month a) (Utils.month b)) as [Hm|Hm].
    + pose proof (days_before_month_mono (Utils.year b) (Utils.month a + 1)
                    (Utils.month b)). lia.
    + simpl in Hlt. apply andb_true_iff in Hlt as [Hmm Hlt].
      apply Z.eqb_eq in Hmm. apply Z.ltb_lt in Hlt.
      unfold Utils.toordinal. rewrite Hyy, Hmm. lia.
Qed.

Lemma date_lt_iff_toordinal a b :
  Utils.valid_date a = true -> Utils.valid_date b = true ->
  (Utils.date_lt a b = true <-> (Utils.toordinal a < Utils.toordinal b)%Z).
Proof.
  intros Ha Hb. split; [now apply date_lt_toordinal|].
  intros Hlt. destruct (Utils.date_lt a b) eqn:Hab; [reflexivity|]. exfalso.
  destruct (Utils.date_lt b a) eqn:Hba.
  - apply date_lt_toordinal in Hba; [lia | assumption | assumption].
  - assert (a = b).
    { unfold Utils.date_lt in Hab, Hba. destruct a, b. simpl in *.
      f_equal; lia. }
    subst. lia.
Qed.

Lemma strptime_valid s d : Utils.strptime s = Some d -> Utils.valid_date d = true.
Proof.
  unfold Utils.strptime.
  repeat match goal with
         | |- match ?x with _ => _ end = _ -> _ => destruct x eqn:?; try discriminate
         end.
  destruct (Utils.valid_date _) eqn:Hv; [|discriminate].
  now intros [= <-].
Qed.

(** *** What [strptime] takes for a date *)

Lemma digit_digit_char v : (0 <= v <= 9)%Z -> Utils.digit (digit_char v) = Some v.
Proof.
  intros Hv.
  assert (H : (v = 0 \/ v = 1 \/ v = 2 \/ v = 3 \/ v = 4 \/ v = 5 \/ v = 6
               \/ v = 7 \/ v = 8 \/ v = 9)%Z) by lia.
  repeat (destruct H as [->|H]; [reflexivity|]). now subst.
Qed.

Lemma digit_inv c v :
  Utils.digit c = Some v -> c = digit_char v /\ (0 <= v <= 9)%Z.
Proof.
  unfold Utils.digit, digit_char.
  destruct ((48 <=? nat_of_ascii c)%nat && (nat_of_ascii c <=? 57)%nat) eqn:H;
    [|discriminate].
  intros [= <-]. apply andb_true_iff in H as [H1 H2].
  apply Nat.leb_le in H1, H2. split; [|lia].
  replace (48 + Z.to_nat (Z.of_nat (nat_of_ascii c - 48)))%nat
    with (nat_of_ascii c) by lia.
  symmetry. apply ascii_nat_embedding.
Qed.

Lemma digit_in_inv lo hi c v :
  Utils.digit_in lo hi c = Some v ->
  c = digit_char v /\ (0 <= v <= 9)%Z /\ (lo <= v <= hi)%Z.
Proof.
  unfold Utils.digit_in. destruct (Utils.digit c) as [u|] eqn:Hd; [|discriminate].
  destruct ((lo <=? u) && (u <=? hi))%Z eqn:Hr; [|discriminate].
  intros [= <-]. destruct (digit_inv _ _ Hd) as [-> Hu].
  split; [reflexivity|]. split; [exact Hu | lia].
Qed.

(** Replaces a character known to be a digit in a range by the digits of
    the range, one case each. *)
Ltac digit_cases H :=
  match type of H with
  | Utils.digit_in _ _ ?c = Some ?v =>
      let Hc := fresh in let Hv := fresh in let Hr := fresh in
      destruct (digit_in_inv _ _ _ _ H) as (Hc & Hv & Hr);
      let D := fresh in
      assert (D : (v = 0 \/ v = 1 \/ v = 2 \/ v = 3 \/ v = 4 \/ v = 5 \/ v = 6
                   \/ v = 7 \/ v = 8 \/ v = 9)%Z) by lia;
      clear H;
      repeat (destruct D as [D|D]; [subst v; try lia|]);
      try (subst v; try lia); try subst c
  | Utils.digit ?c = Some ?v =>
      let Hc := fresh in let Hv := fresh in
      destruct (digit_inv _ _ H) as (Hc & Hv);
      let D := fresh in
      assert (D : (v = 0 \/ v = 1 \/ v = 2 \/ v = 3 \/ v = 4 \/ v = 5 \/ v = 6
                   \/ v = 7 \/ v = 8 \/ v = 9)%Z) by lia;
      clear H;
      repeat (destruct D as [D|D]; [subst v; try lia|]);
      try (subst v; try lia); try subst c
  end.

(** Closes a goal about the form read off a string of known digits. *)
Ltac form_found :=
  match goal with
  | |- exists f, String ?a (String ?b ?r) = (f ++ ?r)%string /\ _ =>
      exists (String a (String b EmptyString))
  | |- exists f, String ?a ?r = (f ++ ?r)%string /\ _ =>
      exists (String a EmptyString)
  end;
  split; [reflexivity|]; split; [cbv; auto 6 | lia].

Lemma match_month_forms r m r' :
  In (m, r') (Utils.match_month r) ->
  exists month_form,
    r = (month_form ++ r')%string /\ In month_form (month_forms m)
    /\ (1 <= m <= 12)%Z.
Proof.
  destruct r as [|a [|b r0]]; simpl.
  - intros [].
  - destruct (Utils.digit_in 1 9 a) as [v|] eqn:Ha; [|intros []].
    intros [[= <- <-]|[]]. digit_cases Ha; form_found.
  - intros Hin.
    apply in_app_or in Hin as [Hin|Hin]; [|apply in_app_or in Hin as [Hin|Hin]].
    + destruct (Utils.digit_in 1 1 a) as [u|] eqn:Ha; [|destruct Hin].
      destruct (Utils.digit_in 0 2 b) as [v|] eqn:Hb; [|destruct Hin].
      destruct Hin as [[= <- <-]|[]]. digit_cases Ha; digit_cases Hb; form_found.
    + destruct (Utils.digit_in 0 0 a) as [u|] eqn:Ha; [|destruct Hin].
      destruct (Utils.digit_in 1 9 b) as [v|] eqn:Hb; [|destruct Hin].
      destruct Hin as [[= <- <-]|[]]. digit_cases Ha; digit_cases Hb; form_found.
    + destruct (Utils.digit_in 1 9 a) as [v|] eqn:Ha; [|destruct Hin].
      destruct Hin as [[= <- <-]|[]]. digit_cases Ha; form_found.
Qed.

(** The alternatives of the directive [%d], one by one. *)
Lemma match_day_cases a b r0 d r' :
  Utils.match_day (String a (String b r0)) = Some (d, r') ->
  (exists u v, Utils.digit_in 3 3 a = Some u /\ Utils.digit_in 0 1 b = Some v
               /\ d = (30 + v)%Z /\ r' = r0)
  \/ (exists u v, Utils.digit_in 1 2 a = Some u /\ Utils.digit b = Some v
                  /\ d = (10 * u + v)%Z /\ r' = r0)
  \/ (exists u v, Utils.digit_in 0 0 a = Some u /\ Utils.digit_in 1 9 b = Some v
                  /\ d = v /\ r' = r0)
  \/ (exists v, Utils.digit_in 1 9 a = Some v /\ d = v /\ r' = String b r0)
  \/ (a = " "%char /\ exists v, Utils.digit_in 1 9 b = Some v /\ d = v /\ r' = r0).
Proof.
  cbn [Utils.match_day].
  destruct (Utils.digit_in 3 3 a) as [u3|] eqn:H3;
    destruct (Utils.digit_in 0 1 b) as [v01|] eqn:H01;
    try (intros [= <- <-]; left; eauto 6; fail);
    (destruct (Utils.digit_in 1 2 a) as [u12|] eqn:H12;
     destruct (Utils.digit b) as [vb|] eqn:Hb;
     try (intros [= <- <-]; right; left; eauto 6; fail);
     (destruct (Utils.digit_in 0 0 a) as [u0|] eqn:H0;
      destruct (Utils.digit_in 1 9 b) as [v19|] eqn:H19;
      try (intros [= <- <-]; right; right; left; eauto 6; fail);
      (destruct (Utils.digit_in 1 9 a) as [u19|] eqn:Ha19;
       [intros [= <- <-]; right; right; right; left; eauto 6|];
       destruct (Ascii.eqb_spec a " ") as [->|_]; try discriminate;
       intros [= <- <-]; right; right; right; right; eauto 6))).
Qed.

Lemma match_day_forms r d r' :
  Utils.match_day r = Some (d, r') ->
  exists day_form,
    r = (day_form ++ r')%string /\ In day_form (day_forms d)
    /\ (1 <= d <= 31)%Z.
Proof.
  destruct r as [|a [|b r0]].
  - discriminate.
  - simpl. destruct (Utils.digit_in 1 9 a) as [v|] eqn:Ha; [|discriminate].
    intros [= <- <-]. digit_cases Ha; form_found.
  - intros H. apply match_day_cases in H
      as [(u & v & Ha & Hb & -> & ->)
         |[(u & v & Ha & Hb & -> & ->)
          |[(u & v & Ha & Hb & -> & ->)
           |[(v & Ha & -> & ->)
            |(-> & v & Hb & -> & ->)]]]].
    + digit_cases Ha; digit_cases Hb; form_found.
    + digit_cases Ha; digit_cases Hb; form_found.
    + digit_cases Ha; digit_cases Hb; form_found.
    + digit_cases Ha; form_found.
    + digit_cases Hb; form_found.
Qed.

Lemma match_month_day_cons m s rest :
  Utils.match_month_day ((m, s) :: rest)
  = match s with
    | String a r =>
        if Ascii.eqb a "-"
        then match Utils.match_day r with
             | Some (d, r') => Some (m, d, r')
             | None => Utils.match_month_day rest
             end
        else Utils.match_month_day rest
    | EmptyString => Utils.match_month_day rest
    end.
Proof.
  destruct s as [|a r]; [reflexivity|].
  destruct a as [[] [] [] [] [] [] [] []]; reflexivity.
Qed.

Lemma strptime_cons y1 y2 y3 y4 c r :
  Utils.strptime (String y1 (String y2 (String y3 (String y4 (String c r)))))
  = if Ascii.eqb c "-"
    then match Utils.digit y1, Utils.digit y2, Utils.digit y3, Utils.digit y4 with
         | Some a, Some b, Some c, Some d =>
             match Utils.match_month_day (Utils.match_month r) with
             | Some (m, dd, EmptyString) =>
                 let res := Utils.mkdate (1000 * a + 100 * b + 10 * c + d)%Z m dd in
                 if Utils.valid_date res then Some res else None
             | _ => None
             end
         | _, _, _, _ => None
         end
    else None.
Proof. destruct c as [[] [] [] [] [] [] [] []]; reflexivity. Qed.

Lemma string_app_nil_end (a : string) : (a ++ "")%string = a.
Proof.
  induction a as [|x a IH]; [reflexivity|].
  change (String x (a ++ "") = String x a). now f_equal.
Qed.

Lemma string_app_assoc_cons (a : string) c (b r : string) :
  ((a ++ String c b) ++ r)%string = (a ++ String c (b ++ r))%string.
Proof.
  induction a as [|x a IH]; [reflexivity|].
  change (String x ((a ++ String c b) ++ r) = String x (a ++ String c (b ++ r))).
  now f_equal.
Qed.

Lemma match_month_day_forms r candidates :
  forall m d rest,
    (forall m r', In (m, r') candidates ->
                  exists month_form,
                    r = (month_form ++ r')%string
                    /\ In month_form (month_forms m) /\ (1 <= m <= 12)%Z) ->
    Utils.match_month_day candidates = Some (m, d, rest) ->
    exists month_form day_form,
      r = ((month_form ++ String "-" day_form) ++ rest)%string
      /\ In month_form (month_forms m) /\ In day_form (day_forms d)
      /\ (1 <= m <= 12)%Z /\ (1 <= d <= 31)%Z.
Proof.
  induction candidates as [|[m0 s0] candidates IH]; intros m d rest Hall;
    [discriminate|].
  rewrite match_month_day_cons.
  assert (Hrest : Utils.match_month_day candidates = Some (m, d, rest) ->
                  exists month_form day_form,
                    r = ((month_form ++ String "-" day_form) ++ rest)%string
                    /\ In month_form (month_forms m) /\ In day_form (day_forms d)
                    /\ (1 <= m <= 12)%Z /\ (1 <= d <= 31)%Z).
  { apply IH. intros m1 r1 Hin. apply (Hall m1 r1). now right. }
  destruct s0 as [|a r0]; [exact Hrest|].
  destruct (Ascii.eqb_spec a "-") as [->|_]; [|exact Hrest].
  destruct (Utils.match_day r0) as [[d0 r1]|] eqn:Hday; [|exact Hrest].
  intros [= <- <- <-].
  destruct (Hall m0 (String "-" r0) (or_introl eq_refl)) as (mf & -> & Hmf & Hm).
  destruct (match_day_forms _ _ _ Hday) as (df & -> & Hdf & Hd).
  exists mf, df. split; [now rewrite string_app_assoc_cons|]. auto.
Qed.

(** Every form of a month and a day is read back as that month and day. *)
Lemma forms_parse m dd month_form day_form :
  (1 <= m <= 12)%Z -> (1 <= dd <= 31)%Z ->
  In month_form (month_forms m) -> In day_form (day_forms dd) ->
  Utils.match_month_day
    (Utils.match_month (month_form ++ String "-" day_form))
  = Some (m, dd, EmptyString).
Proof.
  intros Hm Hd.
  assert (Hms : (m = 1 \/ m = 2 \/ m = 3 \/ m = 4 \/ m = 5 \/ m = 6 \/ m = 7
                 \/ m = 8 \/ m = 9 \/ m = 10 \/ m = 11 \/ m = 12)%Z) by lia.
  assert (Hds : (dd = 1 \/ dd = 2 \/ dd = 3 \/ dd = 4 \/ dd = 5 \/ dd = 6 \/ dd = 7
                 \/ dd = 8 \/ dd = 9 \/ dd = 10 \/ dd = 11 \/ dd = 12 \/ dd = 13
                 \/ dd = 14 \/ dd = 15 \/ dd = 16 \/ dd = 17 \/ dd = 18 \/ dd = 19
                 \/ dd = 20 \/ dd = 21 \/ dd = 22 \/ dd = 23 \/ dd = 24 \/ dd = 25
                 \/ dd = 26 \/ dd = 27 \/ dd = 28 \/ dd = 29 \/ dd = 30 \/ dd = 31)%Z)
    by lia.
  clear Hm Hd.
  repeat (destruct Hms as [->|Hms]);
    try subst m;
    repeat (destruct Hds as [->|Hds]);
    try subst dd;
    cbv [month_forms day_forms Z.ltb Z.compare Pos.compare Pos.compare_cont In];
    intros Hmf Hdf;
    repeat match goal with
           | H : _ \/ _ |- _ => destruct H as [H|H]
           | H : False |- _ => destruct H
           end;
    subst; reflexivity.
Qed.

(** [strptime] accepts exactly the forms of the calendar dates. *)
Lemma strptime_accepts s d :
  Utils.strptime s = Some d
  <-> Utils.valid_date d = true /\ In s (accepted_forms d).
Proof.
  split.
  - intros Hs. split; [exact (strptime_valid _ _ Hs)|].
    destruct s as [|y1 [|y2 [|y3 [|y4 [|c r]]]]]; try discriminate.
    rewrite strptime_cons in Hs.
    destruct (Ascii.eqb_spec c "-") as [->|_]; [|discriminate].
    destruct (Utils.digit y1) as [a1|] eqn:H1; [|discriminate].
    destruct (Utils.digit y2) as [a2|] eqn:H2; [|discriminate].
    destruct (Utils.digit y3) as [a3|] eqn:H3; [|discriminate].
    destruct (Utils.digit y4) as [a4|] eqn:H4; [|discriminate].
    destruct (Utils.match_month_day (Utils.match_month r)) as [[[m dd] rest]|] eqn:Hmd;
      [|discriminate].
    destruct rest; [|discriminate]. cbv zeta in Hs.
    destruct (Utils.valid_date _); [|discriminate]. injection Hs as <-.
    destruct (match_month_day_forms r _ m dd "" (match_month_forms r) Hmd)
      as (mf & df & Hr & Hmf & Hdf & _).
    rewrite string_app_nil_end in Hr. subst r.
    destruct (digit_inv _ _ H1) as [-> B1]. destruct (digit_inv _ _ H2) as [-> B2].
    destruct (digit_inv _ _ H3) as [-> B3]. destruct (digit_inv _ _ H4) as [-> B4].
    unfold accepted_forms. cbn [Utils.year Utils.month Utils.day].
    apply in_flat_map. exists mf. split; [exact Hmf|].
    apply in_map_iff. exists df. split; [|exact Hdf].
    unfold date_form.
    replace ((1000 * a1 + 100 * a2 + 10 * a3 + a4) / 1000)%Z with a1
      by (Z.div_mod_to_equations; lia).
    replace ((1000 * a1 + 100 * a2 + 10 * a3 + a4) / 100 mod 10)%Z with a2
      by (Z.div_mod_to_equations; lia).
    replace ((1000 * a1 + 100 * a2 + 10 * a3 + a4) / 10 mod 10)%Z with a3
      by (Z.div_mod_to_equations; lia).
    replace ((1000 * a1 + 100 * a2 + 10 * a3 + a4) mod 10)%Z with a4
      by (Z.div_mod_to_equations; lia).
    reflexivity.
  - intros [Hv Hin].
    pose proof (valid_date_bounds d Hv) as (Hyear & Hmonth & Hday).
    pose proof (days_in_month_bounds (Utils.year d) (Utils.month d)) as Hdim.
    unfold accepted_forms in Hin.
    apply in_flat_map in Hin as (mf & Hmf & Hin).
    apply in_map_iff in Hin as (df & <- & Hdf).
    unfold date_form. rewrite strptime_cons. cbn [Ascii.eqb Bool.eqb].
    rewrite !digit_digit_char by (Z.div_mod_to_equations; lia).
    rewrite (forms_parse (Utils.month d) (Utils.day d)) by (assumption || lia).
    replace (1000 * (Utils.year d / 1000) + 100 * (Utils.year d / 100 mod 10)
             + 10 * (Utils.year d / 10 mod 10) + Utils.year d mod 10)%Z
      with (Utils.year d) by (Z.div_mod_to_equations; lia).
    destruct d as [y m dd]. simpl in *. now rewrite Hv.
Qed.

(** C8, as stated, fails for its last clause: strings that are not in
    the documented format [YYYY-MM-DD] (a month or a day of one digit, a
    day after a space) are read as dates and the range is accepted. *)
Lemma date_outside_the_format_is_accepted :
  is_yyyy_mm_dd "2024-1-5" = false
  /\ is_yyyy_mm_dd "2024-01- 6" = false
  /\ Utils.validate_date_range "2024-1-5" "2024-01- 6"
     = Utils.Valid (Utils.mkdate 2024 1 5, Utils.mkdate 2024 1 6).
Proof. repeat split; reflexivity. Qed.

(** C8, amended: for two strings read as dates, validation fails exactly
    when the end date is before the start date (an earlier day) or the
    span in days exceeds 365, and otherwise returns the two dates; a span
    of 365 days passes and one of 366 days fails.  A string is read as a
    date exactly when it is one of the forms of a calendar date: the year
    with four digits, the month with one or two digits, the day with one
    or two digits or with one digit after a space, dashes in between; any
    other start string is rejected as a bad start date, and any other end
    string, after a good start, as a bad end date. *)
Theorem validate_date_range_limits :
  forall (start_date_str end_date_str : string),
    (forall start_date end_date,
        Utils.strptime start_date_str = Some start_date ->
        Utils.strptime end_date_str = Some end_date ->
        ((exists e, Utils.validate_date_range start_date_str end_date_str
                    = Utils.Invalid e)
         <-> (Utils.date_lt end_date start_date = true
              \/ (365 < Utils.days_between start_date end_date)%Z))
        /\ (Utils.validate_date_range start_date_str end_date_str
            = Utils.Valid (start_date, end_date)
            <-> ~ (Utils.date_lt end_date start_date = true
                   \/ (365 < Utils.days_between start_date end_date)%Z))
        /\ (Utils.date_lt end_date start_date = true
            <-> (Utils.toordinal end_date < Utils.toordinal start_date)%Z)
        /\ (Utils.days_between start_date end_date = 365%Z ->
            Utils.validate_date_range start_date_str end_date_str
            = Utils.Valid (start_date, end_date))
        /\ (Utils.days_between start_date end_date = 366%Z ->
            Utils.validate_date_range start_date_str end_date_str
            = Utils.Invalid (Utils.RangeExceeded 366)))
    /\ (Utils.strptime start_date_str = None
        \/ Utils.strptime end_date_str = None ->
        exists e, Utils.validate_date_range start_date_str end_date_str
                  = Utils.Invalid e)
    /\ (forall d : Utils.date,
          Utils.strptime start_date_str = Some d
          <-> Utils.valid_date d = true /\ In start_date_str (accepted_forms d))
    /\ (forall d : Utils.date,
          Utils.strptime end_date_str = Some d
          <-> Utils.valid_date d = true /\ In end_date_str (accepted_forms d))
    /\ ((forall d, Utils.valid_date d = true ->
                   ~ In start_date_str (accepted_forms d)) ->
        Utils.validate_date_range start_date_str end_date_str
        = Utils.Invalid Utils.InvalidStartDateFormat)
    /\ (forall start_date,
          Utils.valid_date start_date = true ->
          In start_date_str (accepted_forms start_date) ->
          (forall d, Utils.valid_date d = true ->
                     ~ In end_date_str (accepted_forms d)) ->
          Utils.validate_date_range start_date_str end_date_str
          = Utils.Invalid Utils.InvalidEndDateFormat).
Proof.
  intros s e. split; [|split; [|split; [|split; [|split]]]].
  - intros ds de Hs He.
    pose proof (date_lt_iff_toordinal de ds (strptime_valid _ _ He)
                  (strptime_valid _ _ Hs)) as Hlt.
    assert (Hrun : Utils.validate_date_range s e
                   = if Utils.date_lt de ds then Utils.Invalid Utils.EndBeforeStart
                     else if (365 <? Utils.days_between ds de)%Z
                          then Utils.Invalid
                                 (Utils.RangeExceeded (Utils.days_between ds de))
                          else Utils.Valid (ds, de)).
    { unfold Utils.validate_date_range. now rewrite Hs, He. }
    rewrite Hrun. clear Hrun.
    split; [|split; [|split; [exact Hlt|split]]].
    + destruct (Utils.date_lt de ds); [split; eauto|].
      destruct (Z.ltb_spec 365 (Utils.days_between ds de)).
      * split; eauto.
      * split; [intros [e0 [=]] | intros [[=]|Hc]; lia].
    + destruct (Utils.date_lt de ds).
      { split; [intros [=] | intros Hn; exfalso; apply Hn; now left]. }
      destruct (Z.ltb_spec 365 (Utils.days_between ds de)).
      * split; [intros [=] | intros Hn; exfalso; apply Hn; now right].
      * split; [intros _ [[=]|Hc]; lia | reflexivity].
    + intros H365. unfold Utils.days_between in H365.
      destruct (Utils.date_lt de ds) eqn:Hpre.
      { assert (Utils.toordinal de < Utils.toordinal ds)%Z by now apply Hlt.
        lia. }
      unfold Utils.days_between. rewrite H365. reflexivity.
    + intros H366. unfold Utils.days_between in H366.
      destruct (Utils.date_lt de ds) eqn:Hpre.
      { assert (Utils.toordinal de < Utils.toordinal ds)%Z by now apply Hlt.
        lia. }
      unfold Utils.days_between. rewrite H366. reflexivity.
  - unfold Utils.validate_date_range. intros [->|He]; [eauto|].
    destruct (Utils.strptime s); rewrite ?He; eauto.
  - intros d. apply strptime_accepts.
  - intros d. apply strptime_accepts.
  - intros Hnone. unfold Utils.validate_date_range.
    destruct (Utils.strptime s) as [d|] eqn:Hs; [|reflexivity].
    apply strptime_accepts in Hs as [Hv Hin]. now destruct (Hnone d Hv).
  - intros ds Hv Hin Hnone. unfold Utils.validate_date_range.
    rewrite (proj2 (strptime_accepts s ds) (conj Hv Hin)).
    destruct (Utils.strptime e) as [d|] eqn:He; [|reflexivity].
    apply strptime_accepts in He as [Hve Hine]. now destruct (Hnone d Hve).
Qed.

Lemma validate_date_range_limits_witness :
  Utils.validate_date_range "2023-01-01" "2024-01-01"
  = Utils.Valid (Utils.mkdate 2023 1 1, Utils.mkdate 2024 1 1)
  /\ Utils.validate_date_range "2023-01-01" "2024-01-02"
     = Utils.Invalid (Utils.RangeExceeded 366)
  /\ exists e, Utils.validate_date_range "01-01-2024" "2024-01-31" = Utils.Invalid e.
Proof.
  split; [|split].
  - destruct (validate_date_range_limits "2023-01-01" "2024-01-01") as [H _].
    destruct (H (Utils.mkdate 2023 1 1) (Utils.mkdate 2024 1 1) eq_refl eq_refl)
      as (_ & _ & _ & H365 & _).
    apply H365. reflexivity.
  - destruct (validate_date_range_limits "2023-01-01" "2024-01-02") as [H _].
    destruct (H (Utils.mkdate 2023 1 1) (Utils.mkdate 2024 1 2) eq_refl eq_refl)
      as (_ & _ & _ & _ & H366).
    apply H366. reflexivity.
  - destruct (validate_date_range_limits "01-01-2024" "2024-01-31") as (_ & H & _).
    apply H. left. reflexivity.
Defined.

(** ** The account summary *)

Lemma fold_left_add l a : fold_left Z.add l a = (a + sum_Z l)%Z.
Proof.
  revert a. induction l as [|x l IH]; intros a; simpl; [lia|].
  rewrite IH. lia.
Qed.

Lemma or_zero_Sum l : AccountSummaryAPIView.or_zero (AccountSummaryAPIView.Sum l) = sum_Z l.
Proof.
  destruct l as [|x l]; [reflexivity|].
  unfold AccountSummaryAPIView.Sum, AccountSummaryAPIView.or_zero.
  rewrite fold_left_add.
  destruct (Z.eqb_spec (0 + sum_Z (x :: l)) 0); lia.
Qed.

Lemma sum_case_spend qs :
  sum_Z (map AccountSummaryAPIView.case_spend qs) = spend_sum qs.
Proof.
  unfold spend_sum. induction qs as [|x qs IH]; simpl; [reflexivity|].
  unfold AccountSummaryAPIView.case_spend at 1.
  destruct (Transaction.amount x <? 0)%Z; simpl; lia.
Qed.

Lemma sum_case_income qs :
  sum_Z (map AccountSummaryAPIView.case_income qs) = income_sum qs.
Proof.
  unfold income_sum. induction qs as [|x qs IH]; simpl; [reflexivity|].
  unfold AccountSummaryAPIView.case_income at 1.
  destruct (0 <=? Transaction.amount x)%Z; simpl; lia.
Qed.

Lemma spend_sum_nonpos qs : (spend_sum qs <= 0)%Z.
Proof.
  unfold spend_sum. induction qs as [|x qs IH]; simpl; [lia|].
  destruct (Z.ltb_spec (Transaction.amount x) 0); simpl; lia.
Qed.

Lemma signed_total_spend_spec qs :
  AccountSummaryAPIView.signed_total_spend qs = spend_sum qs.
Proof.
  unfold AccountSummaryAPIView.signed_total_spend.
  now rewrite or_zero_Sum, sum_case_spend.
Qed.

Lemma filter_filter_and {A} (p q : A -> bool) l :
  List.filter q (List.filter p l) = List.filter (fun x => p x && q x) l.
Proof.
  induction l as [|x l IH]; simpl; [reflexivity|].
  destruct (p x); simpl; [destruct (q x)|]; now rewrite IH.
Qed.

Lemma sum_negative_rows rows :
  Forall (fun x => (Transaction.amount x < 0)%Z) rows -> rows <> [] ->
  (sum_Z (map Transaction.amount rows) < 0)%Z.
Proof.
  induction 1 as [|x rows Hx Hrows IH]; [congruence|]. intros _. simpl.
  destruct rows as [|y rows]; [simpl; lia|].
  assert (sum_Z (map Transaction.amount (y :: rows)) < 0)%Z by now apply IH.
  lia.
Qed.

(** The rows of [GROUP BY category] over the expenses of [qs]. *)
Lemma group_row_spec qs row :
  row ∈ AccountSummaryAPIView.group_by_category
          (List.filter (fun x => (Transaction.amount x <? 0)%Z) qs) ->
  let key := AccountSummaryAPIView.row_category row in
  AccountSummaryAPIView.row_total_spend row
  = sum_Z (map Transaction.amount (category_expenses key qs))
  /\ AccountSummaryAPIView.row_transaction_count row
     = Z.of_nat (length (category_expenses key qs))
  /\ (AccountSummaryAPIView.row_total_spend row < 0)%Z
  /\ (0 < AccountSummaryAPIView.row_transaction_count row)%Z.
Proof.
  unfold AccountSummaryAPIView.group_by_category.
  intros Hrow. apply list_elem_of_fmap in Hrow as (key & -> & Hkey). simpl.
  unfold AccountSummaryAPIView.in_group. rewrite filter_filter_and.
  fold (category_expenses key qs).
  apply elem_of_remove_dups, list_elem_of_fmap in Hkey as (x & Hx & Hin).
  apply list_elem_of_In, filter_In in Hin as [Hin Hneg].
  assert (Hmem : In x (category_expenses key qs)).
  { apply filter_In. split; [exact Hin|]. rewrite Hneg. simpl.
    apply bool_decide_eq_true. congruence. }
  assert (Hne : category_expenses key qs <> []) by (intros E; now rewrite E in Hmem).
  assert (Hall : Forall (fun x => (Transaction.amount x < 0)%Z) (category_expenses key qs)).
  { apply Forall_forall. intros y Hy. apply list_elem_of_In, filter_In in Hy as [_ Hy].
    apply andb_true_iff in Hy as [Hy _]. now apply Z.ltb_lt. }
  rewrite fold_left_add.
  split; [lia|]. split; [reflexivity|]. split.
  - pose proof (sum_negative_rows _ Hall Hne). lia.
  - destruct (category_expenses key qs); [congruence | simpl; lia].
Qed.






(** The figures of the repository's summary test. *)
Example summary_test_figures :
  AccountSummaryAPIView.get summary_table "acc_summary_test"
    (Utils.mkdate 2024 1 1) (Utils.mkdate 2024 1 31)
  = AccountSummaryAPIView.mkSummary
      (AccountSummaryAPIView.mkMetrics 9 28000 250000 222000)
      [AccountSummaryAPIView.mkTopCategory "shopping" 15000 2 5357;
       AccountSummaryAPIView.mkTopCategory "food" 6000 3 2143;
       AccountSummaryAPIView.mkTopCategory "transport" 4500 2 1607].
Proof. vm_compute. reflexivity. Qed.

(** * Further properties *)

(** ** Single-batch processing and the sweep *)

(** X1: single-batch processing on an identifier that names no batch
    raises [DoesNotExist] before any write; the asynchronous task reports
    the failure instead of raising, and the world is unchanged. *)
Theorem missing_batch_does_not_exist :
  forall (batch_id : nat) (env : Env) (w : World),
    batches (db w) !! batch_id = None ->
    process_single_batch batch_id env w = (Raise DoesNotExist, w)
    /\ process_batch_async batch_id env w
       = (Return (Failure batch_id DoesNotExist), w).
Proof.
  intros k env w Hnone.
  pose proof (process_single_batch_cases k env w) as H. rewrite Hnone in H.
  split; [exact H|].
  cbv [process_batch_async try_except bind ret]. now rewrite H.
Qed.

Lemma missing_batch_does_not_exist_witness :
  process_single_batch 7 healthy pending_world = (Raise DoesNotExist, pending_world)
  /\ process_batch_async 7 healthy pending_world
     = (Return (Failure 7 DoesNotExist), pending_world).
Proof. apply (missing_batch_does_not_exist 7 healthy pending_world). reflexivity. Defined.

(** What a pattern load that returns has returned. *)
Lemma load_patterns_return env w patterns w' :
  DatabaseCategorizer._load_patterns env w = (Return patterns, w') ->
  patterns = effective_snapshot w /\ quiet w w'.
Proof.
  unfold DatabaseCategorizer._load_patterns, effective_snapshot, quiet.
  cbv [bind fault get_world put_world ret].
  destruct (env CacheGet); [discriminate|].
  destruct (cache w) as [cached|] eqn:Hc.
  - intros [= <- <-]. unfold effective_snapshot. rewrite Hc. auto.
  - destruct (env CategoryQuery); [discriminate|].
    destruct (env CacheSet); [discriminate|].
    intros [= <- <-]. unfold effective_snapshot. simpl. rewrite Hc. auto.
Qed.

Lemma categorize_return env w text c w' :
  DatabaseCategorizer.categorize text env w = (Return c, w') ->
  text <> "" ->
  c = categorize_with (effective_snapshot w) text /\ quiet w w'.
Proof.
  unfold DatabaseCategorizer.categorize, categorize_with.
  destruct (String.eqb_spec text "") as [->|_]; [congruence|].
  change DatabaseCategorizer.MIN_LENGTH with 3.
  destruct (Py.len (Py.strip (Py.lower text)) <? 3)%nat.
  - intros [= <- <-] _. split; [reflexivity|]. repeat split.
  - unfold bind, ret.
    destruct (DatabaseCategorizer._load_patterns env w) as [[p|e] w1] eqn:Hl;
      [|discriminate].
    intros [= <- <-] _. apply load_patterns_return in Hl as [-> Hq].
    now rewrite match_categories_first.
Qed.

Lemma enrich_transaction_return env w merchant_name description c w' :
  TransactionEnrichmentService.enrich_transaction DatabaseCategorizer_new
    merchant_name description env w = (Return c, w') ->
  c = enrich_with (effective_snapshot w) merchant_name description /\ quiet w w'.
Proof.
  unfold TransactionEnrichmentService.enrich_transaction, enrich_with.
  rewrite text_to_categorize_choice.
  set (text := if Py.truthy merchant_name then default "" merchant_name
               else if Py.truthy description then default "" description else "").
  unfold is_blank. destruct (String.eqb_spec (Py.strip text) "") as [Hb|Hb].
  - intros [= <- <-]. split; [reflexivity|]. repeat split.
  - assert (Hne : text <> "") by (intros ->; now apply Hb).
    unfold bind, ret. simpl.
    destruct (DatabaseCategorizer.categorize text env w) as [[c0|e] w1] eqn:Hc;
      [|discriminate].
    intros [= <- <-]. now apply categorize_return in Hc.
Qed.

Lemma enrich_loop_return env txns acc w objs w' :
  for_each txns (enrich_and_collect DatabaseCategorizer_new) acc env w
  = (Return objs, w') ->
  objs = (acc ++ map (fun r => (r.1, enriched (effective_snapshot w) r.2)) txns)%list
  /\ quiet w w'.
Proof.
  revert acc w. induction txns as [|txn txns IH]; intros acc w; simpl.
  - intros [= <- <-]. rewrite app_nil_r. split; [reflexivity|]. repeat split.
  - unfold bind at 1. unfold enrich_and_collect at 1. unfold bind at 1.
    destruct (TransactionEnrichmentService.enrich_transaction _ _ _ env w)
      as [[c|e] w1] eqn:He; [|discriminate].
    apply enrich_transaction_return in He as (-> & Hd1 & Hq1 & Hs1).
    unfold ret at 1. fold (enriched (effective_snapshot w) txn.2).
    intros H. apply IH in H as (-> & Hd2 & Hq2 & Hs2).
    rewrite Hs1, <- app_assoc. split; [reflexivity|].
    repeat split; congruence.
Qed.

(** The transactions table after a [try] block that returned. *)
Lemma enrich_batch_return_rows k env w w' :
  enrich_batch k env w = (Return tt, w') ->
  forall i x, transactions (db w) !! i = Some x ->
    transactions (db w') !! i
    = Some (if selected k x then enriched (effective_snapshot w) x else x).
Proof.
  cbv [enrich_batch Transaction_filter_pending bind get_world ret].
  destruct (for_each _ _ _ env w) as [[objs|e] w1] eqn:Hloop; [|discriminate].
  apply enrich_loop_return in Hloop as (Hobjs & Hd & _). simpl in Hobjs.
  destruct (Transaction_bulk_update objs env w1) as [[[]|e] w2] eqn:Hup;
    [|discriminate].
  cbv [Batch_save_status bind get_world put_world].
  intros [= <-] i x Hx. cbn [db transactions with_db with_batches mark_batch].
  pose proof (bulk_update_rows (effective_snapshot w) k (transactions (db w)) i x Hx)
    as Hrows. cbv zeta in Hrows.
  unfold selected in Hrows at 1. rewrite <- Hobjs in Hrows.
  assert (Hw2 : transactions (db w2)
                = fold_left write_enrichment objs (transactions (db w))).
  { revert Hup. unfold Transaction_bulk_update. destruct objs as [|o objs'].
    - intros [= <-]. rewrite Hd. simpl.
      destruct (List.filter _ (with_pk (transactions (db w)))); [|discriminate].
      reflexivity.
    - cbv [fault bind get_world put_world].
      destruct (env TransactionBulkUpdate); [discriminate|].
      intros [= <-]. cbn [db transactions with_db with_transactions]. now rewrite Hd. }
  rewrite Hw2. exact Hrows.
Qed.

(** The guard of [process_single_batch], as a lemma for the proofs below. *)
Lemma noop_statuses_return_unchanged k env w b :
  batches (db w) !! k = Some b ->
  Batch.status b = PROCESSING \/ Batch.status b = COMPLETED ->
  process_single_batch k env w = (Return tt, w).
Proof.
  intros Hb Hst.
  pose proof (process_single_batch_cases k env w) as H. rewrite Hb in H.
  destruct Hst as [-> | ->] in H; exact H.
Qed.

(** X2: a run of single-batch processing that returns leaves the batch
    [COMPLETED] or, if it was in progress, as it was; running it again,
    in any environment, returns at once and changes nothing. *)
Theorem process_single_batch_twice :
  forall (batch_id : nat) (env env' : Env) (w w1 : World),
    process_single_batch batch_id env w = (Return tt, w1) ->
    (status_of w1 batch_id = Some COMPLETED
     \/ status_of w1 batch_id = Some PROCESSING)
    /\ process_single_batch batch_id env' w1 = (Return tt, w1).
Proof.
  intros k env env' w w1 Hrun.
  pose proof (process_single_batch_cases k env w) as H.
  destruct (batches (db w) !! k) as [b|] eqn:Hb; [|rewrite Hrun in H; discriminate].
  assert (Hstatus : status_of w1 k = Some COMPLETED
                    \/ status_of w1 k = Some PROCESSING).
  { destruct (Batch.status b) eqn:Hst; simpl in H.
    - left. eapply process_single_batch_return; eauto.
    - left. rewrite Hrun in H. injection H as <-.
      unfold status_of. rewrite Hb. simpl. now rewrite Hst.
    - left. eapply process_single_batch_return; eauto.
    - right. rewrite Hrun in H. injection H as <-.
      unfold status_of. rewrite Hb. simpl. now rewrite Hst. }
  split; [exact Hstatus|].
  unfold status_of in Hstatus.
  destruct (batches (db w1) !! k) as [b1|] eqn:Hb1;
    [|destruct Hstatus; discriminate].
  apply (noop_statuses_return_unchanged k env' w1 b1 Hb1).
  simpl in Hstatus. destruct Hstatus as [[= ->]|[= ->]]; auto.
Qed.

Lemma process_single_batch_twice_witness :
  exists w1,
    process_single_batch 0 healthy pending_world = (Return tt, w1)
    /\ status_of w1 0 = Some COMPLETED
    /\ process_single_batch 0 cache_down w1 = (Return tt, w1).
Proof.
  destruct (process_single_batch 0 healthy pending_world) as [r w1] eqn:Hrun.
  assert (Hr : r = Return tt) by (now injection Hrun as <- _).
  subst r. exists w1.
  destruct (process_single_batch_twice 0 healthy cache_down pending_world w1 Hrun)
    as [_ Hagain].
  split; [reflexivity|]. split; [|exact Hagain].
  now injection Hrun as <-.
Defined.

Lemma set_status_same b : Batch.set_status (Batch.status b) b = b.
Proof. now destruct b. Qed.

Lemma set_enrichment_same x :
  Transaction.set_enrichment (Transaction.category x)
    (Transaction.ingestion_status x) x = x.
Proof. now destruct x. Qed.

Lemma enrich_batch_return_frame k env w w' :
  enrich_batch k env w = (Return tt, w') ->
  accounts (db w') = accounts (db w)
  /\ categories (db w') = categories (db w)
  /\ queue w' = queue w
  /\ length (transactions (db w')) = length (transactions (db w)).
Proof.
  cbv [enrich_batch Transaction_filter_pending bind get_world ret].
  destruct (for_each _ _ _ env w) as [[objs|e] w1] eqn:Hloop; [|discriminate].
  apply enrich_loop_frame in Hloop as [Hd Hq].
  destruct (Transaction_bulk_update objs env w1) as [[[]|e] w2] eqn:Hup;
    [|discriminate].
  cbv [Batch_save_status bind get_world put_world].
  intros [= <-]. cbn [db accounts categories transactions queue with_db
                      with_batches mark_batch].
  apply bulk_update_outcome in Hup as [-> | ->].
  - rewrite Hd, Hq. auto.
  - cbn [db accounts categories transactions queue with_db with_transactions].
    rewrite bulk_update_length, Hd, Hq. auto.
Qed.

(** X3: whatever its outcome, single-batch processing leaves accounts,
    categories and the task queue alone, adds or removes no row, changes
    no batch but its own and there only the status, changes no
    transaction outside the pending ones of its batch, and in a
    transaction it changes nothing but category and ingestion status. *)
Theorem process_single_batch_frame :
  forall (batch_id : nat) (env : Env) (w : World) (r : Result unit) (w' : World),
    process_single_batch batch_id env w = (r, w') ->
    accounts (db w') = accounts (db w)
    /\ categories (db w') = categories (db w)
    /\ queue w' = queue w
    /\ length (batches (db w')) = length (batches (db w))
    /\ length (transactions (db w')) = length (transactions (db w))
    /\ (forall j, j <> batch_id -> batches (db w') !! j = batches (db w) !! j)
    /\ (forall b, batches (db w) !! batch_id = Some b ->
                  exists s, batches (db w') !! batch_id = Some (Batch.set_status s b))
    /\ (forall i x, transactions (db w) !! i = Some x ->
                    selected batch_id x = false ->
                    transactions (db w') !! i = Some x)
    /\ (forall i x, transactions (db w) !! i = Some x ->
                    exists c s,
                      transactions (db w') !! i
                      = Some (Transaction.set_enrichment c s x)).
Proof.
  intros k env w r w' Hrun.
  assert (Hsame : db w' = db w /\ queue w' = queue w ->
          accounts (db w') = accounts (db w)
          /\ categories (db w') = categories (db w)
          /\ queue w' = queue w
          /\ length (batches (db w')) = length (batches (db w))
          /\ length (transactions (db w')) = length (transactions (db w))
          /\ (forall j, j <> k -> batches (db w') !! j = batches (db w) !! j)
          /\ (forall b, batches (db w) !! k = Some b ->
                        exists s, batches (db w') !! k = Some (Batch.set_status s b))
          /\ (forall i x, transactions (db w) !! i = Some x ->
                          selected k x = false ->
                          transactions (db w') !! i = Some x)
          /\ (forall i x, transactions (db w) !! i = Some x ->
                          exists c s,
                            transactions (db w') !! i
                            = Some (Transaction.set_enrichment c s x))).
  { intros [-> ->]. repeat split; auto.
    - intros b Hb. exists (Batch.status b). now rewrite set_status_same.
    - intros i x Hx. eexists _, _. now rewrite set_enrichment_same. }
  pose proof (process_single_batch_cases k env w) as H.
  destruct (batches (db w) !! k) as [b|] eqn:Hb.
  2: { apply Hsame. rewrite Hrun in H. injection H as _ <-. auto. }
  destruct (bool_decide (Batch.status b = PROCESSING)
            || bool_decide (Batch.status b = COMPLETED)).
  { apply Hsame. rewrite Hrun in H. injection H as _ <-. auto. }
  destruct (enrich_batch k env (mark_batch k PROCESSING w)) as [[[]|e] w2] eqn:He.
  2: { apply Hsame. assert (w' = with_db (db w) w2) by congruence. subst w'.
       split; [reflexivity|]. simpl.
       cbv [enrich_batch Transaction_filter_pending bind get_world ret] in He.
       destruct (for_each _ _ _ env (mark_batch k PROCESSING w))
         as [[objs|e1] w3] eqn:Hloop.
       - apply enrich_loop_frame in Hloop as [_ Hq].
         destruct (Transaction_bulk_update objs env w3) as [[[]|e2] w4] eqn:Hup.
         + revert He. cbv [Batch_save_status bind get_world put_world]. discriminate.
         + injection He as _ <-.
           apply bulk_update_outcome in Hup as [-> | ->]; exact Hq.
       - injection He as _ <-. now apply enrich_loop_frame in Hloop as [_ Hq]. }
  clear Hsame. assert (w' = w2) by congruence. subst w2.
  destruct (enrich_batch_return_frame _ _ _ _ He) as (Ha & Hc & Hq & Hlen).
  pose proof (enrich_batch_return_batches _ _ _ _ He) as Hbs.
  pose proof (enrich_batch_return_rows _ _ _ _ He) as Hrows.
  split; [exact Ha|]. split; [exact Hc|]. split; [exact Hq|].
  split; [rewrite Hbs, length_alter; unfold mark_batch; simpl; apply length_alter|].
  split; [exact Hlen|]. split; [|split; [|split]].
  - intros j Hj. rewrite Hbs, list_lookup_alter_ne by congruence.
    now apply mark_batch_other.
  - intros b0 Hb0. assert (b0 = b) by congruence. subst b0.
    exists COMPLETED. rewrite Hbs, list_lookup_alter.
    destruct (decide (k = k)); [|congruence].
    rewrite (mark_batch_status k PROCESSING w b Hb). reflexivity.
  - intros i x Hx Hsel. rewrite (Hrows i x Hx), Hsel. reflexivity.
  - intros i x Hx. rewrite (Hrows i x Hx).
    destruct (selected k x).
    + eexists _, _. reflexivity.
    + eexists _, _. now rewrite set_enrichment_same.
Qed.

Lemma process_single_batch_frame_witness :
  transactions (db (process_single_batch 0 healthy sweep_world).2) !! 0
  = transactions (db sweep_world) !! 0.
Proof.
  destruct (process_single_batch 0 healthy sweep_world) as [r w'] eqn:Hrun.
  destruct (process_single_batch_frame 0 healthy sweep_world r w' Hrun)
    as (_ & _ & _ & _ & _ & _ & _ & Hother & _).
  simpl. rewrite (Hother 0 _ eq_refl); reflexivity.
Defined.

(** X4: whenever a run on a [PENDING] or [FAILED] batch returns, in any
    environment, the batch is [COMPLETED], each of its pending
    transactions is [COMPLETED] with the category the snapshot in effect
    gives to its merchant name or description, every other transaction
    is as before, and no transaction of the batch is left [PENDING]. *)
Theorem returned_run_completes_the_batch :
  forall (batch_id : nat) (env : Env) (w w' : World) (batch : Batch.t),
    batches (db w) !! batch_id = Some batch ->
    Batch.status batch = PENDING \/ Batch.status batch = FAILED ->
    process_single_batch batch_id env w = (Return tt, w') ->
    status_of w' batch_id = Some COMPLETED
    /\ (forall i x, transactions (db w) !! i = Some x ->
          transactions (db w') !! i
          = Some (if selected batch_id x
                  then enriched (effective_snapshot w) x else x))
    /\ (forall i x', transactions (db w') !! i = Some x' ->
          Transaction.batch x' = Some batch_id ->
          Transaction.ingestion_status x' <> PENDING).
Proof.
  intros k env w w' b Hb Hst Hrun.
  destruct (process_single_batch_return k env w b w' Hb Hst Hrun) as [Hdone _].
  pose proof (process_single_batch_cases k env w) as H. rewrite Hb in H.
  assert (Hguard : bool_decide (Batch.status b = PROCESSING)
                   || bool_decide (Batch.status b = COMPLETED) = false)
    by (destruct Hst as [-> | ->]; reflexivity).
  rewrite Hguard in H.
  destruct (enrich_batch k env (mark_batch k PROCESSING w)) as [[[]|e] w2] eqn:He;
    [|rewrite Hrun in H; discriminate].
  assert (w' = w2) by congruence. subst w2.
  pose proof (enrich_batch_return_rows _ _ _ _ He) as Hrows.
  destruct (enrich_batch_return_frame _ _ _ _ He) as (_ & _ & _ & Hlen).
  split; [exact Hdone|]. split; [exact Hrows|].
  intros i x' Hx' Hbatch.
  assert (Hi : i < length (transactions (db w))).
  { apply lookup_lt_Some in Hx'. cbn [mark_batch db transactions with_db with_batches] in Hlen.
    lia. }
  apply lookup_lt_is_Some in Hi as [x Hx].
  pose proof (Hrows i x Hx) as Hx2.
  cbn [mark_batch db transactions with_db with_batches] in Hx2.
  rewrite Hx' in Hx2. injection Hx2 as ->.
  destruct (selected k x) eqn:Hsel; [discriminate|].
  unfold selected in Hsel. apply andb_false_iff in Hsel as [Hsel|Hsel].
  - apply bool_decide_eq_false in Hsel. contradiction.
  - now apply bool_decide_eq_false in Hsel.
Qed.

Lemma returned_run_completes_the_batch_witness :
  status_of (process_single_batch 0 healthy pending_world).2 0 = Some COMPLETED.
Proof.
  destruct (process_single_batch 0 healthy pending_world) as [r w'] eqn:Hrun.
  assert (Hr : r = Return tt) by (now injection Hrun as <- _). subst r.
  apply (returned_run_completes_the_batch 0 healthy pending_world w'
           (Batch.mk (Some "req_test_001") 1 PENDING 0) eq_refl
           (or_introl eq_refl) Hrun).
Defined.

(** X5: after a sweep no batch is [PENDING]; a second sweep, in any
    environment, finds nothing to do, returns zero counts and changes
    nothing. *)
Theorem sweep_leaves_no_pending_batch :
  forall (env env' : Env) (w : World) (r : Result Counts) (w' : World),
    process_pending_batches env w = (r, w') ->
    pending_batches (db w') = []
    /\ process_pending_batches env' w' = (Return (mkCounts 0 0), w').
Proof.
  intros env env' w r w' Hrun.
  destruct (sweep_loop env (pending_batches (db w)) (mkCounts 0 0) w
              (pending_batches_keys (db w)))
    as (c' & w1 & Hloop & _ & _ & _ & Hall & Hrest).
  { intros k b Hin. now apply pending_batches_elem. }
  assert (w' = w1).
  { revert Hrun. cbv [process_pending_batches bind get_world].
    destruct (pending_batches (db w)) eqn:Hpe.
    - simpl in Hloop. unfold ret in *. congruence.
    - rewrite Hloop. congruence. }
  subst w1.
  assert (Hempty : pending_batches (db w') = []).
  { destruct (pending_batches (db w')) as [|[k b'] rest] eqn:Hpe; [reflexivity|].
    exfalso.
    assert (Hin : (k, b') ∈ pending_batches (db w')) by (rewrite Hpe; left).
    apply pending_batches_elem in Hin as [Hb' Hst'].
    destruct (decide (k ∈ map fst (pending_batches (db w)))) as [Hk|Hk].
    - destruct (Hall k Hk) as [Hs|Hs]; unfold status_of in Hs;
        rewrite Hb' in Hs; simpl in Hs; congruence.
    - rewrite (Hrest k Hk) in Hb'. apply Hk.
      change k with (fst (k, b')). apply list_elem_of_fmap_2.
      now apply pending_batches_elem. }
  split; [exact Hempty|].
  cbv [process_pending_batches bind get_world]. now rewrite Hempty.
Qed.

Lemma sweep_leaves_no_pending_batch_witness :
  pending_batches (db (process_pending_batches cache_down sweep_world).2) = []
  /\ process_pending_batches healthy
       (process_pending_batches cache_down sweep_world).2
     = (Return (mkCounts 0 0), (process_pending_batches cache_down sweep_world).2).
Proof.
  destruct (process_pending_batches cache_down sweep_world) as [r w'] eqn:Hrun.
  exact (sweep_leaves_no_pending_batch cache_down healthy sweep_world r w' Hrun).
Defined.

(** ** The pattern cache and the categorizer *)

Lemma categorize_with_empty patterns : categorize_with patterns "" = "other".
Proof. reflexivity. Qed.

(** X6: while a snapshot sits in the cache, categorization answers from
    it alone: the result is the same whatever the database holds, so a
    change to the categories is not seen until the cache entry goes. *)
Theorem cached_snapshot_hides_the_database :
  forall (transaction_text : string) (env : Env) (w : World) (d : Database)
         (patterns : Snapshot),
    env CacheGet = false ->
    cache w = Some patterns ->
    DatabaseCategorizer.categorize transaction_text env (with_db d w)
    = (Return (categorize_with patterns transaction_text), with_db d w).
Proof.
  intros text env w d patterns Hg Hc.
  unfold DatabaseCategorizer.categorize.
  destruct (String.eqb_spec text "") as [->|Hne]; [reflexivity|].
  unfold categorize_with. change DatabaseCategorizer.MIN_LENGTH with 3.
  destruct (Py.len (Py.strip (Py.lower text)) <? 3)%nat; [reflexivity|].
  unfold bind, ret.
  rewrite (load_patterns_hit env (with_db d w) patterns Hg Hc).
  now rewrite match_categories_first.
Qed.

Lemma cached_snapshot_hides_the_database_witness :
  DatabaseCategorizer.categorize "Uber Trip" healthy
    (with_db (mkDatabase [] [] [] [])
             (with_cache (Some [("transport", ["uber"])]) uber_world))
  = (Return "transport",
     with_db (mkDatabase [] [] [] [])
             (with_cache (Some [("transport", ["uber"])]) uber_world)).
Proof.
  exact (cached_snapshot_hides_the_database "Uber Trip" healthy
           (with_cache (Some [("transport", ["uber"])]) uber_world)
           (mkDatabase [] [] [] []) [("transport", ["uber"])] eq_refl eq_refl).
Defined.

(** X7: after [refresh_cache] the next categorization rebuilds the
    snapshot from the categories now in the database, whatever was
    cached before, and answers from it. *)
Theorem refresh_cache_shows_the_database :
  forall (transaction_text : string) (env : Env) (w : World),
    env CacheGet = false -> env CategoryQuery = false -> env CacheSet = false ->
    ((DatabaseCategorizer.refresh_cache ;;;
      DatabaseCategorizer.categorize transaction_text) env w).1
    = Return (categorize_with
                (DatabaseCategorizer.build_patterns (categories (db w)))
                transaction_text).
Proof.
  intros text env w Hg Hq Hs.
  cbv [DatabaseCategorizer.refresh_cache bind get_world put_world].
  destruct (String.eqb_spec text "") as [->|Hne]; [reflexivity|].
  destruct (categorize_ok env (with_cache None w) text Hg Hq Hs Hne)
    as (w' & Hc & _).
  rewrite Hc. reflexivity.
Qed.

Lemma refresh_cache_shows_the_database_witness :
  ((DatabaseCategorizer.refresh_cache ;;;
    DatabaseCategorizer.categorize "Uber Trip") healthy
     (with_cache (Some [("food", ["uber"])]) uber_world)).1
  = Return "transport".
Proof.
  exact (refresh_cache_shows_the_database "Uber Trip" healthy
           (with_cache (Some [("food", ["uber"])]) uber_world)
           eq_refl eq_refl eq_refl).
Defined.

Lemma dict_set_keys {V} k (v : V) d key :
  key ∈ map fst (Py.dict_set k v d) -> key = k \/ key ∈ map fst d.
Proof.
  induction d as [|[k' v'] d IH]; simpl.
  - intros H. apply list_elem_of_singleton in H. now left.
  - destruct (String.eqb_spec k' k) as [->|Hne]; simpl.
    + intros H. apply elem_of_cons in H as [->|H]; [now left|].
      right. now right.
    + intros H. apply elem_of_cons in H as [->|H]; [right; left|].
      destruct (IH H) as [->|H']; [now left | right; now right].
Qed.

Lemma build_patterns_keys cats acc key :
  key ∈ map fst (fold_left DatabaseCategorizer.add_category cats acc) ->
  key ∈ map fst acc
  \/ exists c, c ∈ cats /\ key = Py.lower (Category.name c).
Proof.
  revert acc. induction cats as [|c cats IH]; intros acc; simpl; [now left|].
  intros H. apply IH in H as [H|(c' & Hc' & ->)].
  - rewrite add_category_entry in H. apply dict_set_keys in H as [->|H].
    + right. exists c. split; [left | reflexivity].
    + now left.
  - right. exists c'. split; [now right | reflexivity].
Qed.

Lemma first_matching_category_key text snapshot :
  first_matching_category text snapshot = "other"
  \/ first_matching_category text snapshot ∈ map fst snapshot.
Proof.
  unfold first_matching_category.
  destruct (List.find _ snapshot) as [entry|] eqn:Hf; [|now left].
  right. apply find_some in Hf as [Hin _].
  apply list_elem_of_fmap_2. now apply list_elem_of_In.
Qed.

(** X8: a category returned by [categorize] is ["other"] or a key of the
    snapshot in effect; with an empty cache it is ["other"] or the
    lowercased name of a category in the database. *)
Theorem categorize_returns_other_or_a_category :
  forall (transaction_text : string) (env : Env) (w : World)
         (category : string) (w' : World),
    DatabaseCategorizer.categorize transaction_text env w = (Return category, w') ->
    (category = "other" \/ category ∈ map fst (effective_snapshot w))
    /\ (cache w = None ->
        category = "other"
        \/ exists c, c ∈ categories (db w)
                     /\ category = Py.lower (Category.name c)).
Proof.
  intros text env w c w' Hrun.
  assert (Hc : c = categorize_with (effective_snapshot w) text).
  { destruct (String.eqb_spec text "") as [->|Hne].
    - unfold DatabaseCategorizer.categorize in Hrun. simpl in Hrun.
      now injection Hrun as <- _.
    - now apply categorize_return in Hrun as [-> _]. }
  assert (Hkey : c = "other" \/ c ∈ map fst (effective_snapshot w)).
  { rewrite Hc. unfold categorize_with.
    destruct (Py.len _ <? 3)%nat; [now left|].
    apply first_matching_category_key. }
  split; [exact Hkey|].
  intros Hnone. destruct Hkey as [->|Hkey]; [now left|].
  unfold effective_snapshot in Hkey. rewrite Hnone in Hkey.
  apply build_patterns_keys in Hkey as [Hkey|Hkey]; [inversion Hkey | now right].
Qed.

Lemma categorize_returns_other_or_a_category_witness :
  "transport" = "other"
  \/ exists c, c ∈ categories (db uber_world)
               /\ "transport" = Py.lower (Category.name c).
Proof.
  destruct (DatabaseCategorizer.categorize "Uber Trip" healthy uber_world)
    as [r w'] eqn:Hrun.
  assert (Hr : r = Return "transport") by (now injection Hrun as <- _). subst r.
  destruct (categorize_returns_other_or_a_category "Uber Trip" healthy uber_world
              "transport" w' Hrun) as [_ H].
  apply H. reflexivity.
Defined.

Lemma find_first_at_or_before {A} (f : A -> bool) l i x :
  l !! i = Some x -> f x = true ->
  exists j y, j <= i /\ l !! j = Some y /\ List.find f l = Some y.
Proof.
  revert i. induction l as [|a l IH]; intros i Hi Hx; [discriminate|].
  simpl. destruct (f a) eqn:Ha.
  - exists 0, a. split; [lia|]. split; reflexivity.
  - destruct i as [|i]; [simpl in Hi; congruence|].
    destruct (IH i Hi Hx) as (j & y & Hj & Hy & Hf).
    exists (S j), y. split; [lia|]. split; [exact Hy | exact Hf].
Qed.

(** X9: with an empty cache, distinct lowercased category names and a
    text of at least three characters once normalised: when a stored
    pattern of a category, itself at least three characters long once
    trimmed, occurs in the text or contains the text, the text is given
    the name of that category or of one stored before it, never
    ["other"] by default. *)
Theorem matching_pattern_is_found :
  forall (transaction_text : string) (env : Env) (w : World)
         (i : nat) (c : Category.t) (p : string),
    env CacheGet = false -> env CategoryQuery = false -> env CacheSet = false ->
    cache w = None ->
    NoDup (map (fun c => Py.lower (Category.name c)) (categories (db w))) ->
    categories (db w) !! i = Some c ->
    In p (Category.patterns c) ->
    (3 <= Py.len (Py.strip p))%nat ->
    (3 <= Py.len (Py.strip (Py.lower transaction_text)))%nat ->
    pattern_matches (Py.strip (Py.lower transaction_text))
                    (Py.strip (Py.lower p)) = true ->
    exists j c',
      j <= i /\ categories (db w) !! j = Some c'
      /\ (DatabaseCategorizer.categorize transaction_text env w).1
         = Return (Py.lower (Category.name c')).
Proof.
  intros text env w i c p Hg Hq Hs Hnone Hnd Hi Hp Hplen Htlen Hmatch.
  assert (Hne : text <> "") by (intros ->; simpl in Htlen; lia).
  destruct (categorize_ok env w text Hg Hq Hs Hne) as (w' & Hrun & _).
  rewrite Hrun. simpl.
  unfold effective_snapshot. rewrite Hnone, (build_patterns_distinct _ Hnd).
  unfold categorize_with.
  destruct (Nat.ltb_spec (Py.len (Py.strip (Py.lower text))) 3); [lia|].
  unfold first_matching_category.
  destruct (find_first_at_or_before
              (fun entry => existsb (pattern_matches (Py.strip (Py.lower text))) entry.2)
              (map snapshot_entry (categories (db w))) i (snapshot_entry c))
    as (j & y & Hj & Hy & Hfind).
  - rewrite list_lookup_fmap, Hi. reflexivity.
  - apply existsb_exists. exists (Py.strip (Py.lower p)). split; [|exact Hmatch].
    unfold snapshot_entry. cbn [snd].
    apply (Permutation_in _ (Permutation_sym (sort_by_len_desc_perm _))).
    apply in_map_iff. exists p. split; [reflexivity|].
    apply filter_In. split; [exact Hp|]. now apply Nat.leb_le.
  - rewrite list_lookup_fmap in Hy.
    destruct (categories (db w) !! j) as [c'|] eqn:Hc'; [|discriminate].
    injection Hy as <-. exists j, c'. rewrite Hfind. auto.
Qed.

Lemma matching_pattern_is_found_witness :
  exists j c',
    j <= 1 /\ categories (db uber_world) !! j = Some c'
    /\ (DatabaseCategorizer.categorize "Uber Trip" healthy uber_world).1
       = Return (Py.lower (Category.name c')).
Proof.
  apply (matching_pattern_is_found "Uber Trip" healthy uber_world 1
           (Category.mk "transport" ["uber"; "lyft"]) "uber");
    try reflexivity.
  - apply (bool_decide_unpack _). vm_compute. exact I.
  - left. reflexivity.
  - vm_compute. lia.
  - vm_compute. lia.
Defined.

(** ** Ingestion: what a request stores *)

Lemma accounts_accepted_spec validated_data :
  forallb BatchIngestionRequestSerializer.statement_accepted
    (BatchIngestionRequestSerializer.slices 500
       (map BatchIngestionRequestSerializer.account_object
            (ValidatedData.accounts validated_data))) = true
  <-> no_repeated_account validated_data.
Proof.
  unfold no_repeated_account. rewrite forallb_forall, Forall_forall. split.
  - intros H batch Hin. apply list_elem_of_In in Hin.
    specialize (H batch Hin).
    unfold BatchIngestionRequestSerializer.statement_accepted in H.
    now apply bool_decide_eq_true in H.
  - intros H batch Hin. apply list_elem_of_In in Hin.
    apply bool_decide_eq_true. exact (H batch Hin).
Qed.

Lemma integer_in_range_spec validated_data :
  BatchIngestionRequestSerializer.integer_in_range
    (ValidatedData.total_transactions validated_data) = true
  <-> total_fits_column validated_data.
Proof.
  unfold BatchIngestionRequestSerializer.integer_in_range, total_fits_column. lia.
Qed.

(** What [create] does when the services behind it work. *)
Lemma create_outcome validated_data now env w :
  env AccountBulkCreate = false -> env BatchCreate = false ->
  env TransactionBulkCreate = false ->
  BatchIngestionRequestSerializer.create validated_data now env w
  = if forallb BatchIngestionRequestSerializer.statement_accepted
         (BatchIngestionRequestSerializer.slices 500
            (map BatchIngestionRequestSerializer.account_object
                 (ValidatedData.accounts validated_data)))
    then
      if BatchIngestionRequestSerializer.integer_in_range
           (ValidatedData.total_transactions validated_data)
      then (Return (length (batches (db w)),
                    Batch.mk (ValidatedData.request_id validated_data)
                             (ValidatedData.total_transactions validated_data)
                             PENDING now),
            with_db (ingested validated_data now (db w)) w)
      else (Raise DataError, w)
    else (Raise ProgrammingError, w).
Proof.
  intros Ha Hb Ht.
  cbv [BatchIngestionRequestSerializer.create atomic
       BatchIngestionRequestSerializer.create_body bind
       BatchIngestionRequestSerializer.Account_bulk_create
       BatchIngestionRequestSerializer.Batch_create
       BatchIngestionRequestSerializer.Transaction_bulk_create
       fault get_world put_world ret raise ingested].
  destruct (map _ (ValidatedData.accounts validated_data)) eqn:Eacc;
    rewrite ?Ha, ?Hb;
    [change (BatchIngestionRequestSerializer.slices 500 (@nil Account.t)) with (@nil (list Account.t));
     cbn [forallb]
    |destruct (forallb BatchIngestionRequestSerializer.statement_accepted _);
     [|destruct w as [[] ? ?]; reflexivity]];
    rewrite ?Hb;
    (destruct (BatchIngestionRequestSerializer.integer_in_range _);
     [|destruct w as [[] ? ?]; reflexivity]);
    cbn [fst snd];
    (destruct (map _ (ValidatedData.transactions validated_data)) eqn:Etx;
     rewrite ?Ht; simpl; destruct w as [[] ? ?]; reflexivity).
Qed.

(** What [create] has done when it returns. *)
Lemma create_returned validated_data now env w batch w' :
  BatchIngestionRequestSerializer.create validated_data now env w
  = (Return batch, w') ->
  db w' = ingested validated_data now (db w)
  /\ batch.1 = length (batches (db w)).
Proof.
  cbv [BatchIngestionRequestSerializer.create atomic
       BatchIngestionRequestSerializer.create_body bind
       BatchIngestionRequestSerializer.Account_bulk_create
       BatchIngestionRequestSerializer.Batch_create
       BatchIngestionRequestSerializer.Transaction_bulk_create
       fault get_world put_world ret raise ingested].
  destruct (map _ (ValidatedData.accounts validated_data));
    [|destruct (env AccountBulkCreate); [discriminate|];
      destruct (forallb BatchIngestionRequestSerializer.statement_accepted _);
      [|discriminate]];
    (destruct (env BatchCreate); [discriminate|]);
    (destruct (BatchIngestionRequestSerializer.integer_in_range _); [|discriminate]);
    cbn [fst snd];
    (destruct (map _ (ValidatedData.transactions validated_data));
     [|destruct (env TransactionBulkCreate); [discriminate|]]);
    intros [= <- <-]; destruct w as [[] ? ?]; split; reflexivity.
Qed.

Lemma create_return validated_data now env w :
  env AccountBulkCreate = false -> env BatchCreate = false ->
  env TransactionBulkCreate = false ->
  no_repeated_account validated_data -> total_fits_column validated_data ->
  BatchIngestionRequestSerializer.create validated_data now env w
  = (Return (length (batches (db w)),
             Batch.mk (ValidatedData.request_id validated_data)
                      (ValidatedData.total_transactions validated_data)
                      PENDING now),
     with_db (ingested validated_data now (db w)) w).
Proof.
  intros Ha Hb Ht Hacc Htotal. rewrite (create_outcome _ _ _ _ Ha Hb Ht).
  apply accounts_accepted_spec in Hacc. apply integer_in_range_spec in Htotal.
  now rewrite Hacc, Htotal.
Qed.

Lemma create_refused validated_data now env w :
  env AccountBulkCreate = false -> env BatchCreate = false ->
  env TransactionBulkCreate = false ->
  ~ (no_repeated_account validated_data /\ total_fits_column validated_data) ->
  exists e,
    BatchIngestionRequestSerializer.create validated_data now env w = (Raise e, w).
Proof.
  intros Ha Hb Ht Hno. rewrite (create_outcome _ _ _ _ Ha Hb Ht).
  destruct (forallb _ _) eqn:Hacc; [|eauto].
  destruct (BatchIngestionRequestSerializer.integer_in_range _) eqn:Htotal; [|eauto].
  exfalso. apply Hno. split;
    [now apply accounts_accepted_spec | now apply integer_in_range_spec].
Qed.

(** X10: a valid payload with every service up, no account id twice
    among the accounts of one statement (500 at a time) and a declared
    total within 32 bits is answered 202 with the id of a new batch and
    the declared total; the batch row is appended as [PENDING] with that
    declared total (whatever the number of transactions sent), its id is
    queued for processing, and older batches, the categories and the
    pattern cache are untouched.  A valid payload that repeats an account
    id within a statement, or declares a total outside 32 bits, is
    refused by the database: the answer is 500 and nothing is stored or
    queued. *)
Theorem accepted_request_creates_a_pending_batch :
  forall (data : RawRequest.t) (now : Z) (env : Env) (w : World)
         (validated_data : ValidatedData.t),
    BatchIngestionRequestSerializer.is_valid data = Some validated_data ->
    env AccountBulkCreate = false -> env BatchCreate = false ->
    env TransactionBulkCreate = false -> env TaskDelay = false ->
    let batch_id := length (batches (db w)) in
    (no_repeated_account validated_data -> total_fits_column validated_data ->
     exists w',
       BatchIngestionView.post data now env w
       = (Return (HTTP_202_ACCEPTED batch_id
                    (ValidatedData.total_transactions validated_data)), w')
       /\ db w' = ingested validated_data now (db w)
       /\ batches (db w') !! batch_id
          = Some (Batch.mk (ValidatedData.request_id validated_data)
                           (ValidatedData.total_transactions validated_data)
                           PENDING now)
       /\ (forall j b, batches (db w) !! j = Some b -> batches (db w') !! j = Some b)
       /\ queue w' = (queue w ++ [batch_id])%list
       /\ cache w' = cache w
       /\ categories (db w') = categories (db w))
    /\ (~ (no_repeated_account validated_data /\ total_fits_column validated_data) ->
        BatchIngestionView.post data now env w
        = (Return HTTP_500_INTERNAL_SERVER_ERROR, w)).
Proof.
  intros data now env w v Hv Ha Hb Ht Hd batch_id. split.
  - intros Hacc Htotal. eexists. split.
    + cbv [BatchIngestionView.post try_except bind ret BatchIngestionView.delay
           fault get_world put_world].
      rewrite Hv, (create_return v now env w Ha Hb Ht Hacc Htotal), Hd. reflexivity.
    + cbn [db queue cache with_db ingested batches categories].
      split; [reflexivity|]. split; [|split; [|auto]].
      * rewrite lookup_app_r by reflexivity.
        unfold batch_id. now rewrite Nat.sub_diag.
      * intros j b Hj. now apply lookup_app_l_Some.
  - intros Hno. destruct (create_refused v now env w Ha Hb Ht Hno) as [e He].
    cbv [BatchIngestionView.post try_except bind ret].
    now rewrite Hv, He.
Qed.

Lemma accepted_request_creates_a_pending_batch_witness :
  (exists w',
      BatchIngestionView.post sample_request 100 healthy pending_world
      = (Return (HTTP_202_ACCEPTED 1 2), w')
      /\ batches (db w') !! 1 = Some (Batch.mk (Some "req_test_001") 2 PENDING 100)
      /\ queue w' = [1])
  /\ BatchIngestionView.post repeated_account_request 100 healthy pending_world
     = (Return HTTP_500_INTERNAL_SERVER_ERROR, pending_world).
Proof.
  split.
  - destruct (BatchIngestionRequestSerializer.is_valid sample_request)
      as [v|] eqn:Hv; [|discriminate Hv].
    destruct (accepted_request_creates_a_pending_batch sample_request 100 healthy
                pending_world v Hv eq_refl eq_refl eq_refl eq_refl)
      as [Hok _].
    injection Hv as <-.
    destruct Hok as (w' & Hpost & _ & Hbatch & _ & Hqueue & _).
    + apply accounts_accepted_spec. vm_compute. reflexivity.
    + unfold total_fits_column. simpl. lia.
    + exists w'. split; [exact Hpost|]. split; [exact Hbatch | exact Hqueue].
  - destruct (BatchIngestionRequestSerializer.is_valid repeated_account_request)
      as [v|] eqn:Hv; [|discriminate Hv].
    destruct (accepted_request_creates_a_pending_batch repeated_account_request 100
                healthy pending_world v Hv eq_refl eq_refl eq_refl eq_refl)
      as [_ Hrefused].
    apply Hrefused. injection Hv as <-. intros [Hacc _].
    apply accounts_accepted_spec in Hacc. vm_compute in Hacc. discriminate Hacc.
Defined.

(** X11: for a valid payload that the database accepts (no account id
    twice within a statement, a total within 32 bits), when handing the
    batch to the broker fails the request is answered 500 although the
    write was committed: accounts, batch and transactions are stored,
    nothing is queued, and the new batch is among the pending batches a
    later sweep will take. *)
Theorem broker_failure_leaves_a_pending_batch :
  forall (data : RawRequest.t) (now : Z) (env : Env) (w : World)
         (validated_data : ValidatedData.t),
    BatchIngestionRequestSerializer.is_valid data = Some validated_data ->
    no_repeated_account validated_data -> total_fits_column validated_data ->
    env AccountBulkCreate = false -> env BatchCreate = false ->
    env TransactionBulkCreate = false -> env TaskDelay = true ->
    exists w',
      BatchIngestionView.post data now env w
      = (Return HTTP_500_INTERNAL_SERVER_ERROR, w')
      /\ db w' = ingested validated_data now (db w)
      /\ queue w' = queue w
      /\ (length (batches (db w)),
          Batch.mk (ValidatedData.request_id validated_data)
                   (ValidatedData.total_transactions validated_data)
                   PENDING now) ∈ pending_batches (db w').
Proof.
  intros data now env w v Hv Hacc Htotal Ha Hb Ht Hd.
  eexists. split.
  - cbv [BatchIngestionView.post try_except bind ret BatchIngestionView.delay
         fault get_world put_world].
    rewrite Hv, (create_return v now env w Ha Hb Ht Hacc Htotal), Hd. reflexivity.
  - cbn [db queue with_db]. split; [reflexivity|]. split; [reflexivity|].
    apply pending_batches_elem. split; [|reflexivity].
    cbn [ingested batches]. rewrite lookup_app_r by reflexivity.
    now rewrite Nat.sub_diag.
Qed.

Lemma broker_failure_leaves_a_pending_batch_witness :
  exists w',
    BatchIngestionView.post sample_request 100 broker_down pending_world
    = (Return HTTP_500_INTERNAL_SERVER_ERROR, w')
    /\ length (batches (db w')) = 2
    /\ queue w' = [].
Proof.
  destruct (BatchIngestionRequestSerializer.is_valid sample_request)
    as [v|] eqn:Hv; [|discriminate Hv].
  assert (Hacc : no_repeated_account v).
  { injection Hv as <-. apply accounts_accepted_spec. vm_compute. reflexivity. }
  assert (Htotal : total_fits_column v).
  { injection Hv as <-. unfold total_fits_column. simpl. lia. }
  destruct (broker_failure_leaves_a_pending_batch sample_request 100 broker_down
              pending_world v Hv Hacc Htotal eq_refl eq_refl eq_refl eq_refl)
    as (w' & Hpost & Hdb & Hqueue & _).
  exists w'. split; [exact Hpost|]. split; [|exact Hqueue].
  rewrite Hdb. injection Hv as <-. reflexivity.
Defined.

Lemma find_app_last {A} (f : A -> bool) l a :
  List.find f (l ++ [a])
  = match List.find f l with
    | Some x => Some x
    | None => if f a then Some a else None
    end.
Proof.
  induction l as [|x l IH]; simpl; [reflexivity|].
  destruct (f x); [reflexivity | exact IH].
Qed.

Lemma Account_get_upsert a table account_id :
  Account_get account_id (BatchIngestionRequestSerializer.upsert_account a table)
  = if String.eqb (Account.account_id a) account_id then Some a
    else Account_get account_id table.
Proof.
  unfold Account_get. induction table as [|row table IH]; simpl.
  - now destruct (String.eqb (Account.account_id a) account_id).
  - destruct (String.eqb_spec (Account.account_id row) (Account.account_id a))
      as [Heq|Hne]; simpl.
    + rewrite Heq.
      now destruct (String.eqb (Account.account_id a) account_id).
    + destruct (String.eqb_spec (Account.account_id row) account_id) as [Hr|Hr].
      * destruct (String.eqb_spec (Account.account_id a) account_id);
          [congruence | reflexivity].
      * exact IH.
Qed.

Lemma Account_get_bulk objs table account_id :
  Account_get account_id
    (fold_left (fun table a => BatchIngestionRequestSerializer.upsert_account a table)
               objs table)
  = match Account_get account_id (rev objs) with
    | Some a => Some a
    | None => Account_get account_id table
    end.
Proof.
  revert table. induction objs as [|a objs IH]; intros table; simpl; [reflexivity|].
  rewrite IH, Account_get_upsert.
  assert (Hlast : Account_get account_id (rev objs ++ [a])
                  = match Account_get account_id (rev objs) with
                    | Some x => Some x
                    | None => if String.eqb (Account.account_id a) account_id
                              then Some a else None
                    end)
    by apply (find_app_last
                (fun row => String.eqb (Account.account_id row) account_id)).
  rewrite Hlast.
  destruct (Account_get account_id (rev objs)); [reflexivity|].
  now destruct (String.eqb (Account.account_id a) account_id).
Qed.

Lemma upsert_account_ids a table :
  map Account.account_id (BatchIngestionRequestSerializer.upsert_account a table)
  = if existsb (fun row => String.eqb (Account.account_id row) (Account.account_id a))
               table
    then map Account.account_id table
    else (map Account.account_id table ++ [Account.account_id a])%list.
Proof.
  induction table as [|row table IH]; simpl; [reflexivity|].
  destruct (String.eqb_spec (Account.account_id row) (Account.account_id a))
    as [Heq|Hne]; simpl.
  - now rewrite Heq.
  - rewrite IH. now destruct (existsb _ table).
Qed.

Lemma upsert_account_unique a table :
  NoDup (map Account.account_id table) ->
  NoDup (map Account.account_id
           (BatchIngestionRequestSerializer.upsert_account a table)).
Proof.
  intros Hnd. rewrite upsert_account_ids.
  destruct (existsb _ table) eqn:Hex; [exact Hnd|].
  apply NoDup_app. split; [exact Hnd|]. split; [|apply NoDup_singleton].
  intros id Hin Hin'. apply list_elem_of_singleton in Hin'. subst id.
  apply list_elem_of_fmap in Hin as (row & Hid & Hrow).
  assert (existsb (fun row => String.eqb (Account.account_id row)
                                         (Account.account_id a)) table = true).
  { apply existsb_exists. exists row. split; [now apply list_elem_of_In|].
    rewrite <- Hid. apply String.eqb_refl. }
  congruence.
Qed.

Lemma upsert_account_position a table i row :
  table !! i = Some row ->
  exists row',
    BatchIngestionRequestSerializer.upsert_account a table !! i = Some row'
    /\ Account.account_id row' = Account.account_id row.
Proof.
  revert i. induction table as [|r table IH]; intros i Hi; [discriminate|].
  simpl. destruct (String.eqb_spec (Account.account_id r) (Account.account_id a))
    as [Heq|Hne].
  - destruct i as [|i]; simpl in *.
    + injection Hi as <-. eauto.
    + eauto.
  - destruct i as [|i]; simpl in *; [eauto | now apply IH].
Qed.

(** X12: the account upsert of a request that is stored.  Looking an
    account up by its id afterwards gives the last account of the
    payload with that id, and the row stored before when the payload
    has none; every row stored before keeps its position and its id, so
    no second row appears for an id, and unique ids stay unique. *)
Theorem account_upsert_round_trip :
  forall (validated_data : ValidatedData.t) (now : Z) (env : Env)
         (w : World) (batch : nat * Batch.t) (w' : World),
    BatchIngestionRequestSerializer.create validated_data now env w
    = (Return batch, w') ->
    let payload :=
      map BatchIngestionRequestSerializer.account_object
          (ValidatedData.accounts validated_data) in
    (forall account_id,
        Account_get account_id (accounts (db w'))
        = match Account_get account_id (rev payload) with
          | Some a => Some a
          | None => Account_get account_id (accounts (db w))
          end)
    /\ (forall i row, accounts (db w) !! i = Some row ->
          exists row', accounts (db w') !! i = Some row'
                       /\ Account.account_id row' = Account.account_id row)
    /\ (NoDup (map Account.account_id (accounts (db w))) ->
        NoDup (map Account.account_id (accounts (db w')))).
Proof.
  intros v now env w batch w' Hrun payload.
  assert (Hacc : accounts (db w')
                 = fold_left (fun table a =>
                                BatchIngestionRequestSerializer.upsert_account a table)
                             payload (accounts (db w))).
  { rewrite (proj1 (create_returned _ _ _ _ _ _ Hrun)). reflexivity. }
  rewrite Hacc. split; [|split].
  - intros account_id. apply Account_get_bulk.
  - clear Hacc. generalize (accounts (db w)).
    induction payload as [|a rest IH]; intros table i row Hi; simpl; [eauto|].
    destruct (upsert_account_position a table i row Hi) as (r1 & Hr1 & Hid1).
    destruct (IH _ i r1 Hr1) as (r2 & Hr2 & Hid2).
    exists r2. split; [exact Hr2 | congruence].
  - clear Hacc. generalize (accounts (db w)).
    induction payload as [|a rest IH]; intros table Hnd; simpl; [exact Hnd|].
    apply IH. now apply upsert_account_unique.
Qed.

Lemma account_upsert_round_trip_witness :
  Account_get "acc_123"
    (accounts
       (db (BatchIngestionRequestSerializer.create sample_validated 100 healthy
              renamed_account_world).2))
  = Some (Account.mk "acc_123" "Chase Checking" "depository"
                     (Some "checking") (Some "1234"))
  /\ length (accounts
               (db (BatchIngestionRequestSerializer.create sample_validated 100
                      healthy renamed_account_world).2)) = 1.
Proof.
  destruct (BatchIngestionRequestSerializer.create sample_validated 100 healthy
              renamed_account_world) as [[b|e] w1] eqn:Hc; [|discriminate Hc].
  destruct (account_upsert_round_trip sample_validated 100 healthy
              renamed_account_world b w1 Hc) as (Hget & _).
  split; [exact (Hget "acc_123")|].
  now injection Hc as _ <-.
Defined.

Lemma find_none_existsb {A} (f : A -> bool) l :
  List.find f l = None <-> existsb f l = false.
Proof.
  induction l as [|x l IH]; simpl; [tauto|].
  destruct (f x); simpl; [split; discriminate | exact IH].
Qed.

Lemma Transaction_get_insert table x transaction_id :
  Transaction_get transaction_id
    (BatchIngestionRequestSerializer.insert_or_ignore table x)
  = match Transaction_get transaction_id table with
    | Some row => Some row
    | None => if String.eqb (Transaction.transaction_id x) transaction_id
              then Some x else None
    end.
Proof.
  unfold BatchIngestionRequestSerializer.insert_or_ignore.
  destruct (existsb _ table) eqn:Hex.
  - destruct (Transaction_get transaction_id table) eqn:Hget; [reflexivity|].
    destruct (String.eqb_spec (Transaction.transaction_id x) transaction_id)
      as [Heq|_]; [|reflexivity].
    apply find_none_existsb in Hget. rewrite Heq in Hex. congruence.
  - apply (find_app_last
             (fun row => String.eqb (Transaction.transaction_id row) transaction_id)).
Qed.

Lemma Transaction_get_bulk objs table transaction_id :
  Transaction_get transaction_id
    (fold_left BatchIngestionRequestSerializer.insert_or_ignore objs table)
  = match Transaction_get transaction_id table with
    | Some row => Some row
    | None => Transaction_get transaction_id objs
    end.
Proof.
  revert table. induction objs as [|x objs IH]; intros table; simpl.
  - now destruct (Transaction_get transaction_id table).
  - rewrite IH, Transaction_get_insert.
    destruct (Transaction_get transaction_id table); [reflexivity|].
    now destruct (String.eqb (Transaction.transaction_id x) transaction_id).
Qed.

(** X13: the transactions of a request that is stored.  Looking a
    transaction up by its id afterwards gives the row stored before when
    there was one, and otherwise the first transaction of the payload
    with that id; such a new row belongs to the new batch, is [PENDING]
    and has no category. *)
Theorem transaction_insert_round_trip :
  forall (validated_data : ValidatedData.t) (now : Z) (env : Env)
         (w : World) (batch : nat * Batch.t) (w' : World),
    BatchIngestionRequestSerializer.create validated_data now env w
    = (Return batch, w') ->
    let payload :=
      map (BatchIngestionRequestSerializer.transaction_object
             (length (batches (db w))))
          (ValidatedData.transactions validated_data) in
    batch.1 = length (batches (db w))
    /\ (forall transaction_id,
          Transaction_get transaction_id (transactions (db w'))
          = match Transaction_get transaction_id (transactions (db w)) with
            | Some row => Some row
            | None => Transaction_get transaction_id payload
            end)
    /\ (forall transaction_id row,
          Transaction_get transaction_id (transactions (db w)) = None ->
          Transaction_get transaction_id (transactions (db w')) = Some row ->
          Transaction.batch row = Some batch.1
          /\ Transaction.ingestion_status row = PENDING
          /\ Transaction.category row = None).
Proof.
  intros v now env w batch w' Hrun payload.
  assert (Htx : batch.1 = length (batches (db w))
                /\ transactions (db w')
                   = fold_left BatchIngestionRequestSerializer.insert_or_ignore
                               payload (transactions (db w))).
  { destruct (create_returned _ _ _ _ _ _ Hrun) as [Hdb Hb].
    split; [exact Hb|]. rewrite Hdb. reflexivity. }
  destruct Htx as [Hid Htx]. split; [exact Hid|].
  assert (Hget : forall transaction_id,
            Transaction_get transaction_id (transactions (db w'))
            = match Transaction_get transaction_id (transactions (db w)) with
              | Some row => Some row
              | None => Transaction_get transaction_id payload
              end).
  { intros tid. rewrite Htx. apply Transaction_get_bulk. }
  split; [exact Hget|].
  intros tid row Hold Hnew. rewrite Hget, Hold in Hnew.
  apply find_some in Hnew as [Hin _].
  apply in_map_iff in Hin as (t & <- & _). rewrite Hid. auto.
Qed.

Lemma transaction_insert_round_trip_witness :
  Transaction.merchant_name
  <$> Transaction_get "txn_002"
        (transactions
           (db (BatchIngestionRequestSerializer.create sample_validated 100 healthy
                  pending_world).2))
  = Some (Some "Uber")
  /\ Transaction.batch
     <$> Transaction_get "txn_001"
           (transactions
              (db (BatchIngestionRequestSerializer.create sample_validated 100
                     healthy pending_world).2))
     = Some (Some 1).
Proof.
  destruct (BatchIngestionRequestSerializer.create sample_validated 100 healthy
              pending_world) as [[b|e] w1] eqn:Hc; [|discriminate Hc].
  destruct (transaction_insert_round_trip sample_validated 100 healthy
              pending_world b w1 Hc) as (_ & Hget & _).
  cbn [snd]. rewrite (Hget "txn_002"), (Hget "txn_001"). split; reflexivity.
Defined.

(** ** Ingestion: what validation hands on *)

Lemma rstrip_idem s : Py.rstrip (Py.rstrip s) = Py.rstrip s.
Proof.
  induction s as [|c s IH]; simpl; [reflexivity|].
  destruct (Py.rstrip s) as [|c' r] eqn:Hr.
  - destruct (Py.isspace c) eqn:Hc; simpl; [reflexivity | now rewrite Hc].
  - simpl in *. now rewrite IH.
Qed.

Lemma lstrip_head s :
  Py.lstrip s = "" \/ exists c r, Py.lstrip s = String c r /\ Py.isspace c = false.
Proof.
  induction s as [|c s IH]; simpl; [now left|].
  destruct (Py.isspace c) eqn:Hc; [exact IH | right; eauto].
Qed.

Lemma rstrip_keeps_head c r :
  Py.isspace c = false -> exists r', Py.rstrip (String c r) = String c r'.
Proof.
  intros Hc. simpl. destruct (Py.rstrip r); [rewrite Hc|]; eauto.
Qed.

Lemma strip_idem s : Py.strip (Py.strip s) = Py.strip s.
Proof.
  unfold Py.strip.
  destruct (lstrip_head s) as [->|(c & r & -> & Hc)]; [reflexivity|].
  destruct (rstrip_keeps_head c r Hc) as (r' & Hr). rewrite Hr.
  simpl Py.lstrip. rewrite Hc, <- Hr. apply rstrip_idem.
Qed.

Lemma CharField_some n v s :
  CharField n v = Some s -> trimmed_within n s /\ s <> "".
Proof.
  unfold CharField, trimmed_within. destruct v as [| | |raw]; try discriminate.
  destruct (String.eqb_spec (Py.strip raw) "") as [|Hne]; [discriminate|].
  destruct (Nat.ltb_spec n (Py.len (Py.strip raw))); [discriminate|].
  destruct (has_null_character (Py.strip raw)); [discriminate|].
  intros [= <-]. rewrite strip_idem. auto.
Qed.

Lemma OptionalCharField_some n v o :
  OptionalCharField n v = Some o ->
  match o with
  | Some s => trimmed_within n s
  | None => True
  end.
Proof.
  unfold OptionalCharField, trimmed_within.
  destruct v as [| | |raw]; try discriminate; try (intros [= <-]; exact I).
  destruct (Nat.ltb_spec n (Py.len (Py.strip raw))); [discriminate|].
  destruct (has_null_character (Py.strip raw)); [discriminate|].
  intros [= <-]. rewrite strip_idem. auto.
Qed.

Lemma DecimalField_some n v z :
  DecimalField n v = Some z -> (Z.abs z < 10 ^ Z.of_nat n)%Z.
Proof.
  unfold DecimalField. destruct v as [| | |raw]; try discriminate.
  destruct (Z.ltb_spec (Z.abs raw) (10 ^ Z.of_nat n)); [|discriminate].
  now intros [= <-].
Qed.

Lemma TransactionSerializer_some x t :
  TransactionSerializer x = Some t ->
  (trimmed_within 255 (TransactionData.transaction_id t)
   /\ TransactionData.transaction_id t <> "")
  /\ (trimmed_within 255 (TransactionData.account_id t)
      /\ TransactionData.account_id t <> "")
  /\ (Z.abs (TransactionData.amount t) < 10 ^ 19)%Z
  /\ (trimmed_within 3 (TransactionData.iso_currency_code t)
      /\ TransactionData.iso_currency_code t <> "")
  /\ (trimmed_within 255 (TransactionData.name t)
      /\ TransactionData.name t <> "")
  /\ match TransactionData.merchant_name t with
     | Some s => trimmed_within 255 s
     | None => True
     end
  /\ match TransactionData.payment_channel t with
     | Some s => trimmed_within 50 s
     | None => True
     end.
Proof.
  unfold TransactionSerializer. intros H.
  repeat match type of H with
         | (?o ≫= _) = Some _ =>
             let E := fresh "E" in
             destruct o eqn:E; cbn [mbind option_bind] in H; [|discriminate H]
         end.
  injection H as <-. cbn.
  repeat match goal with
         | E : CharField _ _ = Some _ |- _ => apply CharField_some in E
         | E : OptionalCharField _ _ = Some _ |- _ => apply OptionalCharField_some in E
         | E : DecimalField _ _ = Some _ |- _ => apply DecimalField_some in E
         end.
  change (Z.of_nat 19) with 19%Z in *. tauto.
Qed.

(** X14: what validation hands on fits the columns it is stored in.  In
    every transaction of validated data the required strings are
    trimmed, not empty and within the column length (255, and 3 for the
    currency), the amount has fewer than 20 digits counted in
    hundredths, and an optional string that is present is trimmed and
    within its length, so it is empty or not blank. *)
Theorem validated_transactions_fit_the_model :
  forall (data : RawRequest.t) (validated_data : ValidatedData.t)
         (t : TransactionData.t),
    BatchIngestionRequestSerializer.is_valid data = Some validated_data ->
    In t (ValidatedData.transactions validated_data) ->
    (trimmed_within 255 (TransactionData.transaction_id t)
     /\ TransactionData.transaction_id t <> "")
    /\ (trimmed_within 255 (TransactionData.account_id t)
        /\ TransactionData.account_id t <> "")
    /\ (Z.abs (TransactionData.amount t) < 10 ^ 19)%Z
    /\ (trimmed_within 3 (TransactionData.iso_currency_code t)
        /\ TransactionData.iso_currency_code t <> "")
    /\ (trimmed_within 255 (TransactionData.name t)
        /\ TransactionData.name t <> "" /\ is_blank (TransactionData.name t) = false)
    /\ match TransactionData.merchant_name t with
       | Some s => trimmed_within 255 s /\ (is_blank s = true -> s = "")
       | None => True
       end
    /\ match TransactionData.payment_channel t with
       | Some s => trimmed_within 50 s
       | None => True
       end.
Proof.
  intros data v t Hv Hin.
  unfold BatchIngestionRequestSerializer.is_valid in Hv.
  destruct (ListSerializer AccountSerializer (RawRequest.accounts data));
    [|discriminate Hv]. cbn [mbind option_bind] in Hv.
  destruct (ListSerializer TransactionSerializer (RawRequest.transactions data))
    as [txs|] eqn:Htx; [|discriminate Hv]. cbn [mbind option_bind] in Hv.
  destruct (RequiredField (RawRequest.total_transactions data));
    [|discriminate Hv]. cbn [mbind option_bind] in Hv.
  destruct (OptionalCharField 255 (RawRequest.request_id data));
    [|discriminate Hv]. cbn [mbind option_bind] in Hv.
  injection Hv as <-. cbn in Hin.
  unfold ListSerializer in Htx.
  destruct (RawRequest.transactions data) as [| | |raws]; try discriminate.
  apply mapM_Some in Htx.
  apply list_elem_of_In, list_elem_of_lookup in Hin as [i Hi].
  destruct (Forall2_lookup_r _ _ _ i t Htx Hi) as (x & _ & Hx).
  destruct (TransactionSerializer_some x t Hx)
    as (Hid & Hacc & Hamount & Hcur & [Hname Hne] & Hmerchant & Hchannel).
  split; [exact Hid|]. split; [exact Hacc|]. split; [exact Hamount|].
  split; [exact Hcur|]. split; [|split; [|exact Hchannel]].
  - split; [exact Hname|]. split; [exact Hne|].
    unfold is_blank. destruct Hname as [-> _]. now apply String.eqb_neq.
  - destruct (TransactionData.merchant_name t) as [s|]; [|exact I].
    split; [exact Hmerchant|].
    unfold is_blank. destruct Hmerchant as [-> _]. now intros ?%String.eqb_eq.
Qed.

Lemma validated_transactions_fit_the_model_witness :
  trimmed_within 255 "Uber Trip" /\ "Uber Trip" <> ""
  /\ is_blank "Uber Trip" = false.
Proof.
  destruct (BatchIngestionRequestSerializer.is_valid sample_request)
    as [v|] eqn:Hv; [|discriminate Hv].
  destruct (validated_transactions_fit_the_model sample_request v
              (TransactionData.mk "txn_001" "acc_123" (-1575) "USD" 0 None
                 "Uber Trip" (Some "Starbucks") (Some "online") false) Hv)
    as (_ & _ & _ & _ & Hname & _).
  - injection Hv as <-. left. reflexivity.
  - exact Hname.
Defined.

(** The two facts about validated text that enrichment depends on. *)
Lemma validated_text_is_not_blank data v t :
  BatchIngestionRequestSerializer.is_valid data = Some v ->
  In t (ValidatedData.transactions v) ->
  is_blank (TransactionData.name t) = false
  /\ (forall m, TransactionData.merchant_name t = Some m ->
                is_blank m = true -> m = "").
Proof.
  intros Hv Hin.
  unfold BatchIngestionRequestSerializer.is_valid in Hv.
  destruct (ListSerializer AccountSerializer (RawRequest.accounts data));
    [|discriminate Hv]. cbn [mbind option_bind] in Hv.
  destruct (ListSerializer TransactionSerializer (RawRequest.transactions data))
    as [txs|] eqn:Htx; [|discriminate Hv]. cbn [mbind option_bind] in Hv.
  destruct (RequiredField (RawRequest.total_transactions data));
    [|discriminate Hv]. cbn [mbind option_bind] in Hv.
  destruct (OptionalCharField 255 (RawRequest.request_id data));
    [|discriminate Hv]. cbn [mbind option_bind] in Hv.
  injection Hv as <-. cbn in Hin.
  unfold ListSerializer in Htx.
  destruct (RawRequest.transactions data) as [| | |raws]; try discriminate.
  apply mapM_Some in Htx.
  apply list_elem_of_In, list_elem_of_lookup in Hin as [i Hi].
  destruct (Forall2_lookup_r _ _ _ i t Htx Hi) as (x & _ & Hx).
  destruct (TransactionSerializer_some x t Hx)
    as (_ & _ & _ & _ & [[Hname _] Hne] & Hmerchant & _).
  split.
  - unfold is_blank. rewrite Hname. now apply String.eqb_neq.
  - intros m Hm Hb. rewrite Hm in Hmerchant. destruct Hmerchant as [Hstrip _].
    unfold is_blank in Hb. rewrite Hstrip in Hb. now apply String.eqb_eq.
Qed.

(** The choice made by [enrich_transaction], for the proofs below. *)
Lemma enrich_text_choice categorizer merchant_name description env w :
  (forall m, merchant_name = Some m -> m <> "" -> is_blank m = false ->
             TransactionEnrichmentService.enrich_transaction
               categorizer merchant_name description env w
             = categorize categorizer m env w)
  /\ (forall d, Py.truthy merchant_name = false -> description = Some d ->
                is_blank d = false ->
                TransactionEnrichmentService.enrich_transaction
                  categorizer merchant_name description env w
                = categorize categorizer d env w).
Proof.
  assert (Hbind : forall x, (category <- categorize categorizer x ;; ret category) env w
                            = categorize categorizer x env w).
  { intros x. unfold bind, ret. now destruct (categorize categorizer x env w) as [[?|?] ?]. }
  unfold TransactionEnrichmentService.enrich_transaction.
  rewrite text_to_categorize_choice. split.
  - intros m -> Hne Hb. simpl.
    destruct (String.eqb_spec m "") as [->|_]; [congruence|]. simpl.
    unfold is_blank in Hb. rewrite Hb. apply Hbind.
  - intros d Hm -> Hb. rewrite Hm.
    assert (Htd : Py.truthy (Some d) = true).
    { simpl. destruct (String.eqb_spec d "") as [->|_]; [discriminate Hb | reflexivity]. }
    rewrite Htd. simpl. unfold is_blank in Hb. rewrite Hb. apply Hbind.
Qed.

(** X15: for a transaction built from validated data the blank guard of
    enrichment never fires: the answer is the categorizer's, on the
    merchant name when there is a non-empty one and on the description
    otherwise. *)
Theorem ingested_transaction_reaches_the_categorizer :
  forall (data : RawRequest.t) (validated_data : ValidatedData.t)
         (t : TransactionData.t) (batch_id : nat)
         (categorizer : TransactionCategorizer) (env : Env) (w : World),
    BatchIngestionRequestSerializer.is_valid data = Some validated_data ->
    In t (ValidatedData.transactions validated_data) ->
    let x := BatchIngestionRequestSerializer.transaction_object batch_id t in
    TransactionEnrichmentService.enrich_transaction categorizer
      (Transaction.merchant_name x) (Some (Transaction.description x)) env w
    = categorize categorizer
        (if Py.truthy (Transaction.merchant_name x)
         then default "" (Transaction.merchant_name x)
         else Transaction.description x)
        env w.
Proof.
  intros data v t k categorizer env w Hv Hin x.
  destruct (validated_text_is_not_blank data v t Hv Hin)
    as (Hname & Hmerchant).
  destruct (enrich_text_choice categorizer
              (Transaction.merchant_name x) (Some (Transaction.description x)) env w)
    as (Hm & Hd).
  unfold x in *. cbn [BatchIngestionRequestSerializer.transaction_object
                      Transaction.merchant_name Transaction.description] in *.
  destruct (TransactionData.merchant_name t) as [m|] eqn:Hmn.
  - simpl. destruct (String.eqb_spec m "") as [->|Hne]; simpl.
    + apply (Hd (TransactionData.name t)); [reflexivity | reflexivity | exact Hname].
    + apply (Hm m); [reflexivity | exact Hne|].
      destruct (is_blank m) eqn:Hb; [|reflexivity].
      exfalso. now apply Hne, Hmerchant.
  - simpl. apply (Hd (TransactionData.name t)); [reflexivity | reflexivity | exact Hname].
Qed.


Lemma ingested_transaction_reaches_the_categorizer_witness :
  TransactionEnrichmentService.enrich_transaction DatabaseCategorizer_new
    (Some "Starbucks") (Some "Uber Trip") healthy uber_world
  = categorize DatabaseCategorizer_new "Starbucks" healthy uber_world.
Proof.
  destruct (BatchIngestionRequestSerializer.is_valid sample_request)
    as [v|] eqn:Hv; [|discriminate Hv].
  apply (ingested_transaction_reaches_the_categorizer sample_request v
           (TransactionData.mk "txn_001" "acc_123" (-1575) "USD" 0 None
              "Uber Trip" (Some "Starbucks") (Some "online") false)
           0 DatabaseCategorizer_new healthy uber_world Hv).
  injection Hv as <-. left. reflexivity.
Defined.

(** ** The account summary *)

Lemma status_set_get code count d :
  StatusBreakdown.get code (StatusBreakdown.set (status_map code) count d) = count.
Proof. now destruct code. Qed.

Lemma status_set_get_ne code code' count d :
  code <> code' ->
  StatusBreakdown.get code (StatusBreakdown.set (status_map code') count d)
  = StatusBreakdown.get code d.
Proof. destruct code, code'; intros H; try reflexivity; congruence. Qed.

(** Filling the dict from rows with distinct status codes. *)
Lemma status_fold_get code items d :
  NoDup (map fst items) ->
  StatusBreakdown.get code
    (fold_left (fun d item => StatusBreakdown.set (status_map item.1) item.2 d) items d)
  = match List.find (fun item => bool_decide (item.1 = code)) items with
    | Some item => item.2
    | None => StatusBreakdown.get code d
    end.
Proof.
  revert d. induction items as [|[c n] items IH]; intros d Hnd; [reflexivity|].
  apply NoDup_cons in Hnd as [Hc Hnd]. cbn [fold_left List.find fst snd].
  rewrite IH by exact Hnd.
  destruct (decide (c = code)) as [->|Hne].
  - rewrite bool_decide_eq_true_2 by reflexivity.
    destruct (List.find _ items) as [[c' n']|] eqn:Hfind.
    + apply find_some in Hfind as [Hin Heq].
      apply bool_decide_eq_true in Heq. simpl in Heq. subst c'.
      exfalso. apply Hc. apply list_elem_of_In in Hin.
      now apply (list_elem_of_fmap_2 fst) in Hin.
    + apply status_set_get.
  - rewrite bool_decide_eq_false_2 by exact Hne.
    destruct (List.find _ items); [reflexivity|].
    apply status_set_get_ne. congruence.
Qed.

Lemma status_breakdown_find code qs :
  List.find (fun item => bool_decide (item.1 = code)) (status_breakdown_data qs)
  = if bool_decide (code ∈ map Transaction.ingestion_status qs)
    then Some (code, with_status code qs) else None.
Proof.
  unfold status_breakdown_data.
  assert (Hgen : forall keys,
             List.find (fun item : Status * Z => bool_decide (item.1 = code))
               (map (fun c => (c, with_status c qs)) keys)
             = if bool_decide (code ∈ keys) then Some (code, with_status code qs) else None).
  { induction keys as [|k keys IH]; [reflexivity|]. simpl.
    destruct (decide (k = code)) as [->|Hne].
    - rewrite bool_decide_eq_true_2 by reflexivity.
      rewrite bool_decide_eq_true_2 by apply list_elem_of_here. reflexivity.
    - rewrite bool_decide_eq_false_2 by exact Hne. rewrite IH.
      destruct (decide (code ∈ keys)) as [Hin|Hout].
      + rewrite !bool_decide_eq_true_2; [reflexivity| now apply list_elem_of_further | exact Hin].
      + rewrite !bool_decide_eq_false_2; [reflexivity| |exact Hout].
        intros [E|E]%elem_of_cons; [congruence | contradiction]. }
  change (fun code0 => (code0, Z.of_nat (length (List.filter _ qs))))
    with (fun c => (c, with_status c qs)).
  rewrite Hgen.
  destruct (decide (code ∈ map Transaction.ingestion_status qs)) as [Hin|Hout].
  - rewrite !bool_decide_eq_true_2; [reflexivity | exact Hin | now apply elem_of_remove_dups].
  - rewrite !bool_decide_eq_false_2; [reflexivity | exact Hout | now rewrite elem_of_remove_dups].
Qed.

Lemma with_status_absent code qs :
  code ∉ map Transaction.ingestion_status qs -> with_status code qs = 0%Z.
Proof.
  unfold with_status. induction qs as [|x qs IH]; intros Hout; [reflexivity|].
  simpl. rewrite bool_decide_eq_false_2.
  - apply IH. intros Hin. apply Hout. now apply list_elem_of_further.
  - intros E. apply Hout. simpl. rewrite E. apply list_elem_of_here.
Qed.

Lemma with_status_total qs :
  (with_status PENDING qs + with_status PROCESSING qs
   + with_status COMPLETED qs + with_status FAILED qs)%Z
  = Z.of_nat (length qs).
Proof.
  unfold with_status. induction qs as [|x qs IH]; [reflexivity|].
  cbn [List.filter].
  destruct (Transaction.ingestion_status x); simpl; lia.
Qed.

(** X16: the four counters of [processing_status] are the numbers of the
    matching transactions in each status, and they add up to
    [total_transactions]. *)
Theorem processing_status_counts_every_transaction :
  forall (table : list Transaction.t) (account_id : string)
         (start_date end_date : Utils.date),
    let qs := AccountSummaryAPIView.transactions_qs table account_id start_date end_date in
    let d := processing_status qs in
    (forall code, StatusBreakdown.get code d = with_status code qs)
    /\ (StatusBreakdown.pending d + StatusBreakdown.processing d
        + StatusBreakdown.completed d + StatusBreakdown.failed d)%Z
       = AccountSummaryAPIView.total_transactions (AccountSummaryAPIView.metrics qs).
Proof.
  intros table account_id start_date end_date qs d.
  assert (Hget : forall code, StatusBreakdown.get code d = with_status code qs).
  { intros code. unfold d, processing_status.
    rewrite status_fold_get.
    - rewrite status_breakdown_find.
      destruct (decide (code ∈ map Transaction.ingestion_status qs)) as [Hin|Hout].
      + now rewrite bool_decide_eq_true_2.
      + rewrite bool_decide_eq_false_2 by exact Hout.
        rewrite with_status_absent by exact Hout. now destruct code.
    - unfold status_breakdown_data. rewrite map_map. simpl. rewrite map_id.
      apply NoDup_remove_dups. }
  split; [exact Hget|].
  pose proof (Hget PENDING) as H1. pose proof (Hget PROCESSING) as H2.
  pose proof (Hget COMPLETED) as H3. pose proof (Hget FAILED) as H4.
  simpl in H1, H2, H3, H4. rewrite H1, H2, H3, H4.
  now rewrite with_status_total.
Qed.

Lemma sum_Z_app l1 l2 : sum_Z (l1 ++ l2) = (sum_Z l1 + sum_Z l2)%Z.
Proof. induction l1 as [|x l1 IH]; simpl; [reflexivity | rewrite IH; lia]. Qed.

Lemma sum_Z_perm l1 l2 : Permutation l1 l2 -> sum_Z l1 = sum_Z l2.
Proof. induction 1; simpl; lia. Qed.

Lemma sum_Z_nonpos l : Forall (fun z => (z <= 0)%Z) l -> (sum_Z l <= 0)%Z.
Proof. induction 1; simpl; lia. Qed.

Lemma sum_filter_split {A} (f : A -> Z) (p : A -> bool) l :
  (sum_Z (map f (List.filter p l))
   + sum_Z (map f (List.filter (fun x => negb (p x)) l)))%Z
  = sum_Z (map f l).
Proof.
  induction l as [|x l IH]; simpl; [reflexivity|].
  destruct (p x); simpl; lia.
Qed.

(** Summing group by group is summing everything, when the keys are
    distinct and every row falls under one of them. *)
Lemma sum_by_group keys :
  forall rows,
    NoDup keys ->
    (forall x, x ∈ rows -> Transaction.category x ∈ keys) ->
    sum_Z (map (fun key =>
                  sum_Z (map Transaction.amount
                             (List.filter (AccountSummaryAPIView.in_group key) rows)))
               keys)
    = sum_Z (map Transaction.amount rows).
Proof.
  induction keys as [|k keys IH]; intros rows Hnd Hall.
  - destruct rows as [|x rows]; [reflexivity|].
    exfalso. specialize (Hall x (list_elem_of_here _ _)). inversion Hall.
  - apply NoDup_cons in Hnd as [Hk Hnd]. cbn [map sum_Z foldr].
    rewrite <- (sum_filter_split Transaction.amount (AccountSummaryAPIView.in_group k) rows).
    f_equal.
    rewrite <- (IH (List.filter (fun x => negb (AccountSummaryAPIView.in_group k x)) rows)).
    + f_equal. apply map_ext_in. intros key Hkey. f_equal. f_equal.
      rewrite filter_filter_and. apply filter_ext. intros x.
      unfold AccountSummaryAPIView.in_group.
      destruct (decide (Transaction.category x = key)) as [E|E].
      * rewrite (bool_decide_eq_true_2 _ E).
        rewrite bool_decide_eq_false_2; [reflexivity|].
        intros E'. apply Hk. rewrite <- E', E. now apply list_elem_of_In.
      * rewrite (bool_decide_eq_false_2 _ E). now rewrite andb_false_r.
    + exact Hnd.
    + intros x Hx. apply list_elem_of_In, filter_In in Hx as [Hx Hp].
      apply list_elem_of_In in Hx. specialize (Hall x Hx).
      apply elem_of_cons in Hall as [E|Hin]; [|exact Hin].
      exfalso. unfold AccountSummaryAPIView.in_group in Hp.
      now rewrite (bool_decide_eq_true_2 _ E) in Hp.
Qed.

Lemma group_totals_sum rows :
  sum_Z (map AccountSummaryAPIView.row_total_spend
             (AccountSummaryAPIView.group_by_category rows))
  = sum_Z (map Transaction.amount rows).
Proof.
  unfold AccountSummaryAPIView.group_by_category. rewrite map_map. simpl.
  rewrite <- (sum_by_group (remove_dups (map Transaction.category rows)) rows).
  - f_equal. apply map_ext. intros key. rewrite fold_left_add. lia.
  - apply NoDup_remove_dups.
  - intros x Hx. apply elem_of_remove_dups. now apply list_elem_of_fmap_2.
Qed.

Lemma sum_expenses qs :
  sum_Z (map Transaction.amount
             (List.filter (fun x => (Transaction.amount x <? 0)%Z) qs))
  = spend_sum qs.
Proof.
  unfold spend_sum. induction qs as [|x qs IH]; simpl; [reflexivity|].
  destruct (Transaction.amount x <? 0)%Z; simpl; lia.
Qed.

Lemma round_half_even_share n d :
  (0 <= n <= d)%Z -> (0 < d)%Z ->
  (0 <= TopCategorySerializer.round_half_even (n * 10000) d <= 10000)%Z.
Proof.
  intros Hn Hd. unfold TopCategorySerializer.round_half_even.
  assert (Hq : (0 <= n * 10000 / d <= 10000)%Z).
  { split; [apply Z.div_pos; lia|]. apply Z.div_le_upper_bound; lia. }
  pose proof (Z.mod_pos_bound (n * 10000) d Hd) as Hr.
  pose proof (Z.div_mod (n * 10000) d ltac:(lia)) as Hdm.
  destruct (Z.ltb_spec (2 * (n * 10000 mod d)) d); [lia|].
  assert (n * 10000 / d < 10000)%Z by nia.
  destruct (Z.ltb_spec d (2 * (n * 10000 mod d))); [lia|].
  destruct (Z.even (n * 10000 / d)); lia.
Qed.

(** X17: the reported categories never add up to more than the total
    spend; each one has a positive total at most the total spend, and a
    share between 0 and 100 percent (counted in hundredths of a
    percent). *)
Theorem top_categories_within_total_spend :
  forall (table : list Transaction.t) (account_id : string)
         (start_date end_date : Utils.date),
    let s := AccountSummaryAPIView.get table account_id start_date end_date in
    let m := AccountSummaryAPIView.summary_metrics s in
    let top := AccountSummaryAPIView.summary_top_categories s in
    (sum_Z (map AccountSummaryAPIView.category_total_spend top)
     <= AccountSummaryAPIView.total_spend m)%Z
    /\ Forall (fun entry =>
                 (0 < AccountSummaryAPIView.category_total_spend entry
                  <= AccountSummaryAPIView.total_spend m)%Z
                 /\ (0 <= AccountSummaryAPIView.percentage_of_spend entry <= 10000)%Z)
              top.
Proof.
  intros table account_id start_date end_date s m top.
  set (qs := AccountSummaryAPIView.transactions_qs table account_id start_date end_date).
  set (expenses := List.filter (fun x => (Transaction.amount x <? 0)%Z) qs).
  set (groups := AccountSummaryAPIView.group_by_category expenses).
  set (sorted := AccountSummaryAPIView.order_by_total_spend groups).
  set (data := AccountSummaryAPIView.top_categories_data qs).
  assert (Hm : AccountSummaryAPIView.total_spend m = (- spend_sum qs)%Z).
  { unfold m, s, AccountSummaryAPIView.get. simpl. fold qs.
    rewrite signed_total_spend_spec. pose proof (spend_sum_nonpos qs). lia. }
  assert (Htop : top = map (AccountSummaryAPIView.top_category (spend_sum qs)) data).
  { unfold top, s, AccountSummaryAPIView.get. simpl.
    unfold AccountSummaryAPIView.top_categories. fold qs.
    now rewrite signed_total_spend_spec. }
  assert (Hsplit : sorted = (data ++ drop 3 sorted)%list)
    by (symmetry; apply take_drop).
  assert (Hperm : Permutation sorted groups) by apply stable_sort_by_perm.
  assert (Hneg : forall row, row ∈ sorted ->
                             (AccountSummaryAPIView.row_total_spend row < 0)%Z).
  { intros row Hrow. rewrite Hperm in Hrow. now apply group_row_spec in Hrow. }
  assert (Hsum : (sum_Z (map AccountSummaryAPIView.row_total_spend data)
                  + sum_Z (map AccountSummaryAPIView.row_total_spend (drop 3 sorted)))%Z
                 = spend_sum qs).
  { rewrite <- sum_Z_app, <- map_app, <- Hsplit.
    rewrite (sum_Z_perm _ _ (Permutation_map _ Hperm)).
    unfold groups. rewrite group_totals_sum. apply sum_expenses. }
  assert (Hrest : (sum_Z (map AccountSummaryAPIView.row_total_spend (drop 3 sorted)) <= 0)%Z).
  { apply sum_Z_nonpos, Forall_map, Forall_forall. intros row Hrow.
    assert (row ∈ sorted) by (rewrite Hsplit; apply elem_of_app; now right).
    specialize (Hneg row H). lia. }
  assert (Hdata : forall row, row ∈ data ->
                              (AccountSummaryAPIView.row_total_spend row < 0)%Z).
  { intros row Hrow. apply Hneg. rewrite Hsplit. apply elem_of_app. now left. }
  assert (Htotal : sum_Z (map AccountSummaryAPIView.category_total_spend top)
                   = (- sum_Z (map AccountSummaryAPIView.row_total_spend data))%Z).
  { rewrite Htop, map_map. simpl. clear - Hdata.
    induction data as [|row data IH]; [reflexivity|]. simpl.
    rewrite IH.
    - specialize (Hdata row (list_elem_of_here _ _)). lia.
    - intros r Hr. apply Hdata. now apply list_elem_of_further. }
  split; [lia|].
  assert (Heach : forall row, row ∈ data ->
                              (spend_sum qs <= AccountSummaryAPIView.row_total_spend row)%Z).
  { intros row Hrow.
    apply list_elem_of_split in Hrow as (l1 & l2 & Hl).
    assert (H1 : (sum_Z (map AccountSummaryAPIView.row_total_spend l1) <= 0)%Z).
    { apply sum_Z_nonpos, Forall_map, Forall_forall. intros r Hr.
      assert (r ∈ data) by (rewrite Hl; apply elem_of_app; now left).
      specialize (Hdata r H). lia. }
    assert (H2 : (sum_Z (map AccountSummaryAPIView.row_total_spend l2) <= 0)%Z).
    { apply sum_Z_nonpos, Forall_map, Forall_forall. intros r Hr.
      assert (r ∈ data)
        by (rewrite Hl; apply elem_of_app; right; now apply list_elem_of_further).
      specialize (Hdata r H). lia. }
    rewrite Hl, map_app, sum_Z_app in Hsum. simpl in Hsum. lia. }
  rewrite Htop, Hm. apply Forall_map, Forall_forall. intros row Hrow.
  cbn [AccountSummaryAPIView.top_category AccountSummaryAPIView.category_total_spend
       AccountSummaryAPIView.percentage_of_spend].
  specialize (Hdata row Hrow). specialize (Heach row Hrow).
  split; [lia|].
  unfold TopCategorySerializer.get_percentage_of_spend.
  destruct (Z.eqb_spec (spend_sum qs) 0) as [Hz|Hnz]; [lia|].
  replace (Z.abs (Z.abs (AccountSummaryAPIView.row_total_spend row)))
    with (- AccountSummaryAPIView.row_total_spend row)%Z by lia.
  replace (Z.abs (spend_sum qs)) with (- spend_sum qs)%Z by lia.
  apply round_half_even_share; lia.
Qed.

(** X18: [net] is the plain sum of the amounts of the matching
    transactions, and the displayed figures agree with it:
    [net = total_income - total_spend]. *)
Theorem net_is_the_sum_of_all_amounts :
  forall (table : list Transaction.t) (account_id : string)
         (start_date end_date : Utils.date),
    let qs := AccountSummaryAPIView.transactions_qs table account_id start_date end_date in
    let m := AccountSummaryAPIView.summary_metrics
               (AccountSummaryAPIView.get table account_id start_date end_date) in
    AccountSummaryAPIView.net m = sum_Z (map Transaction.amount qs)
    /\ AccountSummaryAPIView.net m
       = (AccountSummaryAPIView.total_income m - AccountSummaryAPIView.total_spend m)%Z
    /\ (0 <= AccountSummaryAPIView.total_spend m)%Z
    /\ (0 <= AccountSummaryAPIView.total_income m)%Z.
Proof.
  intros table account_id start_date end_date qs m.
  unfold m, AccountSummaryAPIView.get. simpl. fold qs.
  rewrite signed_total_spend_spec, or_zero_Sum, sum_case_income.
  pose proof (spend_sum_nonpos qs) as Hs.
  assert (Hi : (0 <= income_sum qs)%Z).
  { unfold income_sum. clear. induction qs as [|x qs IH]; simpl; [lia|].
    destruct (Z.leb_spec 0 (Transaction.amount x)); simpl; lia. }
  assert (Hall : (income_sum qs + spend_sum qs)%Z = sum_Z (map Transaction.amount qs)).
  { unfold income_sum, spend_sum. clear. induction qs as [|x qs IH]; simpl; [reflexivity|].
    destruct (Z.leb_spec 0 (Transaction.amount x)), (Z.ltb_spec (Transaction.amount x) 0);
      simpl; lia. }
  split; [exact Hall|]. split; [lia|]. split; lia.
Qed.

(** ** The summary form of the admin site *)

Lemma month_day_parse m dd :
  (1 <= m <= 12)%Z -> (1 <= dd <= 31)%Z ->
  Utils.match_month_day
    (Utils.match_month (two_digits m ++ String "-" (two_digits dd)))
  = Some (m, dd, EmptyString).
Proof.
  intros Hm Hd.
  assert (Hms : (m = 1 \/ m = 2 \/ m = 3 \/ m = 4 \/ m = 5 \/ m = 6 \/ m = 7
                \/ m = 8 \/ m = 9 \/ m = 10 \/ m = 11 \/ m = 12)%Z) by lia.
  assert (Hds : (dd = 1 \/ dd = 2 \/ dd = 3 \/ dd = 4 \/ dd = 5 \/ dd = 6 \/ dd = 7
                \/ dd = 8 \/ dd = 9 \/ dd = 10 \/ dd = 11 \/ dd = 12 \/ dd = 13
                \/ dd = 14 \/ dd = 15 \/ dd = 16 \/ dd = 17 \/ dd = 18 \/ dd = 19
                \/ dd = 20 \/ dd = 21 \/ dd = 22 \/ dd = 23 \/ dd = 24 \/ dd = 25
                \/ dd = 26 \/ dd = 27 \/ dd = 28 \/ dd = 29 \/ dd = 30 \/ dd = 31)%Z)
    by lia.
  clear Hm Hd.
  repeat (destruct Hms as [->|Hms]);
    try subst m;
    repeat (destruct Hds as [->|Hds]);
    try subst dd; reflexivity.
Qed.

(** Formatting a date and parsing it again gives the date back. *)
Lemma strptime_strftime d :
  Utils.valid_date d = true -> (1000 <= Utils.year d)%Z ->
  Utils.strptime (strftime d) = Some d.
Proof.
  intros Hv Hy.
  pose proof (valid_date_bounds d Hv) as (Hyear & Hmonth & Hday).
  pose proof (days_in_month_bounds (Utils.year d) (Utils.month d)) as Hdim.
  unfold strftime, Utils.strptime.
  rewrite !digit_digit_char by (Z.div_mod_to_equations; lia).
  rewrite month_day_parse by lia.
  replace (1000 * (Utils.year d / 1000) + 100 * (Utils.year d / 100 mod 10)
           + 10 * (Utils.year d / 10 mod 10) + Utils.year d mod 10)%Z
    with (Utils.year d) by (Z.div_mod_to_equations; lia).
  destruct d as [y m dd]. simpl in *. now rewrite Hv.
Qed.

(** X19: a date of a year from 1000 on, written by [strftime] as the
    admin view does, is read back by the API's [strptime] as the same
    date. *)
Theorem strftime_strptime_round_trip :
  forall d : Utils.date,
    Utils.valid_date d = true -> (1000 <= Utils.year d)%Z ->
    Utils.strptime (strftime d) = Some d.
Proof. exact strptime_strftime. Qed.

Lemma strftime_strptime_round_trip_witness :
  Utils.strptime (strftime (Utils.mkdate 2024 2 29)) = Some (Utils.mkdate 2024 2 29).
Proof.
  apply (strftime_strptime_round_trip (Utils.mkdate 2024 2 29));
    [reflexivity | simpl; lia].
Defined.

(** X20: the form of the admin site and the API accept the same date
    ranges: [clean] passes two dates exactly when [validate_date_range]
    returns them for their formatted strings, and the two fail for the
    same reason. *)
Theorem form_and_api_agree_on_date_ranges :
  forall s e : Utils.date,
    Utils.valid_date s = true -> Utils.valid_date e = true ->
    (1000 <= Utils.year s)%Z -> (1000 <= Utils.year e)%Z ->
    (AccountSummaryForm.clean (Some s) (Some e) = inr (Some s, Some e)
     <-> Utils.validate_date_range (strftime s) (strftime e) = Utils.Valid (s, e))
    /\ (AccountSummaryForm.clean (Some s) (Some e) = inl AccountSummaryForm.EndBeforeStart
        <-> Utils.validate_date_range (strftime s) (strftime e)
            = Utils.Invalid Utils.EndBeforeStart)
    /\ (forall date_diff,
          AccountSummaryForm.clean (Some s) (Some e)
          = inl (AccountSummaryForm.RangeExceeded date_diff)
          <-> Utils.validate_date_range (strftime s) (strftime e)
              = Utils.Invalid (Utils.RangeExceeded date_diff)).
Proof.
  intros s e Hs He Hys Hye.
  unfold AccountSummaryForm.clean, Utils.validate_date_range.
  rewrite (strptime_strftime s Hs Hys), (strptime_strftime e He Hye).
  destruct (Utils.date_lt e s).
  - repeat split; intros; congruence.
  - cbv zeta. destruct (365 <? Utils.days_between s e)%Z.
    + repeat split; intros; congruence.
    + repeat split; intros; congruence.
Qed.

Lemma form_and_api_agree_on_date_ranges_witness :
  Utils.validate_date_range "2024-01-01" "2024-12-31"
  = Utils.Valid (Utils.mkdate 2024 1 1, Utils.mkdate 2024 12 31).
Proof.
  apply (form_and_api_agree_on_date_ranges
           (Utils.mkdate 2024 1 1) (Utils.mkdate 2024 12 31));
    [reflexivity | reflexivity | simpl; lia | simpl; lia | reflexivity].
Defined.

Lemma insert_text_perm le x l : Permutation (insert_text le x l) (x :: l).
Proof.
  induction l as [|y l IH]; simpl; [reflexivity|].
  destruct (le x y); [reflexivity|]. rewrite IH. apply perm_swap.
Qed.

Lemma order_by_text_perm le l : Permutation (order_by_text le l) l.
Proof.
  induction l as [|x l IH]; simpl; [reflexivity|].
  rewrite insert_text_perm. now constructor.
Qed.

Lemma validate_account_spec table account_id :
  validate_account table account_id = true
  <-> account_id ∈ map Transaction.account_id table.
Proof.
  unfold validate_account. rewrite existsb_exists, list_elem_of_fmap. split.
  - intros (x & Hx & Heq). apply String.eqb_eq in Heq.
    exists x. split; [now symmetry | now apply list_elem_of_In].
  - intros (x & Heq & Hx). exists x. split; [now apply list_elem_of_In|].
    apply String.eqb_eq. now symmetry.
Qed.

Lemma get_account_choices_values le table :
  Permutation (map fst (AccountSummaryForm.get_account_choices le table))
              (remove_dups (map Transaction.account_id table)).
Proof.
  unfold AccountSummaryForm.get_account_choices.
  rewrite map_map. simpl. rewrite map_id. apply order_by_text_perm.
Qed.

(** X21: the accounts the form offers are exactly those the API does
    not answer with [Http404], each offered once and labelled with its
    own id, whatever the collation of the database. *)
Theorem form_offers_the_accounts_the_api_knows :
  forall (le : string -> string -> bool) (table : list Transaction.t),
    let choices := AccountSummaryForm.get_account_choices le table in
    (forall account_id,
        account_id ∈ map fst choices <-> validate_account table account_id = true)
    /\ NoDup (map fst choices)
    /\ Forall (fun choice => choice.2 = choice.1) choices.
Proof.
  intros le table choices. split; [|split].
  - intros account_id. unfold choices.
    rewrite get_account_choices_values, elem_of_remove_dups.
    symmetry. apply validate_account_spec.
  - unfold choices. rewrite get_account_choices_values. apply NoDup_remove_dups.
  - unfold choices, AccountSummaryForm.get_account_choices.
    apply Forall_map, Forall_forall. reflexivity.
Qed.

(** ** The summary endpoint *)

Lemma validate_date_range_valid s e sd ed :
  Utils.validate_date_range s e = Utils.Valid (sd, ed) ->
  Utils.strptime s = Some sd /\ Utils.strptime e = Some ed.
Proof.
  unfold Utils.validate_date_range.
  destruct (Utils.strptime s) as [sd'|]; [|discriminate].
  destruct (Utils.strptime e) as [ed'|]; [|discriminate].
  destruct (Utils.date_lt ed' sd'); [discriminate|].
  cbv zeta. destruct (365 <? _)%Z; [discriminate|].
  intros [= <- <-]. now split.
Qed.

Lemma strptime_truthy s d : Utils.strptime s = Some d -> Py.truthy (Some s) = true.
Proof. destruct s; [discriminate | reflexivity]. Qed.

(** The handler once the parameters have passed validation. *)
Lemma get_validated env table s e account_id cache sd ed :
  Utils.validate_date_range s e = Utils.Valid (sd, ed) ->
  AccountSummaryAPIView_get env table (mkQueryParams (Some s) (Some e)) account_id cache
  = if env SummaryCacheGet
    then (SummaryResponse.HTTP_500_INTERNAL_SERVER_ERROR, cache)
    else
      match cache !! cache_key account_id s e with
      | Some cached_result => (SummaryResponse.HTTP_200_OK cached_result, cache)
      | None =>
          if env TransactionQuery
          then (SummaryResponse.HTTP_500_INTERNAL_SERVER_ERROR, cache)
          else if negb (validate_account table account_id)
          then (SummaryResponse.HTTP_404_NOT_FOUND, cache)
          else
            match AccountSummarySerializer
                    (AccountSummaryAPIView.signed_total_spend
                       (AccountSummaryAPIView.transactions_qs table account_id sd ed))
                    (response_data table account_id sd ed) with
            | None => (SummaryResponse.HTTP_400_BAD_REQUEST SerializerErrors, cache)
            | Some data =>
                if env SummaryCacheSet
                then (SummaryResponse.HTTP_500_INTERNAL_SERVER_ERROR, cache)
                else (SummaryResponse.HTTP_200_OK data,
                      <[cache_key account_id s e := data]> cache)
            end
      end.
Proof.
  intros Hv. destruct (validate_date_range_valid _ _ _ _ Hv) as [Hs He].
  unfold AccountSummaryAPIView_get. cbn [start_date end_date].
  rewrite (strptime_truthy _ _ Hs), (strptime_truthy _ _ He).
  cbn [negb].
  change (default "" (Some s)) with s. change (default "" (Some e)) with e.
  now rewrite Hv.
Qed.

(** Whatever the handler answers, a request that got past validation
    has both parameters and a valid range. *)
Lemma get_not_rejected env table q account_id cache r cache' :
  AccountSummaryAPIView_get env table q account_id cache = (r, cache') ->
  (forall detail, r = SummaryResponse.HTTP_400_BAD_REQUEST detail ->
                  detail = SerializerErrors) ->
  exists s e sd ed,
    q = mkQueryParams (Some s) (Some e)
    /\ Utils.validate_date_range s e = Utils.Valid (sd, ed).
Proof.
  intros Hget Hr. destruct q as [[s|] [e|]]; unfold AccountSummaryAPIView_get in Hget;
    cbn [start_date end_date] in Hget.
  - destruct (Py.truthy (Some s)); cbn [negb] in Hget;
      [|injection Hget as <- _; now specialize (Hr _ eq_refl)].
    destruct (Py.truthy (Some e)); cbn [negb] in Hget;
      [|injection Hget as <- _; now specialize (Hr _ eq_refl)].
    change (default "" (Some s)) with s in Hget.
    change (default "" (Some e)) with e in Hget.
    destruct (Utils.validate_date_range s e) as [[sd ed]|err] eqn:Hv.
    + now exists s, e, sd, ed.
    + injection Hget as <- _. now specialize (Hr _ eq_refl).
  - destruct (Py.truthy (Some s)); cbn [negb] in Hget;
      injection Hget as <- _; now specialize (Hr _ eq_refl).
  - injection Hget as <- _. now specialize (Hr _ eq_refl).
  - injection Hget as <- _. now specialize (Hr _ eq_refl).
Qed.

(** X22: a request without [start_date] or [end_date] (absent or empty),
    or with a range [validate_date_range] rejects, is answered 400
    before the cache and the database are touched: whatever their state,
    and the cache is left as it was. *)
Theorem summary_parameters_are_checked_first :
  forall (env : SummaryEnv) (table : list Transaction.t) (q : QueryParams)
         (account_id : string) (cache : SummaryCache),
    (Py.truthy (start_date q) = false ->
     AccountSummaryAPIView_get env table q account_id cache
     = (SummaryResponse.HTTP_400_BAD_REQUEST MissingStartDate, cache))
    /\ (Py.truthy (start_date q) = true -> Py.truthy (end_date q) = false ->
        AccountSummaryAPIView_get env table q account_id cache
        = (SummaryResponse.HTTP_400_BAD_REQUEST MissingEndDate, cache))
    /\ (forall s e err,
          start_date q = Some s -> end_date q = Some e ->
          Utils.validate_date_range s e = Utils.Invalid err ->
          AccountSummaryAPIView_get env table q account_id cache
          = (SummaryResponse.HTTP_400_BAD_REQUEST
               (match s, e with
                | EmptyString, _ => MissingStartDate
                | _, EmptyString => MissingEndDate
                | _, _ => DateRangeError err
                end), cache)).
Proof.
  intros env table q account_id cache. unfold AccountSummaryAPIView_get.
  split; [|split].
  - now intros ->.
  - now intros -> ->.
  - intros s e err -> -> Hv.
    destruct s as [|a s]; [reflexivity|]. destruct e as [|b e]; [reflexivity|].
    cbn [Py.truthy String.eqb negb start_date end_date].
    change (default "" (Some (String a s))) with (String a s).
    change (default "" (Some (String b e))) with (String b e).
    now rewrite Hv.
Qed.

Lemma summary_parameters_are_checked_first_witness :
  AccountSummaryAPIView_get database_down summary_table
    (mkQueryParams (Some "2024-01-01") (Some "2025-01-01")) "acc_summary_test" ∅
  = (SummaryResponse.HTTP_400_BAD_REQUEST (DateRangeError (Utils.RangeExceeded 366)), ∅).
Proof.
  destruct (summary_parameters_are_checked_first database_down summary_table
              (mkQueryParams (Some "2024-01-01") (Some "2025-01-01"))
              "acc_summary_test" ∅) as (_ & _ & H).
  apply (H "2024-01-01" "2025-01-01" (Utils.RangeExceeded 366));
    [reflexivity | reflexivity | vm_compute; reflexivity].
Defined.

(** X23: once a summary has been answered, the same request is
    answered with the same data from the cache for as long as the entry
    is kept, whatever has happened to the transactions since and even
    with the database down; the cache stays as it is. *)
Theorem answered_summary_is_repeated_from_the_cache :
  forall (env env' : SummaryEnv) (table table' : list Transaction.t)
         (q : QueryParams) (account_id : string)
         (cache cache' : SummaryCache) (data : ResponseData.t),
    AccountSummaryAPIView_get env table q account_id cache
    = (SummaryResponse.HTTP_200_OK data, cache') ->
    env' SummaryCacheGet = false ->
    AccountSummaryAPIView_get env' table' q account_id cache'
    = (SummaryResponse.HTTP_200_OK data, cache').
Proof.
  intros env env' table table' q account_id cache cache' data Hget Henv.
  destruct (get_not_rejected _ _ _ _ _ _ _ Hget) as (s & e & sd & ed & -> & Hv);
    [intros detail Hd; discriminate Hd|].
  rewrite (get_validated env table _ _ _ _ _ _ Hv) in Hget.
  rewrite (get_validated env' table' _ _ _ _ _ _ Hv), Henv.
  assert (Hhit : cache' !! cache_key account_id s e = Some data).
  { destruct (env SummaryCacheGet); [discriminate Hget|].
    destruct (cache !! cache_key account_id s e) as [c|] eqn:Hc.
    - injection Hget as <- <-. exact Hc.
    - destruct (env TransactionQuery); [discriminate Hget|].
      destruct (negb (validate_account table account_id)); [discriminate Hget|].
      destruct (AccountSummarySerializer _ _) as [d|]; [|discriminate Hget].
      destruct (env SummaryCacheSet); [discriminate Hget|].
      injection Hget as <- <-. apply lookup_insert_eq. }
  now rewrite Hhit.
Qed.

Lemma answered_summary_is_repeated_from_the_cache_witness :
  exists data cache',
    AccountSummaryAPIView_get summary_healthy summary_table january
                              "acc_summary_test" ∅
    = (SummaryResponse.HTTP_200_OK data, cache')
    /\ AccountSummaryAPIView_get database_down [] january "acc_summary_test" cache'
       = (SummaryResponse.HTTP_200_OK data, cache').
Proof.
  destruct (AccountSummaryAPIView_get summary_healthy summary_table january
                                      "acc_summary_test" ∅) as [r cache'] eqn:Hget.
  destruct r as [data| | |]; try (vm_compute in Hget; discriminate Hget).
  exists data, cache'. split; [reflexivity|].
  apply (answered_summary_is_repeated_from_the_cache summary_healthy database_down
           summary_table [] january "acc_summary_test" ∅ cache' data Hget).
  reflexivity.
Defined.

(** X24: [Http404] is the answer exactly for an account without any
    transaction: a 404 leaves the cache as it was and means that no row
    of the table carries the account id, and such an account gets a 404
    whenever the request is valid and not cached. *)
Theorem unknown_account_is_not_found :
  forall (env : SummaryEnv) (table : list Transaction.t) (account_id : string),
    (forall q cache cache',
        AccountSummaryAPIView_get env table q account_id cache
        = (SummaryResponse.HTTP_404_NOT_FOUND, cache') ->
        cache' = cache
        /\ Forall (fun x => Transaction.account_id x <> account_id) table)
    /\ (forall s e sd ed cache,
          Utils.validate_date_range s e = Utils.Valid (sd, ed) ->
          env SummaryCacheGet = false -> env TransactionQuery = false ->
          cache !! cache_key account_id s e = None ->
          Forall (fun x => Transaction.account_id x <> account_id) table ->
          AccountSummaryAPIView_get env table (mkQueryParams (Some s) (Some e))
                                    account_id cache
          = (SummaryResponse.HTTP_404_NOT_FOUND, cache)).
Proof.
  intros env table account_id.
  assert (Hnone : validate_account table account_id = false
                  <-> Forall (fun x => Transaction.account_id x <> account_id) table).
  { unfold validate_account. rewrite Forall_forall. split.
    - intros Hex x Hx Heq.
      assert (existsb (fun x => String.eqb (Transaction.account_id x) account_id) table
              = true); [|congruence].
      apply existsb_exists. exists x.
      split; [now apply list_elem_of_In | now apply String.eqb_eq].
    - intros Hall.
      destruct (existsb _ table) eqn:Hex; [|reflexivity].
      apply existsb_exists in Hex as (x & Hx & Heq).
      apply String.eqb_eq in Heq. apply list_elem_of_In in Hx.
      now specialize (Hall x Hx). }
  split.
  - intros q cache cache' Hget.
    destruct (get_not_rejected _ _ _ _ _ _ _ Hget) as (s & e & sd & ed & -> & Hv);
      [intros detail Hd; discriminate Hd|].
    rewrite (get_validated env table _ _ _ _ _ _ Hv) in Hget.
    destruct (env SummaryCacheGet); [discriminate Hget|].
    destruct (cache !! cache_key account_id s e); [discriminate Hget|].
    destruct (env TransactionQuery); [discriminate Hget|].
    destruct (validate_account table account_id) eqn:Hacc; cbn [negb] in Hget.
    + destruct (AccountSummarySerializer _ _); [|discriminate Hget].
      destruct (env SummaryCacheSet); discriminate Hget.
    + injection Hget as <-. split; [reflexivity|]. now apply Hnone.
  - intros s e sd ed cache Hv Hcache Hquery Hmiss Hall.
    rewrite (get_validated env table _ _ _ _ _ _ Hv), Hcache, Hmiss, Hquery.
    apply Hnone in Hall. now rewrite Hall.
Qed.

Lemma unknown_account_is_not_found_witness :
  AccountSummaryAPIView_get summary_healthy summary_table january "acc_123" ∅
  = (SummaryResponse.HTTP_404_NOT_FOUND, ∅).
Proof.
  destruct (unknown_account_is_not_found summary_healthy summary_table "acc_123")
    as [_ H].
  apply (H "2024-01-01" "2024-01-31" (Utils.mkdate 2024 1 1) (Utils.mkdate 2024 1 31) ∅);
    [vm_compute; reflexivity | reflexivity | reflexivity | reflexivity|].
  apply Forall_forall. intros x Hx. apply (bool_decide_unpack _).
  revert x Hx. apply Forall_forall. vm_compute. repeat constructor.
Defined.

(** *** Cache keys *)

Lemma string_app_cons c (a b : string) :
  (String c a ++ b)%string = String c (a ++ b).
Proof. reflexivity. Qed.

Lemma string_app_assoc (a b c : string) : ((a ++ b) ++ c = a ++ (b ++ c))%string.
Proof.
  induction a as [|x a IH]; [reflexivity|].
  rewrite !string_app_cons. now f_equal.
Qed.

Lemma string_app_nil_r (a : string) : (a ++ "")%string = a.
Proof.
  induction a as [|x a IH]; [reflexivity|]. rewrite string_app_cons. now f_equal.
Qed.

Lemma string_app_inv_head (p a b : string) : (p ++ a = p ++ b)%string -> a = b.
Proof.
  induction p as [|x p IH]; [trivial|]. rewrite !string_app_cons.
  intros [= H]. auto.
Qed.

Lemma no_colon_app a b : no_colon (a ++ b) = no_colon a && no_colon b.
Proof.
  induction a as [|x a IH]; [reflexivity|]. rewrite string_app_cons.
  cbn [no_colon]. rewrite IH. now rewrite andb_assoc.
Qed.

Lemma no_colon_after_colon a b : no_colon (a ++ String ":" b) = false.
Proof. rewrite no_colon_app. cbn [no_colon]. apply andb_false_r. Qed.

(** The last colon of a string splits it in one way only. *)
Lemma last_colon_unique x :
  forall x' e e',
    no_colon e = true -> no_colon e' = true ->
    (x ++ String ":" e = x' ++ String ":" e')%string ->
    x = x' /\ e = e'.
Proof.
  induction x as [|c x IH]; intros x' e e' He He' Heq.
  - destruct x' as [|c' x'].
    + change (String ":" e = String ":" e') in Heq. injection Heq as <-. now split.
    + change (String ":" e = String c' (x' ++ String ":" e')) in Heq.
      injection Heq as _ ->. now rewrite no_colon_after_colon in He.
  - destruct x' as [|c' x'].
    + change (String c (x ++ String ":" e) = String ":" e') in Heq.
      injection Heq as _ <-. now rewrite no_colon_after_colon in He'.
    + rewrite !string_app_cons in Heq. injection Heq as <- Heq.
      destruct (IH x' e e' He He' Heq) as [-> ->]. now split.
Qed.

Lemma digit_not_colon c v : Utils.digit c = Some v -> Ascii.eqb c ":" = false.
Proof.
  intros H. destruct (Ascii.eqb_spec c ":") as [->|_]; [discriminate H | reflexivity].
Qed.

Lemma digit_in_not_colon lo hi c v :
  Utils.digit_in lo hi c = Some v -> Ascii.eqb c ":" = false.
Proof.
  unfold Utils.digit_in. destruct (Utils.digit c) as [u|] eqn:Hd; [|discriminate].
  intros _. exact (digit_not_colon _ _ Hd).
Qed.

Lemma match_month_chars r m r' :
  In (m, r') (Utils.match_month r) ->
  exists p, r = (p ++ r')%string /\ no_colon p = true.
Proof.
  destruct r as [|a [|b r0]]; simpl.
  - intros [].
  - destruct (Utils.digit_in 1 9 a) as [v|] eqn:Ha; [|intros []].
    intros [[= <- <-]|[]]. exists (String a ""). split; [reflexivity|].
    simpl. now rewrite (digit_in_not_colon _ _ _ _ Ha).
  - intros Hin. apply in_app_or in Hin as [Hin|Hin]; [|apply in_app_or in Hin as [Hin|Hin]].
    + destruct (Utils.digit_in 1 1 a) as [u|] eqn:Ha; [|destruct Hin].
      destruct (Utils.digit_in 0 2 b) as [v|] eqn:Hb; [|destruct Hin].
      destruct Hin as [[= <- <-]|[]]. exists (String a (String b "")).
      split; [reflexivity|]. simpl.
      now rewrite (digit_in_not_colon _ _ _ _ Ha), (digit_in_not_colon _ _ _ _ Hb).
    + destruct (Utils.digit_in 0 0 a) as [u|] eqn:Ha; [|destruct Hin].
      destruct (Utils.digit_in 1 9 b) as [v|] eqn:Hb; [|destruct Hin].
      destruct Hin as [[= <- <-]|[]]. exists (String a (String b "")).
      split; [reflexivity|]. simpl.
      now rewrite (digit_in_not_colon _ _ _ _ Ha), (digit_in_not_colon _ _ _ _ Hb).
    + destruct (Utils.digit_in 1 9 a) as [v|] eqn:Ha; [|destruct Hin].
      destruct Hin as [[= <- <-]|[]]. exists (String a "").
      split; [reflexivity|]. simpl.
      now rewrite (digit_in_not_colon _ _ _ _ Ha).
Qed.

Lemma match_day_chars r d r' :
  Utils.match_day r = Some (d, r') ->
  exists p, r = (p ++ r')%string /\ no_colon p = true.
Proof.
  destruct r as [|a [|b r0]]; simpl.
  - discriminate.
  - destruct (Utils.digit_in 1 9 a) as [v|] eqn:Ha; [|discriminate].
    intros [= <- <-]. exists (String a ""). split; [reflexivity|].
    simpl. now rewrite (digit_in_not_colon _ _ _ _ Ha).
  - assert (Hone : forall lo hi v, Utils.digit_in lo hi a = Some v ->
                     exists p, String a (String b r0) = (p ++ String b r0)%string
                               /\ no_colon p = true).
    { intros lo hi v Ha. exists (String a ""). split; [reflexivity|].
      simpl. now rewrite (digit_in_not_colon _ _ _ _ Ha). }
    assert (Htwo : forall lo hi u, Utils.digit_in lo hi a = Some u ->
                     Ascii.eqb b ":" = false ->
                     exists p, String a (String b r0) = (p ++ r0)%string
                               /\ no_colon p = true).
    { intros lo hi u Ha Hb. exists (String a (String b "")). split; [reflexivity|].
      simpl. now rewrite (digit_in_not_colon _ _ _ _ Ha), Hb. }
    assert (Hspace : Ascii.eqb a " " = true -> Ascii.eqb b ":" = false ->
                     exists p, String a (String b r0) = (p ++ r0)%string
                               /\ no_colon p = true).
    { intros Ha Hb. apply Ascii.eqb_eq in Ha. subst a.
      exists (String " " (String b "")). split; [reflexivity|].
      simpl. now rewrite Hb. }
    destruct (Utils.digit_in 3 3 a) as [u3|] eqn:H3;
      destruct (Utils.digit_in 0 1 b) as [v01|] eqn:H01;
      destruct (Utils.digit_in 1 2 a) as [u12|] eqn:H12;
      destruct (Utils.digit b) as [vb|] eqn:Hb;
      destruct (Utils.digit_in 0 0 a) as [u0|] eqn:H0;
      destruct (Utils.digit_in 1 9 b) as [v19|] eqn:H19;
      destruct (Utils.digit_in 1 9 a) as [u19|] eqn:Ha19;
      destruct (Ascii.eqb a " ") eqn:Hsp;
      intros [= <- <-];
      first [ now apply (Hone _ _ _ Ha19)
            | now apply (Htwo _ _ _ H3 (digit_in_not_colon _ _ _ _ H01))
            | now apply (Htwo _ _ _ H12 (digit_not_colon _ _ Hb))
            | now apply (Htwo _ _ _ H0 (digit_in_not_colon _ _ _ _ H19))
            | now apply (Hspace eq_refl (digit_in_not_colon _ _ _ _ H19)) ].
Qed.

Lemma match_month_day_chars r candidates :
  forall m d rest,
    (forall m r', In (m, r') candidates ->
                  exists p, r = (p ++ r')%string /\ no_colon p = true) ->
    Utils.match_month_day candidates = Some (m, d, rest) ->
    exists p, r = (p ++ rest)%string /\ no_colon p = true.
Proof.
  induction candidates as [|[m0 s0] candidates IH]; intros m d rest Hall;
    [discriminate|].
  rewrite match_month_day_cons.
  assert (Hrest : Utils.match_month_day candidates = Some (m, d, rest) ->
                  exists p, r = (p ++ rest)%string /\ no_colon p = true).
  { apply IH. intros m1 r1 Hin. apply (Hall m1 r1). now right. }
  destruct s0 as [|a r0]; [exact Hrest|].
  destruct (Ascii.eqb_spec a "-") as [->|_]; [|exact Hrest].
  destruct (Utils.match_day r0) as [[d0 r1]|] eqn:Hday; [|exact Hrest].
  intros [= <- <- <-].
  destruct (Hall m0 (String "-" r0) (or_introl eq_refl)) as (p & -> & Hp).
  destruct (match_day_chars _ _ _ Hday) as (p2 & -> & Hp2).
  exists (p ++ String "-" p2)%string. split.
  - now rewrite string_app_assoc.
  - rewrite no_colon_app, Hp. simpl. exact Hp2.
Qed.

(** A string that parses as a date holds no colon. *)
Lemma strptime_no_colon s d : Utils.strptime s = Some d -> no_colon s = true.
Proof.
  destruct s as [|y1 [|y2 [|y3 [|y4 [|c r]]]]]; try discriminate.
  rewrite strptime_cons.
  destruct (Ascii.eqb_spec c "-") as [->|_]; [|discriminate].
  destruct (Utils.digit y1) eqn:H1; [|discriminate].
  destruct (Utils.digit y2) eqn:H2; [|discriminate].
  destruct (Utils.digit y3) eqn:H3; [|discriminate].
  destruct (Utils.digit y4) eqn:H4; [|discriminate].
  destruct (Utils.match_month_day (Utils.match_month r)) as [[[m dd] rest]|] eqn:Hmd;
    [|discriminate].
  destruct rest; [|discriminate]. intros _.
  destruct (match_month_day_chars r _ m dd "" (match_month_chars r) Hmd)
    as (p & Hr & Hp).
  rewrite string_app_nil_r in Hr. subst p.
  cbn [no_colon].
  rewrite (digit_not_colon _ _ H1), (digit_not_colon _ _ H2),
    (digit_not_colon _ _ H3), (digit_not_colon _ _ H4), Hp. reflexivity.
Qed.

(** Two valid requests with the same cache key are the same request. *)
Lemma cache_key_inj account_id s e account_id' s' e' d d' :
  Utils.validate_date_range s e = Utils.Valid d ->
  Utils.validate_date_range s' e' = Utils.Valid d' ->
  cache_key account_id s e = cache_key account_id' s' e' ->
  same_request account_id s e account_id' s' e'.
Proof.
  destruct d as [sd ed], d' as [sd' ed']. intros Hv Hv' Hkey.
  destruct (validate_date_range_valid _ _ _ _ Hv) as [Hs He].
  destruct (validate_date_range_valid _ _ _ _ Hv') as [Hs' He'].
  apply strptime_no_colon in Hs, He, Hs', He'.
  unfold cache_key in Hkey. apply string_app_inv_head in Hkey.
  change (":" ++ s ++ ":" ++ e)%string with (String ":" (s ++ String ":" e)) in Hkey.
  change (":" ++ s' ++ ":" ++ e')%string with (String ":" (s' ++ String ":" e')) in Hkey.
  change (String ":" (s ++ String ":" e))
    with ((String ":" s) ++ String ":" e)%string in Hkey.
  change (String ":" (s' ++ String ":" e'))
    with ((String ":" s') ++ String ":" e')%string in Hkey.
  rewrite <- !string_app_assoc in Hkey.
  apply last_colon_unique in Hkey as [Hkey ->]; [|exact He|exact He'].
  apply last_colon_unique in Hkey as [-> ->]; [|exact Hs|exact Hs'].
  repeat split.
Qed.

(** X25: two valid requests that differ in the account or in one of the
    date strings never share a cache entry: answering one leaves the
    entry of the other as it was, and so does not change the answer to
    the other. *)
Theorem summaries_do_not_share_cache_entries :
  forall (env env' : SummaryEnv) (table table' : list Transaction.t)
         (account_id s e account_id' s' e' : string) (d d' : Utils.date * Utils.date)
         (cache cache' : SummaryCache) (r : SummaryResponse.t),
    Utils.validate_date_range s e = Utils.Valid d ->
    Utils.validate_date_range s' e' = Utils.Valid d' ->
    ~ same_request account_id s e account_id' s' e' ->
    AccountSummaryAPIView_get env table (mkQueryParams (Some s) (Some e))
                              account_id cache = (r, cache') ->
    cache_key account_id s e <> cache_key account_id' s' e'
    /\ cache' !! cache_key account_id' s' e' = cache !! cache_key account_id' s' e'
    /\ (AccountSummaryAPIView_get env' table' (mkQueryParams (Some s') (Some e'))
                                  account_id' cache').1
       = (AccountSummaryAPIView_get env' table' (mkQueryParams (Some s') (Some e'))
                                    account_id' cache).1.
Proof.
  intros env env' table table' account_id s e account_id' s' e' [sd ed] [sd' ed']
         cache cache' r Hv Hv' Hdiff Hget.
  assert (Hkey : cache_key account_id s e <> cache_key account_id' s' e').
  { intros Hkey. apply Hdiff. exact (cache_key_inj _ _ _ _ _ _ _ _ Hv Hv' Hkey). }
  assert (Hlookup : cache' !! cache_key account_id' s' e'
                    = cache !! cache_key account_id' s' e').
  { rewrite (get_validated env table _ _ _ _ _ _ Hv) in Hget.
    destruct (env SummaryCacheGet); [now injection Hget as _ <-|].
    destruct (cache !! cache_key account_id s e); [now injection Hget as _ <-|].
    destruct (env TransactionQuery); [now injection Hget as _ <-|].
    destruct (negb (validate_account table account_id)); [now injection Hget as _ <-|].
    destruct (AccountSummarySerializer _ _); [|now injection Hget as _ <-].
    destruct (env SummaryCacheSet); [now injection Hget as _ <-|].
    injection Hget as _ <-. now apply lookup_insert_ne. }
  split; [exact Hkey|]. split; [exact Hlookup|].
  rewrite !(get_validated env' table' _ _ _ _ _ _ Hv'), Hlookup.
  destruct (env' SummaryCacheGet); [reflexivity|].
  destruct (cache !! cache_key account_id' s' e'); [reflexivity|].
  destruct (env' TransactionQuery); [reflexivity|].
  destruct (negb (validate_account table' account_id')); [reflexivity|].
  destruct (AccountSummarySerializer _ _); [|reflexivity].
  now destruct (env' SummaryCacheSet).
Qed.

Lemma summaries_do_not_share_cache_entries_witness :
  cache_key "acc_summary_test" "2024-01-01" "2024-01-31"
  <> cache_key "acc_summary_test:2024-01-01" "2024-01-31" "2024-01-31".
Proof.
  destruct (AccountSummaryAPIView_get summary_healthy summary_table january
                                      "acc_summary_test" ∅) as [r cache'] eqn:Hget.
  apply (summaries_do_not_share_cache_entries summary_healthy summary_healthy
           summary_table summary_table
           "acc_summary_test" "2024-01-01" "2024-01-31"
           "acc_summary_test:2024-01-01" "2024-01-31" "2024-01-31"
           (Utils.mkdate 2024 1 1, Utils.mkdate 2024 1 31)
           (Utils.mkdate 2024 1 31, Utils.mkdate 2024 1 31)
           ∅ cache' r);
    [vm_compute; reflexivity | vm_compute; reflexivity | | exact Hget].
  intros (H & _). discriminate H.
Defined.

Lemma DecimalField_overflow n z :
  (10 ^ Z.of_nat n <= Z.abs z)%Z -> DecimalField n (Value z) = None.
Proof.
  intros H. unfold DecimalField.
  destruct (Z.ltb_spec (Z.abs z) (10 ^ Z.of_nat n)); [lia | reflexivity].
Qed.

Lemma DecimalField_value n z v : DecimalField n (Value z) = Some v -> v = z.
Proof.
  unfold DecimalField. destruct (Z.abs z <? 10 ^ Z.of_nat n)%Z; [|discriminate].
  now intros [= <-].
Qed.

(** X26: the response serializer holds twelve digits.  A summary whose
    total spend, total income or net reaches ten thousand million (a
    million million hundredths) is refused: the valid request of an
    existing account is answered 400, and nothing is cached. *)
Theorem summary_beyond_twelve_digits_is_a_bad_request :
  forall (env : SummaryEnv) (table : list Transaction.t)
         (s e account_id : string) (sd ed : Utils.date) (cache : SummaryCache),
    Utils.validate_date_range s e = Utils.Valid (sd, ed) ->
    env SummaryCacheGet = false -> env TransactionQuery = false ->
    cache !! cache_key account_id s e = None ->
    validate_account table account_id = true ->
    let m := AccountSummaryAPIView.metrics
               (AccountSummaryAPIView.transactions_qs table account_id sd ed) in
    (10 ^ 12 <= AccountSummaryAPIView.total_spend m
     \/ 10 ^ 12 <= AccountSummaryAPIView.total_income m
     \/ 10 ^ 12 <= Z.abs (AccountSummaryAPIView.net m))%Z ->
    AccountSummaryAPIView_get env table (mkQueryParams (Some s) (Some e))
                              account_id cache
    = (SummaryResponse.HTTP_400_BAD_REQUEST SerializerErrors, cache).
Proof.
  intros env table s e account_id sd ed cache Hv Hcache Hquery Hmiss Hacc m Hbig.
  rewrite (get_validated env table _ _ _ _ _ _ Hv), Hcache, Hmiss, Hquery, Hacc.
  cbn [negb].
  assert (Hm : MetricsSerializer m = None).
  { unfold MetricsSerializer.
    assert (Hspend : (0 <= AccountSummaryAPIView.total_spend m)%Z)
      by (unfold m; simpl; lia).
    destruct (DecimalField 12 (Value (AccountSummaryAPIView.total_spend m)))
      as [v1|] eqn:H1; [|reflexivity].
    destruct (DecimalField 12 (Value (AccountSummaryAPIView.total_income m)))
      as [v2|] eqn:H2; [|reflexivity].
    destruct (DecimalField 12 (Value (AccountSummaryAPIView.net m)))
      as [v3|] eqn:H3; [|reflexivity].
    exfalso.
    assert (Hincome : (0 <= AccountSummaryAPIView.total_income m)%Z).
    { unfold m. simpl. rewrite or_zero_Sum, sum_case_income.
      unfold income_sum. generalize (AccountSummaryAPIView.transactions_qs
                                       table account_id sd ed).
      intros qs. induction qs as [|x qs IH]; simpl; [lia|].
      destruct (Z.leb_spec 0 (Transaction.amount x)); simpl; lia. }
    change (Z.of_nat 12) with 12%Z in *.
    unfold DecimalField in H1, H2, H3.
    change (Z.of_nat 12) with 12%Z in *.
    destruct (Z.ltb_spec (Z.abs (AccountSummaryAPIView.total_spend m)) (10 ^ 12));
      [|discriminate H1].
    destruct (Z.ltb_spec (Z.abs (AccountSummaryAPIView.total_income m)) (10 ^ 12));
      [|discriminate H2].
    destruct (Z.ltb_spec (Z.abs (AccountSummaryAPIView.net m)) (10 ^ 12));
      [|discriminate H3].
    lia. }
  unfold AccountSummarySerializer, response_data. cbn [ResponseData.account_id
    ResponseData.metrics ResponseData.top_categories ResponseData.date_range
    ResponseData.processing_status].
  fold m. rewrite Hm.
  now destruct (ResponseCharField account_id).
Qed.

Lemma summary_beyond_twelve_digits_is_a_bad_request_witness :
  AccountSummaryAPIView_get summary_healthy huge_table january "acc_summary_test" ∅
  = (SummaryResponse.HTTP_400_BAD_REQUEST SerializerErrors, ∅).
Proof.
  apply (summary_beyond_twelve_digits_is_a_bad_request summary_healthy huge_table
           "2024-01-01" "2024-01-31" "acc_summary_test"
           (Utils.mkdate 2024 1 1) (Utils.mkdate 2024 1 31) ∅);
    [vm_compute; reflexivity | reflexivity | reflexivity | reflexivity
     | reflexivity | left; vm_compute; discriminate].
Defined.

Lemma ResponseCharField_some s v : ResponseCharField s = Some v -> v = Py.strip s.
Proof.
  unfold ResponseCharField. destruct (String.eqb (Py.strip s) ""); [discriminate|].
  destruct (existsb _ _); [discriminate|]. now intros [= <-].
Qed.

Lemma MetricsSerializer_some m m' : MetricsSerializer m = Some m' -> m' = m.
Proof.
  unfold MetricsSerializer.
  destruct (DecimalField 12 (Value (AccountSummaryAPIView.total_spend m)))
    as [v1|] eqn:H1; [|discriminate].
  destruct (DecimalField 12 (Value (AccountSummaryAPIView.total_income m)))
    as [v2|] eqn:H2; [|discriminate].
  destruct (DecimalField 12 (Value (AccountSummaryAPIView.net m)))
    as [v3|] eqn:H3; [|discriminate].
  cbn [mbind option_bind]. intros [= <-].
  apply DecimalField_value in H1, H2, H3. subst. now destruct m.
Qed.

(** What the response serializer may change in an entry of
    [top_categories]: the label is trimmed. *)
Lemma TopCategorySerializer_data_some context_total_spend row reported :
  TopCategorySerializer_data context_total_spend
    (AccountSummaryAPIView.top_category context_total_spend row) = Some reported ->
  reported
  = AccountSummaryAPIView.mkTopCategory
      (Py.strip (AccountSummaryAPIView.category_label
                   (AccountSummaryAPIView.row_category row)))
      (Z.abs (AccountSummaryAPIView.row_total_spend row))
      (AccountSummaryAPIView.row_transaction_count row)
      (AccountSummaryAPIView.percentage_of_spend
         (AccountSummaryAPIView.top_category context_total_spend row)).
Proof.
  unfold TopCategorySerializer_data, AccountSummaryAPIView.top_category.
  cbn [AccountSummaryAPIView.category AccountSummaryAPIView.category_total_spend
       AccountSummaryAPIView.transaction_count AccountSummaryAPIView.percentage_of_spend].
  destruct (ResponseCharField _) as [c|] eqn:Hc; [|discriminate].
  destruct (DecimalField 12 _) as [v|] eqn:Hd; [|discriminate].
  cbn [mbind option_bind]. intros [= <-].
  apply ResponseCharField_some in Hc. apply DecimalField_value in Hd. now subst.
Qed.

(** X27: a summary that is computed rather than found in the cache is
    the one of the handler's queries: the metrics and the status counts
    of the transactions of the account in the window, the parsed dates,
    and the top categories with their totals, counts and shares; the
    serializer only trims the account id and the category labels.  The
    data are stored under the key of the request. *)
Theorem fresh_summary_reports_the_window :
  forall (env : SummaryEnv) (table : list Transaction.t)
         (s e account_id : string) (sd ed : Utils.date)
         (cache cache' : SummaryCache) (data : ResponseData.t),
    Utils.validate_date_range s e = Utils.Valid (sd, ed) ->
    cache !! cache_key account_id s e = None ->
    AccountSummaryAPIView_get env table (mkQueryParams (Some s) (Some e))
                              account_id cache
    = (SummaryResponse.HTTP_200_OK data, cache') ->
    let qs := AccountSummaryAPIView.transactions_qs table account_id sd ed in
    cache' = <[cache_key account_id s e := data]> cache
    /\ ResponseData.account_id data = Py.strip account_id
    /\ ResponseData.date_range data = (sd, ed)
    /\ ResponseData.metrics data = AccountSummaryAPIView.metrics qs
    /\ ResponseData.processing_status data = processing_status qs
    /\ Forall2 (fun computed reported =>
                  AccountSummaryAPIView.category reported
                  = Py.strip (AccountSummaryAPIView.category computed)
                  /\ AccountSummaryAPIView.category_total_spend reported
                     = AccountSummaryAPIView.category_total_spend computed
                  /\ AccountSummaryAPIView.transaction_count reported
                     = AccountSummaryAPIView.transaction_count computed
                  /\ AccountSummaryAPIView.percentage_of_spend reported
                     = AccountSummaryAPIView.percentage_of_spend computed)
               (AccountSummaryAPIView.summary_top_categories
                  (AccountSummaryAPIView.get table account_id sd ed))
               (ResponseData.top_categories data).
Proof.
  intros env table s e account_id sd ed cache cache' data Hv Hmiss Hget qs.
  rewrite (get_validated env table _ _ _ _ _ _ Hv), Hmiss in Hget. fold qs in Hget.
  destruct (env SummaryCacheGet); [discriminate Hget|].
  destruct (env TransactionQuery); [discriminate Hget|].
  destruct (negb (validate_account table account_id)); [discriminate Hget|].
  destruct (AccountSummarySerializer _ _) as [d|] eqn:Hser; [|discriminate Hget].
  destruct (env SummaryCacheSet); [discriminate Hget|].
  injection Hget as <- <-.
  unfold AccountSummarySerializer, response_data in Hser.
  cbn [ResponseData.account_id ResponseData.metrics ResponseData.top_categories
       ResponseData.date_range ResponseData.processing_status] in Hser.
  fold qs in Hser.
  destruct (ResponseCharField account_id) as [a|] eqn:Ha; [|discriminate Hser].
  cbn [mbind option_bind] in Hser.
  destruct (MetricsSerializer _) as [m|] eqn:Hm; [|discriminate Hser].
  cbn [mbind option_bind] in Hser.
  destruct (mapM _ _) as [top|] eqn:Htop; [|discriminate Hser].
  cbn [mbind option_bind] in Hser. injection Hser as <-.
  cbn [ResponseData.account_id ResponseData.metrics ResponseData.top_categories
       ResponseData.date_range ResponseData.processing_status].
  split; [reflexivity|]. split; [now apply ResponseCharField_some|].
  split; [reflexivity|]. split; [now apply MetricsSerializer_some|].
  split; [reflexivity|].
  apply mapM_Some in Htop.
  unfold AccountSummaryAPIView.get. cbn [AccountSummaryAPIView.summary_top_categories].
  fold qs. unfold AccountSummaryAPIView.top_categories in *.
  apply Forall2_fmap_l. apply Forall2_fmap_l in Htop.
  eapply Forall2_impl; [exact Htop|]. cbn beta.
  intros row reported Hrow. cbn [compose] in *. unfold compose in *.
  apply TopCategorySerializer_data_some in Hrow. subst reported.
  repeat split.
Qed.

Lemma fresh_summary_reports_the_window_witness :
  exists data cache',
    AccountSummaryAPIView_get summary_healthy summary_table january
                              "acc_summary_test" ∅
    = (SummaryResponse.HTTP_200_OK data, cache')
    /\ ResponseData.metrics data
       = AccountSummaryAPIView.mkMetrics 9 28000 250000 222000.
Proof.
  destruct (AccountSummaryAPIView_get summary_healthy summary_table january
                                      "acc_summary_test" ∅) as [r cache'] eqn:Hget.
  destruct r as [data| | |]; try (vm_compute in Hget; discriminate Hget).
  exists data, cache'. split; [reflexivity|].
  destruct (fresh_summary_reports_the_window summary_healthy summary_table
              "2024-01-01" "2024-01-31" "acc_summary_test"
              (Utils.mkdate 2024 1 1) (Utils.mkdate 2024 1 31) ∅ cache' data)
    as (_ & _ & _ & Hm & _);
    [vm_compute; reflexivity | reflexivity | exact Hget|].
  rewrite Hm. vm_compute. reflexivity.
Defined.

(** X28: a request the admin site makes for a valid form is never
    turned down for its parameters or its account: the dates the form
    accepted reach the handler as a valid range, so the answer is never
    404 and never a 400 about the parameters. *)
Theorem admin_request_is_never_turned_down :
  forall (le : string -> string -> bool) (env : SummaryEnv)
         (table : list Transaction.t) (account_id : string)
         (sd ed : Utils.date) (cache : SummaryCache),
    AccountSummaryForm.is_valid le table account_id (Some sd) (Some ed) = true ->
    Utils.valid_date sd = true -> Utils.valid_date ed = true ->
    (1000 <= Utils.year sd)%Z -> (1000 <= Utils.year ed)%Z ->
    let r := (account_summary_view env table account_id sd ed cache).1 in
    Utils.validate_date_range (strftime sd) (strftime ed) = Utils.Valid (sd, ed)
    /\ r <> SummaryResponse.HTTP_404_NOT_FOUND
    /\ (forall detail, r = SummaryResponse.HTTP_400_BAD_REQUEST detail ->
                       detail = SerializerErrors).
Proof.
  intros le env table account_id sd ed cache Hform Hsd Hed Hys Hye r.
  unfold AccountSummaryForm.is_valid in Hform.
  apply andb_true_iff in Hform as [Hform Hclean].
  apply andb_true_iff in Hform as [_ Hchoice].
  assert (Hacc : validate_account table account_id = true).
  { apply validate_account_spec.
    apply existsb_exists in Hchoice as ([value label] & Hin & Heq).
    apply String.eqb_eq in Heq. simpl in Heq. subst value.
    apply elem_of_remove_dups. rewrite <- (get_account_choices_values le table).
    apply list_elem_of_In in Hin. now apply (list_elem_of_fmap_2 fst) in Hin. }
  assert (Hv : Utils.validate_date_range (strftime sd) (strftime ed)
               = Utils.Valid (sd, ed)).
  { unfold Utils.validate_date_range.
    rewrite (strptime_strftime sd Hsd Hys), (strptime_strftime ed Hed Hye).
    unfold AccountSummaryForm.clean in Hclean.
    destruct (Utils.date_lt ed sd); [discriminate Hclean|].
    cbv zeta in *. now destruct (365 <? Utils.days_between sd ed)%Z. }
  split; [exact Hv|].
  unfold r, account_summary_view.
  rewrite (get_validated env table _ _ _ _ _ _ Hv), Hacc. cbn [negb].
  destruct (env SummaryCacheGet); [split; [discriminate | intros ? [=]]|].
  destruct (cache !! _); [split; [discriminate | intros ? [=]]|].
  destruct (env TransactionQuery); [split; [discriminate | intros ? [=]]|].
  destruct (AccountSummarySerializer _ _);
    [|split; [discriminate | now intros ? [= <-]]].
  destruct (env SummaryCacheSet); split; try discriminate; intros ? [=].
Qed.

Lemma admin_request_is_never_turned_down_witness :
  (account_summary_view summary_healthy summary_table "acc_summary_test"
     (Utils.mkdate 2024 1 1) (Utils.mkdate 2024 1 31) ∅).1
  <> SummaryResponse.HTTP_404_NOT_FOUND.
Proof.
  apply (admin_request_is_never_turned_down String.leb summary_healthy summary_table
           "acc_summary_test" (Utils.mkdate 2024 1 1) (Utils.mkdate 2024 1 31) ∅);
    [vm_compute; reflexivity | reflexivity | reflexivity | simpl; lia | simpl; lia].
Defined.
